(** * classroom-interface: the scene store and its persistence codec

    A shallow embedding of [src/services/firestoreService.ts] (geometry
    codec and entity translator) and of [src/store/sceneStore.ts] (scene
    state store, history engine, mesh edit engine), with the properties the
    specification states about them.

    Conventions.
    - A JavaScript [number] is a binary64 float ([PrimFloat.float]); array
      indices and lengths are [nat]; the history index, which starts at -1,
      is a [Z].
    - An optional field ([x?: T], [undefined]) is an [option].
    - three.js is an external library.  Its objects are modelled by the
      fields the store and the codec read or write; what the library computes
      on its own (the buffers of a primitive, vertex normals, constructor
      defaults, colour parsing) is taken from the interface [ThreeLib].
      Typed arrays are modelled as holding the numbers written to them.
    - [THREE.Object3D] values are mutable and compared by reference: they live
      in a heap, and the store holds references. *)

From Stdlib Require Import PrimFloat ZArith List Bool Lia.
From Stdlib Require SpecFloat FloatOps FloatAxioms.
From stdpp Require Import gmap strings list.
Import ListNotations.

Set Default Proof Using "Type".
#[local] Set Warnings "-inexact-float".

Open Scope string_scope.

(* ===================================================================== *)
(** ** JavaScript helpers *)
(* ===================================================================== *)

Module JS.

(** [a ?? b]: [b] when [a] is [undefined]. *)
Definition nullish {A} (a : option A) (b : A) : A :=
  match a with Some v => v | None => b end.

(** Truthiness of a number: [0], [-0] and [NaN] are falsy. *)
Definition truthyNum (f : float) : bool :=
  negb (PrimFloat.eqb f 0%float) && negb (PrimFloat.is_nan f).

(** [a || b] on an optional number. *)
Definition orNum (a : option float) (b : float) : float :=
  match a with
  | Some v => if truthyNum v then v else b
  | None => b
  end.

(** Truthiness of an optional string: [undefined] and [''] are falsy. *)
Definition truthyStr (s : option string) : bool :=
  match s with
  | Some v => negb (String.eqb v "")
  | None => false
  end.

(** [s || d] on an optional string. *)
Definition orStr (s : option string) (d : string) : string :=
  if truthyStr s then nullish s d else d.

(** [arr.find(pred)]: the first element that satisfies [pred]. *)
Definition find {A} (pred : A -> bool) (arr : list A) : option A :=
  List.find pred arr.

(** [arr.includes(s)] on an array of strings. *)
Definition includes (s : string) (arr : list string) : bool :=
  existsb (String.eqb s) arr.

(** [arr.slice(0, e)] for an integer [e]; a negative [e] counts from the
    end of the array. *)
Definition slice0 {A} (arr : list A) (e : Z) : list A :=
  if (e <? 0)%Z
  then firstn (Z.to_nat (Z.of_nat (length arr) + e)) arr
  else firstn (Z.to_nat e) arr.

(** [arr[i]] for an integer [i]. *)
Definition at_ {A} (arr : list A) (i : Z) : option A :=
  if (i <? 0)%Z then None else nth_error arr (Z.to_nat i).

(** [arr.shift()]: drops the first element. *)
Definition shift {A} (arr : list A) : list A := tl arr.

(** [hay.includes(needle)] on strings. *)
Fixpoint prefixb (p s : string) : bool :=
  match p, s with
  | EmptyString, _ => true
  | String a p', String b s' => Ascii.eqb a b && prefixb p' s'
  | String _ _, EmptyString => false
  end.

Fixpoint strIncludes (needle hay : string) : bool :=
  prefixb needle hay ||
  match hay with
  | EmptyString => false
  | String _ hay' => strIncludes needle hay'
  end.

(** [s.toLowerCase()], on the ASCII letters. *)
Definition lowerAscii (c : Ascii.ascii) : Ascii.ascii :=
  let n := Ascii.nat_of_ascii c in
  if (65 <=? n)%nat && (n <=? 90)%nat then Ascii.ascii_of_nat (n + 32) else c.

Fixpoint toLowerCase (s : string) : string :=
  match s with
  | EmptyString => EmptyString
  | String c s' => String (lowerAscii c) (toLowerCase s')
  end.

End JS.

(* ===================================================================== *)
(** ** The three.js objects the code handles *)
(* ===================================================================== *)

(** A bag of optional numeric fields: the [parameters] object of a three.js
    geometry, and the [geometryParams] / [customGeometry.parameters] objects
    of a persisted record.  An absent key is [None]. *)
Record Params := mkParams {
  width : option float;
  height : option float;
  depth : option float;
  radius : option float;
  widthSegments : option float;
  heightSegments : option float;
  radiusTop : option float;
  radiusBottom : option float;
  radialSegments : option float;
  tube : option float;
  tubularSegments : option float;
  arc : option float
}.

(** The empty object [{}]. *)
Definition noParams : Params :=
  mkParams None None None None None None None None None None None None.

Inductive GeometryClass :=
| BufferGeometry | BoxGeometry | SphereGeometry
| CylinderGeometry | ConeGeometry | TorusGeometry.

#[global] Instance GeometryClass_eq_dec : EqDecision GeometryClass.
Proof. solve_decision. Defined.

(** [g instanceof C], on the class of [g].  three.js declares
    [class ConeGeometry extends CylinderGeometry], and every geometry class
    extends [BufferGeometry]. *)
Definition instanceOf (cls target : GeometryClass) : bool :=
  match target, cls with
  | BufferGeometry, _ => true
  | CylinderGeometry, ConeGeometry => true
  | _, _ => bool_decide (cls = target)
  end.

(** The buffers of a geometry: [attributes.position], [attributes.normal],
    [attributes.uv] and [index], each absent or an array. *)
Record Attributes := mkAttributes {
  position : option (list float);
  normal : option (list float);
  uv : option (list float);
  index : option (list nat)
}.

Definition noAttributes : Attributes := mkAttributes None None None None.

Record Geometry := mkGeometry {
  gclass : GeometryClass;
  parameters : option Params;
  attributes : Attributes
}.

(** What three.js computes by itself. *)
Class ThreeLib := {
  (** the content [computeVertexNormals] gives the normal attribute, from the
      position array and the index *)
  vertexNormals : list float -> option (list nat) -> list float;
  (** the buffers a primitive's constructor builds from its parameters *)
  primitiveAttributes : GeometryClass -> Params -> Attributes;
  (** the [parameters] of a primitive built with no argument: the
      constructor's default for every argument left [undefined] *)
  ctorDefaults : GeometryClass -> Params;
  (** [new THREE.Color(style).getHexString()] *)
  hexOfStyle : string -> string;
  (** [metalness] and [roughness] of a [MeshStandardMaterial] built without
      them *)
  defaultMetalness : float;
  defaultRoughness : float
}.

(** [computeVertexNormals] allocates one normal component per position
    component. *)
Definition NormalsSized (L : ThreeLib) : Prop :=
  forall pos idx, length (vertexNormals pos idx) = length pos.

Module Vector3.
Record t := mk { x : float; y : float; z : float }.
End Vector3.

(** [MeshStandardMaterial]; [color] is kept as its hex string. *)
Module StandardMaterial.
Record t := mk {
  color : string;
  opacity : float;
  transparent : bool;
  metalness : float;
  roughness : float
}.
End StandardMaterial.

Inductive Material :=
| MeshStandardMaterial (m : StandardMaterial.t)
| OtherMaterial.

(** An [Object3D]: a [Mesh] with its geometry and material, or another kind
    of object (a group of meshes, say), named by its [type] string. *)
Inductive Body :=
| MeshBody (geometry : Geometry) (material : Material)
| OtherBody (type : string).

Module Object3D.
Record t := mk {
  body : Body;
  position : Vector3.t;
  rotation : Vector3.t;
  scale : Vector3.t;
  visible : bool
}.

(** [object.type] *)
Definition type (o : t) : string :=
  match body o with
  | MeshBody _ _ => "Mesh"
  | OtherBody ty => ty
  end.
End Object3D.

Section ThreeConstructors.
Context {L : ThreeLib}.

(** [new THREE.BufferGeometry()] *)
Definition newBufferGeometry : Geometry :=
  mkGeometry BufferGeometry None noAttributes.

Definition build (cls : GeometryClass) (p : Params) : Geometry :=
  mkGeometry cls (Some p) (primitiveAttributes cls p).

(** An argument left [undefined] takes the constructor's default. *)
Definition arg (given : option float) (dflt : option float) : option float :=
  match given with Some v => Some v | None => dflt end.

(** [new THREE.BoxGeometry(width, height, depth)] *)
Definition newBoxGeometry (w h d : option float) : Geometry :=
  let df := ctorDefaults BoxGeometry in
  build BoxGeometry
    (mkParams (arg w (width df)) (arg h (height df)) (arg d (depth df))
       (radius df) (widthSegments df) (heightSegments df) (radiusTop df)
       (radiusBottom df) (radialSegments df) (tube df) (tubularSegments df)
       (arc df)).

(** [new THREE.SphereGeometry(radius, widthSegments, heightSegments)] *)
Definition newSphereGeometry (r ws hs : option float) : Geometry :=
  let df := ctorDefaults SphereGeometry in
  build SphereGeometry
    (mkParams (width df) (height df) (depth df)
       (arg r (radius df)) (arg ws (widthSegments df))
       (arg hs (heightSegments df)) (radiusTop df)
       (radiusBottom df) (radialSegments df) (tube df) (tubularSegments df)
       (arc df)).

(** [new THREE.CylinderGeometry(radiusTop, radiusBottom, height,
    radialSegments)] *)
Definition newCylinderGeometry (rt rb h rs : option float) : Geometry :=
  let df := ctorDefaults CylinderGeometry in
  build CylinderGeometry
    (mkParams (width df) (arg h (height df)) (depth df)
       (radius df) (widthSegments df) (heightSegments df)
       (arg rt (radiusTop df)) (arg rb (radiusBottom df))
       (arg rs (radialSegments df)) (tube df) (tubularSegments df)
       (arc df)).

(** [new THREE.ConeGeometry(radius, height, radialSegments)]; its
    [parameters] object has [radius] and no [radiusTop]/[radiusBottom]. *)
Definition newConeGeometry (r h rs : option float) : Geometry :=
  let df := ctorDefaults ConeGeometry in
  build ConeGeometry
    (mkParams (width df) (arg h (height df)) (depth df)
       (arg r (radius df)) (widthSegments df) (heightSegments df)
       (radiusTop df) (radiusBottom df)
       (arg rs (radialSegments df)) (tube df) (tubularSegments df)
       (arc df)).

(** [new THREE.TorusGeometry(radius, tube, radialSegments,
    tubularSegments, arc)], every argument given. *)
Definition newTorusGeometry (r t rs ts a : float) : Geometry :=
  let df := ctorDefaults TorusGeometry in
  build TorusGeometry
    (mkParams (width df) (height df) (depth df)
       (Some r) (widthSegments df) (heightSegments df)
       (radiusTop df) (radiusBottom df)
       (Some rs) (Some t) (Some ts) (Some a)).

(** [geometry.computeVertexNormals()]: nothing happens without a position
    attribute; otherwise the normal attribute is (re)written. *)
Definition computeVertexNormals (g : Geometry) : Geometry :=
  let a := attributes g in
  match position a with
  | None => g
  | Some pos =>
      mkGeometry (gclass g) (parameters g)
        (mkAttributes (position a) (Some (vertexNormals pos (index a)))
           (uv a) (index a))
  end.

End ThreeConstructors.

(* ===================================================================== *)
(** ** firestoreService.ts: the persisted records and the codec *)
(* ===================================================================== *)

(** The sentinel [serverTimestamp()] writes. *)
Inductive Timestamp := serverTimestamp.

(** [customGeometry] of a persisted object. *)
Module CustomGeometry.
Record t := mk {
  type : string;
  vertices : option (list float);
  indices : option (list nat);
  normals : option (list float);
  uvs : option (list float);
  parameters : option Params
}.
End CustomGeometry.

(** [materialParams] of a persisted object. *)
Module MaterialParams.
Record t := mk {
  transparent : option bool;
  metalness : option float;
  roughness : option float
}.
End MaterialParams.

Module FirestoreObject.
Record t := mk {
  id : option string;
  userId : option string;
  projectId : option string;
  name : string;
  type : string;
  position : Vector3.t;
  rotation : Vector3.t;
  scale : Vector3.t;
  color : string;
  opacity : float;
  visible : bool;
  locked : bool;
  groupId : option string;
  geometryParams : option Params;
  materialParams : option MaterialParams.t;
  customGeometry : option CustomGeometry.t;
  createdAt : option Timestamp;
  updatedAt : option Timestamp
}.
End FirestoreObject.


Section Codec.
Context {L : ThreeLib}.

(** [Array.from(attribute.array)], or [[]] without the attribute. *)
Definition arrayOf {A} (attr : option (list A)) : list A :=
  match attr with Some a => a | None => [] end.

Definition serializeGeometry (geometry : Geometry)
  : list float * list float * list float * list nat * Params :=
  let a := attributes geometry in
  (arrayOf (position a), arrayOf (normal a), arrayOf (uv a),
   arrayOf (index a), JS.nullish (parameters geometry) noParams).

(** [arr && arr.length > 0] *)
Definition nonEmpty {A} (arr : option (list A)) : option (list A) :=
  match arr with
  | Some (v :: l) => Some (v :: l)
  | _ => None
  end.

Definition deserializeGeometry (cg : CustomGeometry.t) : Geometry :=
  let g0 := newBufferGeometry in
  let g1 :=
    mkGeometry (gclass g0)
      (match CustomGeometry.parameters cg with
       | Some p => Some p
       | None => parameters g0
       end)
      (mkAttributes
         (nonEmpty (CustomGeometry.vertices cg))
         (nonEmpty (CustomGeometry.normals cg))
         (nonEmpty (CustomGeometry.uvs cg))
         (nonEmpty (CustomGeometry.indices cg))) in
  match nonEmpty (CustomGeometry.normals cg) with
  | None => computeVertexNormals g1
  | Some _ => g1
  end.

Definition customNames : list string := ["star"; "heart"; "torus"; "custom"].

Definition isCustomGeometry (geometry : Geometry) (name : string) : bool :=
  let nameIsCustom :=
    existsb (fun customName => JS.strIncludes customName (JS.toLowerCase name))
      customNames in
  let isTorusGeometry := instanceOf (gclass geometry) TorusGeometry in
  let hasStandardParams :=
    match parameters geometry with
    | Some _ =>
        instanceOf (gclass geometry) BoxGeometry
        || instanceOf (gclass geometry) SphereGeometry
        || instanceOf (gclass geometry) CylinderGeometry
        || instanceOf (gclass geometry) ConeGeometry
    | None => false
    end in
  nameIsCustom || isTorusGeometry || negb hasStandardParams.

(** [{ type: 'custom', ...serializeGeometry(geometry) }] *)
Definition customRecord (geometry : Geometry) : CustomGeometry.t :=
  let '(vs, ns, us, is_, ps) := serializeGeometry geometry in
  CustomGeometry.mk "custom" (Some vs) (Some is_) (Some ns) (Some us) (Some ps).

(** The geometry part of [objectToFirestore]: the [type] override, the
    [geometryParams] and the [customGeometry] of the record. *)
Definition geometryToFirestore (geometry : Geometry) (name : string)
  : option string * option Params * option CustomGeometry.t :=
  let cls := gclass geometry in
  let gp := JS.nullish (parameters geometry) noParams in
  if isCustomGeometry geometry name then
    let cg := customRecord geometry in
    let cg' :=
      if instanceOf cls TorusGeometry then
        CustomGeometry.mk "torus"
          (CustomGeometry.vertices cg) (CustomGeometry.indices cg)
          (CustomGeometry.normals cg) (CustomGeometry.uvs cg)
          (Some (mkParams None None None (radius gp) None None None None
                   (radialSegments gp) (tube gp) (tubularSegments gp)
                   (arc gp)))
      else cg in
    (Some "CustomMesh", None, Some cg')
  else if instanceOf cls BoxGeometry then
    (None,
     Some (mkParams
             (Some (JS.nullish (width gp) 1%float))
             (Some (JS.nullish (height gp) 1%float))
             (Some (JS.nullish (depth gp) 1%float))
             None None None None None None None None None),
     None)
  else if instanceOf cls SphereGeometry then
    (None,
     Some (mkParams None None None
             (Some (JS.nullish (radius gp) 0.5%float))
             (Some (JS.nullish (widthSegments gp) 32%float))
             (Some (JS.nullish (heightSegments gp) 16%float))
             None None None None None None),
     None)
  else if instanceOf cls CylinderGeometry then
    (None,
     Some (mkParams None
             (Some (JS.nullish (height gp) 1%float))
             None None None None
             (Some (JS.nullish (radiusTop gp) 0.5%float))
             (Some (JS.nullish (radiusBottom gp) 0.5%float))
             (Some (JS.nullish (radialSegments gp) 32%float))
             None None None),
     None)
  else if instanceOf cls ConeGeometry then
    (None,
     Some (mkParams None
             (Some (JS.nullish (height gp) 1%float))
             None
             (Some (JS.nullish (radius gp) 0.5%float))
             None None None None
             (Some (JS.nullish (radialSegments gp) 32%float))
             None None None),
     None)
  else
    (Some "CustomMesh", None, Some (customRecord geometry)).

Definition objectToFirestore (object : Object3D.t) (name : string)
    (id userId projectId : option string) : FirestoreObject.t :=
  let material :=
    match Object3D.body object with
    | MeshBody _ (MeshStandardMaterial m) => Some m
    | _ => None
    end in
  let '(ty, gparams, custom) :=
    match Object3D.body object with
    | MeshBody geometry _ => geometryToFirestore geometry name
    | OtherBody _ => (None, None, None)
    end in
  FirestoreObject.mk
    (if JS.truthyStr id then id else None)
    (if JS.truthyStr userId then userId else None)
    (if JS.truthyStr projectId then projectId else None)
    name
    (JS.nullish ty (Object3D.type object))
    (Object3D.position object)
    (Object3D.rotation object)
    (Object3D.scale object)
    (match material with
     | Some m => "#" +:+ StandardMaterial.color m
     | None => "#44aa88"
     end)
    (match material with
     | Some m => StandardMaterial.opacity m
     | None => 1%float
     end)
    (Object3D.visible object)
    false
    None
    gparams
    (match material with
     | Some m =>
         Some (MaterialParams.mk
                 (Some (StandardMaterial.transparent m))
                 (Some (StandardMaterial.metalness m))
                 (Some (StandardMaterial.roughness m)))
     | None => None
     end)
    custom
    (if JS.truthyStr id then None else Some serverTimestamp)
    (Some serverTimestamp).

(** The geometry [firestoreToObject] builds for a record of type ['Mesh']
    or ['CustomMesh']. *)
Definition geometryOfRecord (data : FirestoreObject.t) : Geometry :=
  match FirestoreObject.customGeometry data with
  | Some cg =>
      match String.eqb (CustomGeometry.type cg) "torus",
            CustomGeometry.parameters cg with
      | true, Some params =>
          newTorusGeometry
            (JS.orNum (radius params) 1%float)
            (JS.orNum (tube params) 0.4%float)
            (JS.orNum (radialSegments params) 8%float)
            (JS.orNum (tubularSegments params) 16%float)
            (JS.orNum (arc params) (3.141592653589793 * 2)%float)
      | _, _ => deserializeGeometry cg
      end
  | None =>
      match FirestoreObject.geometryParams data with
      | Some gp =>
          if bool_decide (is_Some (width gp)) then
            newBoxGeometry (width gp) (height gp) (depth gp)
          else if bool_decide (is_Some (radius gp))
                  && bool_decide (is_Some (widthSegments gp)) then
            newSphereGeometry (radius gp) (widthSegments gp)
              (heightSegments gp)
          else if bool_decide (is_Some (radiusTop gp)) then
            newCylinderGeometry (radiusTop gp) (radiusBottom gp)
              (height gp) (radialSegments gp)
          else if bool_decide (is_Some (radius gp))
                  && bool_decide (is_Some (radialSegments gp)) then
            newConeGeometry (radius gp) (height gp) (radialSegments gp)
          else
            newBoxGeometry (Some 1%float) (Some 1%float) (Some 1%float)
      | None => newBoxGeometry (Some 1%float) (Some 1%float) (Some 1%float)
      end
  end.

(** [new THREE.MeshStandardMaterial({ color, transparent: opacity < 1,
    opacity, ...materialParams })] *)
Definition materialOfRecord (data : FirestoreObject.t) : StandardMaterial.t :=
  let mp :=
    JS.nullish (FirestoreObject.materialParams data)
      (MaterialParams.mk None None None) in
  StandardMaterial.mk
    (hexOfStyle (FirestoreObject.color data))
    (FirestoreObject.opacity data)
    (JS.nullish (MaterialParams.transparent mp)
       (PrimFloat.ltb (FirestoreObject.opacity data) 1%float))
    (JS.nullish (MaterialParams.metalness mp) defaultMetalness)
    (JS.nullish (MaterialParams.roughness mp) defaultRoughness).

Definition firestoreToObject (data : FirestoreObject.t) : option Object3D.t :=
  if String.eqb (FirestoreObject.type data) "Mesh"
     || String.eqb (FirestoreObject.type data) "CustomMesh"
  then
    Some (Object3D.mk
            (MeshBody (geometryOfRecord data)
               (MeshStandardMaterial (materialOfRecord data)))
            (FirestoreObject.position data)
            (FirestoreObject.rotation data)
            (FirestoreObject.scale data)
            (FirestoreObject.visible data))
  else None.

End Codec.

(* ===================================================================== *)
(** ** A concrete three.js for running the model *)
(* ===================================================================== *)

(** An instance of [ThreeLib] on which the model computes: the constructor
    defaults of the three.js documentation, a zero normal per vertex, one
    triangle as the buffers of every primitive, and colours given as
    ['#rrggbb']. *)
Definition referenceThree : ThreeLib := {|
  vertexNormals := fun pos _ => List.map (fun _ => 0%float) pos;
  primitiveAttributes := fun _ _ =>
    mkAttributes
      (Some [0; 0; 0; 1; 0; 0; 0; 1; 0]%float)
      (Some [0; 0; 1; 0; 0; 1; 0; 0; 1]%float)
      (Some [0; 0; 1; 0; 0; 1]%float)
      (Some [0; 1; 2]%nat);
  ctorDefaults := fun cls =>
    match cls with
    | BoxGeometry =>
        mkParams (Some 1) (Some 1) (Some 1) None (Some 1) (Some 1)
          None None None None None None
    | SphereGeometry =>
        mkParams None None None (Some 1) (Some 32) (Some 16)
          None None None None None None
    | CylinderGeometry =>
        mkParams None (Some 1) None None None (Some 1)
          (Some 1) (Some 1) (Some 32) None None None
    | ConeGeometry =>
        mkParams None (Some 1) None (Some 1) None (Some 1)
          None None (Some 32) None None None
    | TorusGeometry =>
        mkParams None None None (Some 1) None None
          None None (Some 12) (Some 0.4) (Some 48) (Some 6.283185307179586)
    | BufferGeometry => noParams
    end%float;
  hexOfStyle := fun s =>
    match s with
    | String (Ascii.Ascii true true false false false true false false) rest =>
        rest
    | _ => s
    end;
  defaultMetalness := 0%float;
  defaultRoughness := 1%float
|}.

(* ===================================================================== *)
(** ** The round trips of the codec *)
(* ===================================================================== *)

(** The four parametric kinds and their parameter sets. *)
Inductive Kind := box | sphere | cylinder | cone.

Definition boxParams (w h d : float) : Params :=
  mkParams (Some w) (Some h) (Some d) None None None None None None
    None None None.

Definition sphereParams (r ws hs : float) : Params :=
  mkParams None None None (Some r) (Some ws) (Some hs) None None None
    None None None.

Definition cylinderParams (rt rb h rs : float) : Params :=
  mkParams None (Some h) None None None None (Some rt) (Some rb) (Some rs)
    None None None.

Definition coneParams (r h rs : float) : Params :=
  mkParams None (Some h) None (Some r) None None None None (Some rs)
    None None None.

(** [P] is a complete parameter set of kind [k]. *)
Inductive ValidParams : Kind -> Params -> Prop :=
| valid_box w h d : ValidParams box (boxParams w h d)
| valid_sphere r ws hs : ValidParams sphere (sphereParams r ws hs)
| valid_cylinder rt rb h rs : ValidParams cylinder (cylinderParams rt rb h rs)
| valid_cone r h rs : ValidParams cone (coneParams r h rs).

(** The name matches none of the keywords that make a mesh custom. *)
Definition plainName (name : string) : bool :=
  negb (existsb (fun customName =>
                   JS.strIncludes customName (JS.toLowerCase name))
          customNames).

(** A persisted record that describes a parametric mesh with [P]. *)
Definition parametricRecord (data : FirestoreObject.t) (P : Params) : Prop :=
  FirestoreObject.type data = "Mesh"
  /\ FirestoreObject.customGeometry data = None
  /\ FirestoreObject.geometryParams data = Some P.

Section RoundTrip.
Context {L : ThreeLib}.

(** Load a record, then translate the mesh back to a record the way the
    store does when it saves: under the record's name, id and scope. *)
Definition reserialize (data : FirestoreObject.t) : option FirestoreObject.t :=
  match firestoreToObject data with
  | Some object =>
      Some (objectToFirestore object (FirestoreObject.name data)
              (FirestoreObject.id data) (FirestoreObject.userId data)
              (FirestoreObject.projectId data))
  | None => None
  end.

(** The parameter set that comes back from a round trip. *)
Definition roundTripParams (data : FirestoreObject.t) : option Params :=
  match reserialize data with
  | Some data' => FirestoreObject.geometryParams data'
  | None => None
  end.

(** The record a cone comes back as: the serializer tests
    [instanceof CylinderGeometry] before [instanceof ConeGeometry], a cone
    is a cylinder for three.js, and the cylinder fields are written. *)
Definition coneComesBackAs (h rs : float) : Params :=
  let df := ctorDefaults ConeGeometry in
  mkParams None (Some h) None None None None
    (Some (JS.nullish (radiusTop df) 0.5%float))
    (Some (JS.nullish (radiusBottom df) 0.5%float))
    (Some rs) None None None.

(** The geometry of a mesh, [None] for another kind of object. *)
Definition geometryOf (o : Object3D.t) : option Geometry :=
  match Object3D.body o with
  | MeshBody g _ => Some g
  | OtherBody _ => None
  end.

(** The geometry that comes back when the mesh [o], named [name], is
    written to a record and the record is loaded. *)
Definition reloadGeometry (o : Object3D.t) (name : string) : option Geometry :=
  match firestoreToObject (objectToFirestore o name None None None) with
  | Some o' => geometryOf o'
  | None => None
  end.

End RoundTrip.

Definition origin : Vector3.t := Vector3.mk 0 0 0.
Definition unitScale : Vector3.t := Vector3.mk 1 1 1.

(** A persisted cone: radius 0.5, height 1, 32 radial segments. *)
Definition coneRecord : FirestoreObject.t :=
  FirestoreObject.mk (Some "doc-1") (Some "teacher") (Some "project-1")
    "Cone" "Mesh" origin origin unitScale "#44aa88" 1 true false None
    (Some (coneParams 0.5 1 32)) None None None None.

(** A custom mesh without a single vertex. *)
Definition emptyCustomMesh : Object3D.t :=
  Object3D.mk (MeshBody newBufferGeometry OtherMaterial)
    origin origin unitScale true.

(** One triangle, indexed, without normals. *)
Definition triangle : Geometry :=
  mkGeometry BufferGeometry None
    (mkAttributes (Some [0; 0; 0; 1; 0; 0; 0; 1; 0]%float) None None
       (Some [0; 1; 2]%nat)).

(* ===================================================================== *)
(** ** sceneStore.ts: the state of the store *)
(* ===================================================================== *)

Inductive LightType := directional | point | spot.

(** A [THREE.Light]: the live handle of a light. *)
Module LightHandle.
Record t := mk {
  kind : LightType;
  color : string;
  intensity : float;
  position : list float;
  target : option (list float);
  distance : option float;
  decay : option float;
  angle : option float;
  penumbra : option float;
  castShadow : bool;
  visible : bool
}.
End LightHandle.

Module Light.
Record t := mk {
  id : string;
  name : string;
  type : LightType;
  position : list float;
  target : list float;
  intensity : float;
  color : string;
  visible : bool;
  castShadow : bool;
  distance : float;
  decay : float;
  angle : float;
  penumbra : float;
  object : option LightHandle.t;
  firestoreId : option string
}.

(** [{ ...light, object: handle }] *)
Definition withObject (handle : option LightHandle.t) (l : t) : t :=
  mk (id l) (name l) (type l) (position l) (target l) (intensity l) (color l)
    (visible l) (castShadow l) (distance l) (decay l) (angle l) (penumbra l)
    handle (firestoreId l).
End Light.

Module Group.
Record t := mk {
  id : string;
  name : string;
  expanded : bool;
  visible : bool;
  locked : bool;
  objectIds : list string;
  firestoreId : option string
}.

(** [{ ...group, objectIds: ids }] *)
Definition withObjectIds (ids : list string) (g : t) : t :=
  mk (id g) (name g) (expanded g) (visible g) (locked g) ids (firestoreId g).
End Group.

(** An entry of the object list; [object] is a reference to the
    [THREE.Object3D] in the heap. *)
Module SceneObject.
Record t := mk {
  id : string;
  object : nat;
  name : string;
  visible : bool;
  locked : bool;
  groupId : option string;
  firestoreId : option string
}.

Definition withObject (r : nat) (o : t) : t :=
  mk (id o) r (name o) (visible o) (locked o) (groupId o) (firestoreId o).
Definition withName (n : string) (o : t) : t :=
  mk (id o) (object o) n (visible o) (locked o) (groupId o) (firestoreId o).
Definition withVisible (v : bool) (o : t) : t :=
  mk (id o) (object o) (name o) v (locked o) (groupId o) (firestoreId o).
Definition withLocked (l : bool) (o : t) : t :=
  mk (id o) (object o) (name o) (visible o) l (groupId o) (firestoreId o).
Definition withGroupId (g : option string) (o : t) : t :=
  mk (id o) (object o) (name o) (visible o) (locked o) g (firestoreId o).
Definition withFirestoreId (f : option string) (o : t) : t :=
  mk (id o) (object o) (name o) (visible o) (locked o) (groupId o) f.
End SceneObject.

Module HistoryState.
Record t := mk {
  objects : list SceneObject.t;
  groups : list Group.t;
  lights : list Light.t
}.
End HistoryState.

Module SelectedElements.
Record t := mk {
  vertices : list nat;
  edges : list nat;
  faces : list nat
}.
End SelectedElements.

Module DraggedVertex.
Record t := mk {
  indices : list nat;
  position : Vector3.t;
  initialPosition : Vector3.t
}.
End DraggedVertex.

(** The state of the store.  The fields that no action modelled here reads
    or writes (camera, scene settings, transform and edit modes, placement,
    edge drag, loading and subscription handles) are left out. *)
Module SceneState.
Record t := mk {
  objects : list SceneObject.t;
  groups : list Group.t;
  lights : list Light.t;
  selectedLight : option Light.t;
  selectedObject : option nat;
  selectedElements : SelectedElements.t;
  draggedVertex : option DraggedVertex.t;
  history : list HistoryState.t;
  historyIndex : Z;
  canUndo : bool;
  canRedo : bool;
  hasUnsavedChanges : bool;
  currentProjectId : option string;
  currentUserId : option string
}.

Definition setObjects v (s : t) : t :=
  mk v (groups s) (lights s) (selectedLight s) (selectedObject s)
    (selectedElements s) (draggedVertex s) (history s) (historyIndex s)
    (canUndo s) (canRedo s) (hasUnsavedChanges s) (currentProjectId s)
    (currentUserId s).
Definition setGroups v (s : t) : t :=
  mk (objects s) v (lights s) (selectedLight s) (selectedObject s)
    (selectedElements s) (draggedVertex s) (history s) (historyIndex s)
    (canUndo s) (canRedo s) (hasUnsavedChanges s) (currentProjectId s)
    (currentUserId s).
Definition setLights v (s : t) : t :=
  mk (objects s) (groups s) v (selectedLight s) (selectedObject s)
    (selectedElements s) (draggedVertex s) (history s) (historyIndex s)
    (canUndo s) (canRedo s) (hasUnsavedChanges s) (currentProjectId s)
    (currentUserId s).
Definition setSelectedLight v (s : t) : t :=
  mk (objects s) (groups s) (lights s) v (selectedObject s)
    (selectedElements s) (draggedVertex s) (history s) (historyIndex s)
    (canUndo s) (canRedo s) (hasUnsavedChanges s) (currentProjectId s)
    (currentUserId s).
Definition setSelectedObject v (s : t) : t :=
  mk (objects s) (groups s) (lights s) (selectedLight s) v
    (selectedElements s) (draggedVertex s) (history s) (historyIndex s)
    (canUndo s) (canRedo s) (hasUnsavedChanges s) (currentProjectId s)
    (currentUserId s).
Definition setSelectedElements v (s : t) : t :=
  mk (objects s) (groups s) (lights s) (selectedLight s) (selectedObject s)
    v (draggedVertex s) (history s) (historyIndex s)
    (canUndo s) (canRedo s) (hasUnsavedChanges s) (currentProjectId s)
    (currentUserId s).
Definition setDraggedVertex v (s : t) : t :=
  mk (objects s) (groups s) (lights s) (selectedLight s) (selectedObject s)
    (selectedElements s) v (history s) (historyIndex s)
    (canUndo s) (canRedo s) (hasUnsavedChanges s) (currentProjectId s)
    (currentUserId s).
Definition setHistory v (s : t) : t :=
  mk (objects s) (groups s) (lights s) (selectedLight s) (selectedObject s)
    (selectedElements s) (draggedVertex s) v (historyIndex s)
    (canUndo s) (canRedo s) (hasUnsavedChanges s) (currentProjectId s)
    (currentUserId s).
Definition setHistoryIndex v (s : t) : t :=
  mk (objects s) (groups s) (lights s) (selectedLight s) (selectedObject s)
    (selectedElements s) (draggedVertex s) (history s) v
    (canUndo s) (canRedo s) (hasUnsavedChanges s) (currentProjectId s)
    (currentUserId s).
Definition setCanUndo v (s : t) : t :=
  mk (objects s) (groups s) (lights s) (selectedLight s) (selectedObject s)
    (selectedElements s) (draggedVertex s) (history s) (historyIndex s)
    v (canRedo s) (hasUnsavedChanges s) (currentProjectId s)
    (currentUserId s).
Definition setCanRedo v (s : t) : t :=
  mk (objects s) (groups s) (lights s) (selectedLight s) (selectedObject s)
    (selectedElements s) (draggedVertex s) (history s) (historyIndex s)
    (canUndo s) v (hasUnsavedChanges s) (currentProjectId s)
    (currentUserId s).
Definition setHasUnsavedChanges v (s : t) : t :=
  mk (objects s) (groups s) (lights s) (selectedLight s) (selectedObject s)
    (selectedElements s) (draggedVertex s) (history s) (historyIndex s)
    (canUndo s) (canRedo s) v (currentProjectId s)
    (currentUserId s).

(** The state the store is created with. *)
Definition initial : t :=
  mk [] [] [] None None (SelectedElements.mk [] [] []) None [] (-1)%Z
    false false false None None.
End SceneState.

(* ===================================================================== *)
(** ** The persistence gateway, seen from the store *)
(* ===================================================================== *)

(** The partial records the store sends with [updateObject]. *)
Inductive ObjectPatch :=
| PatchVisible (visible : bool)
| PatchLocked (locked : bool)
| PatchName (name : string)
| PatchGroupId (groupId : option string).

Inductive Request :=
| saveObject (data : FirestoreObject.t) (userId projectId : string)
| updateObject (id : string) (patch : ObjectPatch) (userId projectId : string)
| deleteObject (id : string) (projectId : string)
| updateGroup (id : string) (objectIds : list string) (userId projectId : string).

(** How an awaited gateway call ends: it resolves (with the document id, for
    a create) or it rejects. *)
Inductive Response :=
| resolved (id : string)
| rejected.

(** What the store does not decide: the outcome of the n-th gateway call,
    and the n-th identifier [crypto.randomUUID()] draws. *)
Class Host := {
  gatewayReply : nat -> Request -> Response;
  uuid : nat -> string
}.

(** A gateway call as it happened: the request, its outcome, and the state
    of the store at the moment of the call. *)
Record GatewayEvent := mkGatewayEvent {
  request : Request;
  response : Response;
  storeAtCall : SceneState.t
}.

(** The store in its environment: the heap of three.js objects, the number
    of identifiers drawn, the gateway calls made so far, and the number of
    [setTimeout(() => get().saveToHistory(), 0)] callbacks not yet run. *)
Record World := mkWorld {
  store : SceneState.t;
  heap : gmap nat Object3D.t;
  nextRef : nat;
  uuidCount : nat;
  log : list GatewayEvent;
  timers : nat
}.

Definition setStore (s : SceneState.t) (w : World) : World :=
  mkWorld s (heap w) (nextRef w) (uuidCount w) (log w) (timers w).

(** [new THREE.Object3D()] *)
Definition blankObject : Object3D.t :=
  Object3D.mk (OtherBody "Object3D") (Vector3.mk 0 0 0) (Vector3.mk 0 0 0)
    (Vector3.mk 1 1 1) true.

(* ===================================================================== *)
(** ** The monad of store actions: state of the world, and exceptions *)
(* ===================================================================== *)

Inductive Res (A : Type) :=
| Ok (a : A)
| Throw.
Arguments Ok {A} a.
Arguments Throw {A}.

Definition M (A : Type) : Type := World -> Res A * World.

Definition ret {A} (a : A) : M A := fun w => (Ok a, w).

Definition bind {A B} (m : M A) (k : A -> M B) : M B :=
  fun w =>
    match m w with
    | (Ok a, w') => k a w'
    | (Throw, w') => (Throw, w')
    end.

(** An uncaught [TypeError]. *)
Definition throw {A} : M A := fun w => (Throw, w).

Declare Scope action_scope.
Delimit Scope action_scope with action.
Notation "'let*' x ':=' m 'in' k" := (bind m (fun x => k))
  (at level 10, x name, m at level 100, k at level 200, only parsing)
  : action_scope.
Open Scope action_scope.

(** [get()] *)
Definition get : M SceneState.t := fun w => (Ok (store w), w).

(** [set(...)]: the fields given are merged into the current state. *)
Definition set (f : SceneState.t -> SceneState.t) : M unit :=
  fun w => (Ok tt, setStore (f (store w)) w).

(** The object a reference designates.  A reference always designates an
    object; one the heap does not hold stands for a blank [Object3D]. *)
Definition deref (r : nat) : M Object3D.t :=
  fun w => (Ok (default blankObject (heap w !! r)), w).

(** A new object in the heap. *)
Definition alloc (o : Object3D.t) : M nat :=
  fun w =>
    (Ok (nextRef w),
     mkWorld (store w) (<[nextRef w := o]> (heap w)) (S (nextRef w))
       (uuidCount w) (log w) (timers w)).

(** A write through a reference. *)
Definition mutate (r : nat) (f : Object3D.t -> Object3D.t) : M unit :=
  fun w =>
    (Ok tt,
     mkWorld (store w) (<[r := f (default blankObject (heap w !! r))]> (heap w))
       (nextRef w) (uuidCount w) (log w) (timers w)).

(** [crypto.randomUUID()] *)
Definition randomUUID {H : Host} : M string :=
  fun w =>
    (Ok (uuid (uuidCount w)),
     mkWorld (store w) (heap w) (nextRef w) (S (uuidCount w)) (log w)
       (timers w)).

(** [await] of a gateway call inside [try]/[catch]: the outcome comes back,
    and the call is logged with the state of the store at that moment. *)
Definition await {H : Host} (req : Request) : M Response :=
  fun w =>
    let resp := gatewayReply (length (log w)) req in
    (Ok resp,
     mkWorld (store w) (heap w) (nextRef w) (uuidCount w)
       (log w ++ [mkGatewayEvent req resp (store w)])%list (timers w)).

(** [setTimeout(() => get().saveToHistory(), 0)] *)
Definition deferSaveToHistory : M unit :=
  fun w =>
    (Ok tt,
     mkWorld (store w) (heap w) (nextRef w) (uuidCount w) (log w)
       (S (timers w))).

Fixpoint mapM {A B} (f : A -> M B) (l : list A) : M (list B) :=
  match l with
  | [] => ret []
  | a :: l' => let* b := f a in let* bs := mapM f l' in ret (b :: bs)
  end.

Fixpoint forEachM {A} (f : A -> M unit) (l : list A) : M unit :=
  match l with
  | [] => ret tt
  | a :: l' => let* _ := f a in forEachM f l'
  end.

(* ===================================================================== *)
(** ** sceneStore.ts: the actions *)
(* ===================================================================== *)

(** [firestoreData.visible = v; firestoreData.locked = l] *)
Definition withVisibleLocked (v l : bool) (d : FirestoreObject.t)
  : FirestoreObject.t :=
  FirestoreObject.mk (FirestoreObject.id d) (FirestoreObject.userId d)
    (FirestoreObject.projectId d) (FirestoreObject.name d)
    (FirestoreObject.type d) (FirestoreObject.position d)
    (FirestoreObject.rotation d) (FirestoreObject.scale d)
    (FirestoreObject.color d) (FirestoreObject.opacity d) v l
    (FirestoreObject.groupId d) (FirestoreObject.geometryParams d)
    (FirestoreObject.materialParams d) (FirestoreObject.customGeometry d)
    (FirestoreObject.createdAt d) (FirestoreObject.updatedAt d).

(** [createLight(type, position, target)]: the handle is built from these
    three arguments; colour, intensity and the photometric fields are the
    constants below, and [castShadow] is set. *)
Definition createLight (type : LightType) (position target : list float)
  : LightHandle.t :=
  match type with
  | directional =>
      LightHandle.mk directional "#ffffff" 1 position (Some target)
        None None None None true true
  | point =>
      LightHandle.mk point "#ffffff" 1 position None
        (Some 0%float) (Some 2%float) None None true true
  | spot =>
      LightHandle.mk spot "#ffffff" 1 position (Some target)
        (Some 0%float) (Some 2%float)
        (Some (3.141592653589793 / 3)%float) (Some 0%float) true true
  end.

(** [obj.id === id] *)
Definition hasId (id : string) (obj : SceneObject.t) : bool :=
  String.eqb (SceneObject.id obj) id.

(** [g.id === id] *)
Definition groupHasId (id : string) (g : Group.t) : bool :=
  String.eqb (Group.id g) id.

(** [a && b && c] on optional strings. *)
Definition allTruthy (l : list (option string)) : bool :=
  forallb JS.truthyStr l.

(** The value of an optional string known to be truthy. *)
Definition str (s : option string) : string := JS.nullish s "".

(** The check every guarded action makes on the group of an object:
    [if (obj.groupId) { const group = groups.find(g => g.id === obj.groupId);
    if (group?.locked) return; }]. *)
Definition inLockedGroup (state : SceneState.t) (groupId : option string)
  : bool :=
  if JS.truthyStr groupId then
    match JS.find (groupHasId (str groupId)) (SceneState.groups state) with
    | Some group => Group.locked group
    | None => false
    end
  else false.

(** [isObjectLocked(objectId)] *)
Definition isObjectLocked (state : SceneState.t) (objectId : string) : bool :=
  match JS.find (hasId objectId) (SceneState.objects state) with
  | None => false
  | Some obj =>
      if SceneObject.locked obj then true
      else inLockedGroup state (SceneObject.groupId obj)
  end.

(** [a === b] between an object reference and the selection. *)
Definition sameObject (r : nat) (selected : option nat) : bool :=
  match selected with
  | Some r' => Nat.eqb r r'
  | None => false
  end.

(** [positions.getX(i)], [getY], [getZ] passed to [new THREE.Vector3]: a
    read outside the array is [undefined], which the constructor replaces
    by 0. *)
Definition vertexAt (positions : list float) (i : nat) : Vector3.t :=
  Vector3.mk (default 0%float (positions !! (3 * i)))
    (default 0%float (positions !! (3 * i + 1)))
    (default 0%float (positions !! (3 * i + 2))).

(** [positions.setXYZ(i, x, y, z)]: a write outside a typed array is
    ignored. *)
Definition setXYZ (positions : list float) (i : nat) (p : Vector3.t)
  : list float :=
  <[3 * i + 2 := Vector3.z p]>
    (<[3 * i + 1 := Vector3.y p]> (<[3 * i := Vector3.x p]> positions)).

(** [a.distanceTo(b)] *)
Definition distanceTo (a b : Vector3.t) : float :=
  let dx := (Vector3.x a - Vector3.x b)%float in
  let dy := (Vector3.y a - Vector3.y b)%float in
  let dz := (Vector3.z a - Vector3.z b)%float in
  PrimFloat.sqrt (dx * dx + dy * dy + dz * dz)%float.

(** The indices [for (let i = 0; i < positions.count; i++)] visits, where
    [count] is the length of the array divided by 3. *)
Definition vertexIndices (positions : list float) : list nat :=
  seq 0 ((length positions + 2) / 3).

(** The weld group of [startVertexDrag]: the indices whose vertex is closer
    than 0.0001 to the picked one. *)
Definition overlapping (positions : list float) (index : nat) : list nat :=
  let selectedPos := vertexAt positions index in
  List.filter
    (fun i =>
       PrimFloat.ltb (distanceTo (vertexAt positions i) selectedPos)
         0.0001%float)
    (vertexIndices positions).

(** [geometry.attributes.position] *)
Definition positionsOf (g : Geometry) : option (list float) :=
  position (attributes g).

(** [geometry.attributes.position] replaced in a mesh. *)
Definition withPositions (positions : list float) (g : Geometry) : Geometry :=
  let a := attributes g in
  mkGeometry (gclass g) (parameters g)
    (mkAttributes (Some positions) (normal a) (uv a) (index a)).

Definition withGeometry (g : Geometry) (o : Object3D.t) : Object3D.t :=
  match Object3D.body o with
  | MeshBody _ m =>
      Object3D.mk (MeshBody g m) (Object3D.position o) (Object3D.rotation o)
        (Object3D.scale o) (Object3D.visible o)
  | OtherBody _ => o
  end.

Fixpoint repeatM (n : nat) (m : M unit) : M unit :=
  match n with
  | O => ret tt
  | S n' => let* _ := m in repeatM n' m
  end.

Section Actions.
Context {L : ThreeLib} {H : Host}.

Definition markUnsavedChanges : M unit :=
  set (SceneState.setHasUnsavedChanges true).

(** [cloneObject(obj)]: a mesh is rebuilt from clones of its geometry and
    material, with the position, rotation and scale copied; another object
    is cloned whole. *)
Definition cloneObject (r : nat) : M nat :=
  let* obj := deref r in
  alloc
    (match Object3D.body obj with
     | MeshBody g m =>
         Object3D.mk (MeshBody g m) (Object3D.position obj)
           (Object3D.rotation obj) (Object3D.scale obj) true
     | OtherBody _ => obj
     end).

(** [{ ...obj, object: cloneObject(obj.object) }] *)
Definition cloneEntry (obj : SceneObject.t) : M SceneObject.t :=
  let* clone := cloneObject (SceneObject.object obj) in
  ret (SceneObject.withObject clone obj).

(** The snapshot [saveToHistory] takes: the objects with their
    [THREE.Object3D] cloned, the groups and the lights copied through JSON,
    the lights without their handle. *)
Definition snapshot : M HistoryState.t :=
  let* state := get in
  let* objects := mapM cloneEntry (SceneState.objects state) in
  ret (HistoryState.mk objects (SceneState.groups state)
         (List.map (Light.withObject None) (SceneState.lights state))).

Definition saveToHistory : M unit :=
  let* state := get in
  let* currentState := snapshot in
  let newHistory :=
    (JS.slice0 (SceneState.history state)
       (SceneState.historyIndex state + 1)%Z
       ++ [currentState])%list in
  let newHistory :=
    if (50 <? length newHistory)%nat then JS.shift newHistory
    else newHistory in
  let* _ :=
    set (fun s =>
           SceneState.setHistory newHistory
             (SceneState.setHistoryIndex (Z.of_nat (length newHistory) - 1)%Z
                (SceneState.setCanUndo true
                   (SceneState.setCanRedo false s)))) in
  markUnsavedChanges.

(** One turn of the event loop: the pending [setTimeout] callbacks run. *)
Definition runTimers : M unit :=
  fun w =>
    repeatM (timers w) saveToHistory
      (mkWorld (store w) (heap w) (nextRef w) (uuidCount w) (log w) 0).

Definition addObject (object : nat) (name : string) : M unit :=
  let* state0 := get in
  let currentProjectId := SceneState.currentProjectId state0 in
  let currentUserId := SceneState.currentUserId state0 in
  let* id := randomUUID in
  let newObject := SceneObject.mk id object name true false None None in
  let* _ :=
    set (fun state =>
           SceneState.setObjects (SceneState.objects state ++ [newObject])%list
             state) in
  let* _ :=
    if allTruthy [currentProjectId; currentUserId] then
      let* o := deref object in
      let firestoreData :=
        withVisibleLocked true false
          (objectToFirestore o name None currentUserId currentProjectId) in
      let* saved :=
        await (saveObject firestoreData (str currentUserId)
                 (str currentProjectId)) in
      match saved with
      | resolved firestoreId =>
          set (fun state =>
                 SceneState.setObjects
                   (List.map
                      (fun obj =>
                         if hasId (SceneObject.id newObject) obj
                         then SceneObject.withFirestoreId (Some firestoreId) obj
                         else obj)
                      (SceneState.objects state))
                   state)
      | rejected => ret tt
      end
    else ret tt in
  deferSaveToHistory.

Definition removeObject (id : string) : M unit :=
  let* state := get in
  match JS.find (hasId id) (SceneState.objects state) with
  | None => ret tt
  | Some objectToRemove =>
      if SceneObject.locked objectToRemove then ret tt
      else if inLockedGroup state (SceneObject.groupId objectToRemove)
      then ret tt
      else
        let* _ :=
          if allTruthy [SceneObject.firestoreId objectToRemove;
                        SceneState.currentProjectId state]
          then
            let* _ :=
              await (deleteObject (str (SceneObject.firestoreId objectToRemove))
                       (str (SceneState.currentProjectId state))) in
            ret tt
          else ret tt in
        let updatedGroups :=
          List.map
            (fun group =>
               Group.withObjectIds
                 (List.filter (fun objId => negb (String.eqb objId id))
                    (Group.objectIds group))
                 group)
            (SceneState.groups state) in
        let* _ :=
          set (fun s =>
                 SceneState.setObjects
                   (List.filter (fun obj => negb (hasId id obj))
                      (SceneState.objects state))
                   (SceneState.setGroups updatedGroups
                      (SceneState.setSelectedObject
                         (if sameObject (SceneObject.object objectToRemove)
                               (SceneState.selectedObject state)
                          then None
                          else SceneState.selectedObject state)
                         s))) in
        deferSaveToHistory
  end.

Definition toggleVisibility (id : string) : M unit :=
  let* state := get in
  match JS.find (hasId id) (SceneState.objects state) with
  | None => ret tt
  | Some objectToToggle =>
      if SceneObject.locked objectToToggle then ret tt
      else if inLockedGroup state (SceneObject.groupId objectToToggle)
      then ret tt
      else
        let newVisibility := negb (SceneObject.visible objectToToggle) in
        let* _ :=
          if allTruthy [SceneObject.firestoreId objectToToggle;
                        SceneState.currentProjectId state;
                        SceneState.currentUserId state]
          then
            let* _ :=
              await (updateObject
                       (str (SceneObject.firestoreId objectToToggle))
                       (PatchVisible newVisibility)
                       (str (SceneState.currentUserId state))
                       (str (SceneState.currentProjectId state))) in
            ret tt
          else ret tt in
        let updatedObjects :=
          List.map
            (fun obj =>
               if hasId id obj then SceneObject.withVisible newVisibility obj
               else obj)
            (SceneState.objects state) in
        let newSelectedObject :=
          match JS.find (hasId id) updatedObjects with
          | Some toggledObject =>
              if negb (SceneObject.visible toggledObject)
                 && sameObject (SceneObject.object toggledObject)
                      (SceneState.selectedObject state)
              then None
              else SceneState.selectedObject state
          | None => SceneState.selectedObject state
          end in
        let* _ :=
          set (fun s =>
                 SceneState.setObjects updatedObjects
                   (SceneState.setSelectedObject newSelectedObject s)) in
        markUnsavedChanges
  end.

Definition toggleLock (id : string) : M unit :=
  let* state := get in
  match JS.find (hasId id) (SceneState.objects state) with
  | None => ret tt
  | Some objectToToggle =>
      if inLockedGroup state (SceneObject.groupId objectToToggle)
      then ret tt
      else
        let newLockState := negb (SceneObject.locked objectToToggle) in
        let* _ :=
          if allTruthy [SceneObject.firestoreId objectToToggle;
                        SceneState.currentProjectId state;
                        SceneState.currentUserId state]
          then
            let* _ :=
              await (updateObject
                       (str (SceneObject.firestoreId objectToToggle))
                       (PatchLocked newLockState)
                       (str (SceneState.currentUserId state))
                       (str (SceneState.currentProjectId state))) in
            ret tt
          else ret tt in
        let updatedObjects :=
          List.map
            (fun obj =>
               if hasId id obj then SceneObject.withLocked newLockState obj
               else obj)
            (SceneState.objects state) in
        let newSelectedObject :=
          match JS.find (hasId id) updatedObjects with
          | Some toggledObject =>
              if SceneObject.locked toggledObject
                 && sameObject (SceneObject.object toggledObject)
                      (SceneState.selectedObject state)
              then None
              else SceneState.selectedObject state
          | None => SceneState.selectedObject state
          end in
        let* _ :=
          set (fun s =>
                 SceneState.setObjects updatedObjects
                   (SceneState.setSelectedObject newSelectedObject s)) in
        markUnsavedChanges
  end.

Definition updateObjectName (id : string) (name : string) : M unit :=
  let* state := get in
  match JS.find (hasId id) (SceneState.objects state) with
  | None => ret tt
  | Some objectToUpdate =>
      if SceneObject.locked objectToUpdate then ret tt
      else if inLockedGroup state (SceneObject.groupId objectToUpdate)
      then ret tt
      else
        let* _ :=
          if allTruthy [SceneObject.firestoreId objectToUpdate;
                        SceneState.currentProjectId state;
                        SceneState.currentUserId state]
          then
            let* _ :=
              await (updateObject
                       (str (SceneObject.firestoreId objectToUpdate))
                       (PatchName name)
                       (str (SceneState.currentUserId state))
                       (str (SceneState.currentProjectId state))) in
            ret tt
          else ret tt in
        let* _ :=
          set (SceneState.setObjects
                 (List.map
                    (fun obj =>
                       if hasId id obj then SceneObject.withName name obj
                       else obj)
                    (SceneState.objects state))) in
        markUnsavedChanges
  end.

Definition addObjectToGroup (objectId : string) (groupId : string) : M unit :=
  let* state := get in
  let objectToMove := JS.find (hasId objectId) (SceneState.objects state) in
  let targetGroup := JS.find (groupHasId groupId) (SceneState.groups state) in
  if match objectToMove with
     | Some obj => SceneObject.locked obj
     | None => false
     end
     || match targetGroup with
        | Some group => Group.locked group
        | None => false
        end
  then ret tt
  else
    let updatedObjects :=
      List.map
        (fun obj =>
           if hasId objectId obj
           then SceneObject.withGroupId (Some groupId) obj
           else obj)
        (SceneState.objects state) in
    let updatedGroups :=
      List.map
        (fun group =>
           if groupHasId groupId group
           then Group.withObjectIds (Group.objectIds group ++ [objectId])%list
                  group
           else group)
        (SceneState.groups state) in
    let* _ :=
      set (fun s =>
             SceneState.setObjects updatedObjects
               (SceneState.setGroups updatedGroups s)) in
    let* _ :=
      match objectToMove with
      | Some obj =>
          if allTruthy [SceneObject.firestoreId obj;
                        SceneState.currentProjectId state;
                        SceneState.currentUserId state]
          then
            let* _ :=
              await (updateObject (str (SceneObject.firestoreId obj))
                       (PatchGroupId (Some groupId))
                       (str (SceneState.currentUserId state))
                       (str (SceneState.currentProjectId state))) in
            ret tt
          else ret tt
      | None => ret tt
      end in
    let* _ :=
      match targetGroup with
      | Some group =>
          if allTruthy [Group.firestoreId group;
                        SceneState.currentProjectId state;
                        SceneState.currentUserId state]
          then
            let* _ :=
              await (updateGroup (str (Group.firestoreId group))
                       (Group.objectIds group ++ [objectId])%list
                       (str (SceneState.currentUserId state))
                       (str (SceneState.currentProjectId state))) in
            ret tt
          else ret tt
      | None => ret tt
      end in
    markUnsavedChanges.

Definition removeObjectFromGroup (objectId : string) : M unit :=
  let* state := get in
  match JS.find (hasId objectId) (SceneState.objects state) with
  | None => ret tt
  | Some obj =>
      if negb (JS.truthyStr (SceneObject.groupId obj)) then ret tt
      else
        let gid := str (SceneObject.groupId obj) in
        let group := JS.find (groupHasId gid) (SceneState.groups state) in
        if SceneObject.locked obj
           || match group with
              | Some g => Group.locked g
              | None => false
              end
        then ret tt
        else
          let updatedObjects :=
            List.map
              (fun o =>
                 if hasId objectId o then SceneObject.withGroupId None o
                 else o)
              (SceneState.objects state) in
          let updatedGroups :=
            List.map
              (fun group =>
                 if groupHasId gid group
                 then
                   Group.withObjectIds
                     (List.filter (fun id => negb (String.eqb id objectId))
                        (Group.objectIds group))
                     group
                 else group)
              (SceneState.groups state) in
          let* _ :=
            set (fun s =>
                   SceneState.setObjects updatedObjects
                     (SceneState.setGroups updatedGroups s)) in
          let* _ :=
            if allTruthy [SceneObject.firestoreId obj;
                          SceneState.currentProjectId state;
                          SceneState.currentUserId state]
            then
              let* _ :=
                await (updateObject (str (SceneObject.firestoreId obj))
                         (PatchGroupId None)
                         (str (SceneState.currentUserId state))
                         (str (SceneState.currentProjectId state))) in
              ret tt
            else ret tt in
          let* _ :=
            match group with
            | Some g =>
                if allTruthy [Group.firestoreId g;
                              SceneState.currentProjectId state;
                              SceneState.currentUserId state]
                then
                  let* _ :=
                    await (updateGroup (str (Group.firestoreId g))
                             (List.filter
                                (fun id => negb (String.eqb id objectId))
                                (Group.objectIds g))
                             (str (SceneState.currentUserId state))
                             (str (SceneState.currentProjectId state))) in
                  ret tt
                else ret tt
            | None => ret tt
            end in
          markUnsavedChanges
  end.

Definition moveObjectsToGroup (objectIds : list string)
    (groupId : option string) : M unit :=
  let* state := get in
  let lockedObjects :=
    List.filter
      (fun id =>
         match JS.find (hasId id) (SceneState.objects state) with
         | Some obj =>
             SceneObject.locked obj
             || inLockedGroup state (SceneObject.groupId obj)
         | None => false
         end)
      objectIds in
  if (0 <? length lockedObjects)%nat then ret tt
  else if inLockedGroup state groupId then ret tt
  else
    let updatedGroups :=
      List.map
        (fun group =>
           Group.withObjectIds
             (List.filter (fun id => negb (JS.includes id objectIds))
                (Group.objectIds group))
             group)
        (SceneState.groups state) in
    let finalGroups :=
      if JS.truthyStr groupId then
        List.map
          (fun group =>
             if groupHasId (str groupId) group
             then Group.withObjectIds (Group.objectIds group ++ objectIds)%list
                    group
             else group)
          updatedGroups
      else updatedGroups in
    let updatedObjects :=
      List.map
        (fun obj =>
           if JS.includes (SceneObject.id obj) objectIds
           then SceneObject.withGroupId groupId obj
           else obj)
        (SceneState.objects state) in
    let* _ :=
      set (fun s =>
             SceneState.setGroups finalGroups
               (SceneState.setObjects updatedObjects s)) in
    let* _ :=
      if allTruthy [SceneState.currentProjectId state;
                    SceneState.currentUserId state]
      then
        forEachM
          (fun objectId =>
             match JS.find (hasId objectId) (SceneState.objects state) with
             | Some obj =>
                 if JS.truthyStr (SceneObject.firestoreId obj) then
                   let* _ :=
                     await (updateObject (str (SceneObject.firestoreId obj))
                              (PatchGroupId groupId)
                              (str (SceneState.currentUserId state))
                              (str (SceneState.currentProjectId state))) in
                   ret tt
                 else ret tt
             | None => ret tt
             end)
          objectIds
      else ret tt in
    markUnsavedChanges.

(** [{ ...light, object: createLight(light.type, light.position,
    light.target) }] *)
Definition relight (light : Light.t) : Light.t :=
  Light.withObject
    (Some (createLight (Light.type light) (Light.position light)
             (Light.target light)))
    light.

(** The state [undo] and [redo] return for the snapshot [h] and the new
    index [i]. *)
Definition restore (h : HistoryState.t) (i : Z) (canUndo canRedo : bool)
    (state : SceneState.t) : SceneState.t :=
  SceneState.setObjects (HistoryState.objects h)
    (SceneState.setGroups (HistoryState.groups h)
       (SceneState.setLights (List.map relight (HistoryState.lights h))
          (SceneState.setHistoryIndex i
             (SceneState.setCanUndo canUndo
                (SceneState.setCanRedo canRedo
                   (SceneState.setSelectedObject None
                      (SceneState.setSelectedLight None state))))))).

Definition undo : M unit :=
  let* state := get in
  if (SceneState.historyIndex state <=? 0)%Z then ret tt
  else
    match JS.at_ (SceneState.history state)
            (SceneState.historyIndex state - 1)%Z with
    | None => throw
    | Some previousState =>
        set (restore previousState (SceneState.historyIndex state - 1)%Z
               (0 <? SceneState.historyIndex state - 1)%Z true)
    end.

Definition redo : M unit :=
  let* state := get in
  if (Z.of_nat (length (SceneState.history state)) - 1
      <=? SceneState.historyIndex state)%Z
  then ret tt
  else
    match JS.at_ (SceneState.history state)
            (SceneState.historyIndex state + 1)%Z with
    | None => throw
    | Some nextState =>
        set (restore nextState (SceneState.historyIndex state + 1)%Z true
               (SceneState.historyIndex state + 1
                <? Z.of_nat (length (SceneState.history state)) - 1)%Z)
    end.

(** The test both drag actions start with: the selection is a mesh, and the
    entry that holds it is not locked.  The result is the reference of the
    mesh and its geometry. *)
Definition selectedMesh : M (option (nat * Geometry)) :=
  let* state := get in
  match SceneState.selectedObject state with
  | None => ret None
  | Some r =>
      let* o := deref r in
      match Object3D.body o with
      | OtherBody _ => ret None
      | MeshBody geometry _ =>
          let selectedObj :=
            JS.find (fun obj => Nat.eqb (SceneObject.object obj) r)
              (SceneState.objects state) in
          if isObjectLocked state
               (JS.orStr (option_map SceneObject.id selectedObj) "")
          then ret None
          else ret (Some (r, geometry))
      end
  end.

Definition startVertexDrag (index : nat) (position : Vector3.t) : M unit :=
  let* selected := selectedMesh in
  match selected with
  | None => ret tt
  | Some (_, geometry) =>
      match positionsOf geometry with
      | None => throw
      | Some positions =>
          let overlappingIndices := overlapping positions index in
          set (fun state =>
                 SceneState.setDraggedVertex
                   (Some (DraggedVertex.mk overlappingIndices position
                            position))
                   (SceneState.setSelectedElements
                      (SelectedElements.mk overlappingIndices
                         (SelectedElements.edges
                            (SceneState.selectedElements state))
                         (SelectedElements.faces
                            (SceneState.selectedElements state)))
                      state))
      end
  end.

Definition updateVertexDrag (position : Vector3.t) : M unit :=
  let* state := get in
  match SceneState.draggedVertex state with
  | None => ret tt
  | Some draggedVertex =>
      let* selected := selectedMesh in
      match selected with
      | None => ret tt
      | Some (r, geometry) =>
          match positionsOf geometry with
          | None => throw
          | Some positions =>
              let moved :=
                fold_left (fun arr index => setXYZ arr index position)
                  (DraggedVertex.indices draggedVertex) positions in
              let* _ :=
                mutate r
                  (withGeometry
                     (computeVertexNormals (withPositions moved geometry))) in
              set (SceneState.setDraggedVertex
                     (Some (DraggedVertex.mk
                              (DraggedVertex.indices draggedVertex)
                              position
                              (DraggedVertex.initialPosition draggedVertex))))
          end
      end
  end.

End Actions.

(* ===================================================================== *)
(** ** Vocabulary of the properties *)
(* ===================================================================== *)

(** The world an action leaves, and how it ended. *)
Definition after {A} (m : M A) (w : World) : World := snd (m w).
Definition outcome {A} (m : M A) (w : World) : Res A := fst (m w).

(** The stack [saveToHistory] stores when it commits the snapshot [s]. *)
Definition pushed (s : HistoryState.t) (state : SceneState.t)
  : list HistoryState.t :=
  let newHistory :=
    (JS.slice0 (SceneState.history state) (SceneState.historyIndex state + 1)%Z
     ++ [s])%list in
  if (50 <? length newHistory)%nat then JS.shift newHistory else newHistory.

(** The state [saveToHistory] leaves when it commits the snapshot [s]. *)
Definition committed (s : HistoryState.t) (state : SceneState.t)
  : SceneState.t :=
  SceneState.setHasUnsavedChanges true
    (SceneState.setHistory (pushed s state)
       (SceneState.setHistoryIndex (Z.of_nat (length (pushed s state)) - 1)%Z
          (SceneState.setCanUndo true (SceneState.setCanRedo false state)))).

Section Edits.
Context {L : ThreeLib} {H : Host}.

(** The action leaves the history stack and its pointer alone. *)
Definition keepsHistory {A} (m : M A) : Prop :=
  forall w,
    SceneState.history (store (after m w)) = SceneState.history (store w)
    /\ SceneState.historyIndex (store (after m w))
       = SceneState.historyIndex (store w).

(** An edit: an action that completes and leaves the history alone. *)
Definition isEdit (e : M unit) : Prop :=
  (forall w, outcome e w = Ok tt) /\ keepsHistory e.

(** A committed edit: the edit, then the commit. *)
Definition commit (e : M unit) : M unit :=
  let* _ := e in saveToHistory.

(** The edits of a list, each one committed, in order. *)
Definition commitAll (edits : list (M unit)) : M unit :=
  forEachM commit edits.

(** [n] calls of [undo]. *)
Definition undoTimes (n : nat) : M unit := repeatM n undo.

(** One action of the store, or one turn of the event loop. *)
Inductive Step : World -> World -> Prop :=
| step_addObject object name w :
    Step w (after (addObject object name) w)
| step_removeObject id w :
    Step w (after (removeObject id) w)
| step_toggleVisibility id w :
    Step w (after (toggleVisibility id) w)
| step_toggleLock id w :
    Step w (after (toggleLock id) w)
| step_updateObjectName id name w :
    Step w (after (updateObjectName id name) w)
| step_addObjectToGroup objectId groupId w :
    Step w (after (addObjectToGroup objectId groupId) w)
| step_removeObjectFromGroup objectId w :
    Step w (after (removeObjectFromGroup objectId) w)
| step_moveObjectsToGroup objectIds groupId w :
    Step w (after (moveObjectsToGroup objectIds groupId) w)
| step_startVertexDrag index position w :
    Step w (after (startVertexDrag index position) w)
| step_updateVertexDrag position w :
    Step w (after (updateVertexDrag position) w)
| step_saveToHistory w :
    Step w (after saveToHistory w)
| step_runTimers w :
    Step w (after runTimers w)
| step_undo w :
    Step w (after undo w)
| step_redo w :
    Step w (after redo w).

(** The worlds the store can be in, from one whose history is empty. *)
Inductive Reachable : World -> Prop :=
| reach_start w :
    SceneState.history (store w) = [] ->
    SceneState.historyIndex (store w) = (-1)%Z ->
    Reachable w
| reach_step w w' :
    Reachable w -> Step w w' -> Reachable w'.

End Edits.

(** The pointer is on the last snapshot of a stack of at most 50. *)
Definition topped (state : SceneState.t) : Prop :=
  SceneState.historyIndex state
  = (Z.of_nat (length (SceneState.history state)) - 1)%Z
  /\ length (SceneState.history state) <= 50.

(* ===================================================================== *)
(** ** Concrete hosts and worlds, for running the model *)
(* ===================================================================== *)

(** [n] strokes: a different string for every number. *)
Fixpoint tally (n : nat) : string :=
  match n with
  | O => ""
  | S n' => String (Ascii.Ascii true false false true false true true false)
              (tally n')
  end.

(** A gateway on which every call resolves. *)
Definition referenceHost : Host := {|
  gatewayReply := fun n _ => resolved ("doc-" +:+ tally n);
  uuid := fun n => "uuid-" +:+ tally n
|}.

(** A gateway on which every call rejects. *)
Definition failingHost : Host := {|
  gatewayReply := fun _ _ => rejected;
  uuid := fun n => "uuid-" +:+ tally n
|}.

(** A unit box, as the placement workflow builds it. *)
Definition unitBox : Object3D.t :=
  Object3D.mk
    (MeshBody
       (newBoxGeometry (L := referenceThree)
          (Some 1%float) (Some 1%float) (Some 1%float))
       (MeshStandardMaterial
          (StandardMaterial.mk "44aa88" 1 false 0 1)))
    origin origin unitScale true.

(** The store with the given entities, in the project ["project-1"] of the
    user ["teacher"]. *)
Definition sceneOf (objects : list SceneObject.t) (groups : list Group.t)
    (lights : list Light.t) : SceneState.t :=
  SceneState.mk objects groups lights None None
    (SelectedElements.mk [] [] []) None [] (-1)%Z false false false
    (Some "project-1") (Some "teacher").

(** An empty scene in a project, with one unit box built and not yet
    added. *)
Definition emptyScene : World :=
  mkWorld (sceneOf [] [] []) {[ 0 := unitBox ]} 1 0 [] 0.

(** A scene that holds the unit box, as the object ["box"]. *)
Definition boxScene : World :=
  mkWorld
    (sceneOf [SceneObject.mk "box" 0 "Box" true false None (Some "doc-box")]
       [] [])
    {[ 0 := unitBox ]} 1 0 [] 0.

(** The object [obj] is a member, by its [groupId], of a group of the store
    that is locked.  Identifiers are UUIDs or document ids: never empty. *)
Definition memberOfLockedGroup (state : SceneState.t) (obj : SceneObject.t)
  : Prop :=
  exists gid group,
    SceneObject.groupId obj = Some gid
    /\ gid <> ""
    /\ JS.find (groupHasId gid) (SceneState.groups state) = Some group
    /\ Group.locked group = true.

(** A scene with the group ["walls"], locked, and its member ["door"],
    itself locked. *)
Definition lockedScene : World :=
  mkWorld
    (sceneOf
       [SceneObject.mk "door" 0 "Door" true true (Some "walls")
          (Some "doc-door")]
       [Group.mk "walls" "Walls" true true true ["door"] (Some "doc-walls")]
       [])
    {[ 0 := unitBox ]} 1 0 [] 0.

(** A scene with one locked object that is in no group. *)
Definition lockedBoxScene : World :=
  mkWorld
    (sceneOf [SceneObject.mk "box" 0 "Box" true true None (Some "doc-box")]
       [] [])
    {[ 0 := unitBox ]} 1 0 [] 0.

(** Group membership is bidirectional: an object names a group in
    [groupId] exactly when the group lists the object in [objectIds]. *)
Definition bidirectional (state : SceneState.t) : Prop :=
  forall obj group,
    In obj (SceneState.objects state) ->
    In group (SceneState.groups state) ->
    SceneObject.groupId obj = Some (Group.id group)
    <-> In (SceneObject.id obj) (Group.objectIds group).

(** The same, as a test. *)
Definition bidirectionalb (state : SceneState.t) : bool :=
  forallb
    (fun obj =>
       forallb
         (fun group =>
            Bool.eqb
              (bool_decide (SceneObject.groupId obj = Some (Group.id group)))
              (JS.includes (SceneObject.id obj) (Group.objectIds group)))
         (SceneState.groups state))
    (SceneState.objects state).

(** The object ["chair"], a member of the group ["kitchen"], and a second,
    empty group ["hall"]; nothing is locked. *)
Definition twoGroups : World :=
  mkWorld
    (sceneOf
       [SceneObject.mk "chair" 0 "Chair" true false (Some "kitchen")
          (Some "doc-chair")]
       [Group.mk "kitchen" "Kitchen" true true false ["chair"]
          (Some "doc-kitchen");
        Group.mk "hall" "Hall" true true false [] (Some "doc-hall")]
       [])
    {[ 0 := unitBox ]} 1 0 [] 0.

Section Requests.
Context {H : Host}.

(** The entry [addObject] puts in the object list. *)
Definition newEntry (w : World) (object : nat) (name : string)
  : SceneObject.t :=
  SceneObject.mk (uuid (uuidCount w)) object name true false None None.

(** The create request [addObject] sends in a project. *)
Definition createRequest (w : World) (object : nat) (name : string)
  : Request :=
  saveObject
    (withVisibleLocked true false
       (objectToFirestore (default blankObject (heap w !! object)) name None
          (SceneState.currentUserId (store w))
          (SceneState.currentProjectId (store w))))
    (str (SceneState.currentUserId (store w)))
    (str (SceneState.currentProjectId (store w))).

(** The store is in a project: [currentProjectId && currentUserId]. *)
Definition inProject (state : SceneState.t) : bool :=
  allTruthy [SceneState.currentProjectId state; SceneState.currentUserId state].

(** The persisted id the new entry ends with: the one the gateway answers
    the create request with, none outside a project or on a failure. *)
Definition persistedId (w : World) (object : nat) (name : string)
  : option string :=
  if inProject (store w) then
    match gatewayReply (length (log w)) (createRequest w object name) with
    | resolved firestoreId => Some firestoreId
    | rejected => None
    end
  else None.

(** Create an object, then let the event loop run the commit that
    [addObject] scheduled. *)
Definition createAndCommit (object : nat) (name : string) : M unit :=
  let* _ := addObject object name in runTimers.

End Requests.

(** No entry of the store has the identifier that [randomUUID] draws
    next. *)
Definition freshUuid {H : Host} (w : World) : Prop :=
  forall obj,
    In obj (SceneState.objects (store w)) ->
    SceneObject.id obj <> uuid (uuidCount w).

(** A red spot light of intensity 5 that casts no shadow and is hidden, as a
    snapshot keeps it: without its handle. *)
Definition redSpot : Light.t :=
  Light.mk "lamp" "Spot Light 1" spot [2; 2; 2]%float [0; 0; 0]%float
    5 "#ff0000" false false 10 2 0.5 0.25 None (Some "doc-lamp").

(** A world whose history holds two snapshots of the red spot light, the
    pointer on the second. *)
Definition litScene : World :=
  mkWorld
    (SceneState.mk [] [] [redSpot] None None
       (SelectedElements.mk [] [] []) None
       [HistoryState.mk [] [] [redSpot]; HistoryState.mk [] [] [redSpot]]
       1%Z true false false (Some "project-1") (Some "teacher"))
    ∅ 0 0 [] 0.

(** The vertices [i] and [j] of the buffer are closer than 0.0001, by the
    test [startVertexDrag] makes. *)
Definition welded (positions : list float) (i j : nat) : bool :=
  PrimFloat.ltb (distanceTo (vertexAt positions i) (vertexAt positions j))
    0.0001%float.

(** The selection is the mesh [r], of geometry [geometry], and the entry of
    the store that holds it is not locked. *)
Definition editable (w : World) (r : nat) (geometry : Geometry) : Prop :=
  SceneState.selectedObject (store w) = Some r
  /\ (exists material p q s v,
        heap w !! r = Some (Object3D.mk (MeshBody geometry material) p q s v))
  /\ isObjectLocked (store w)
       (JS.orStr
          (option_map SceneObject.id
             (JS.find (fun obj => Nat.eqb (SceneObject.object obj) r)
                (SceneState.objects (store w))))
          "") = false.

(** The position buffer of the mesh [r] of the heap. *)
Definition positionsIn (w : World) (r : nat) : option (list float) :=
  match heap w !! r with
  | Some o =>
      match Object3D.body o with
      | MeshBody g _ => positionsOf g
      | OtherBody _ => None
      end
  | None => None
  end.


Definition meshScene (positions : list float) : World :=
  mkWorld
    (SceneState.mk
       [SceneObject.mk "mesh" 0 "Custom mesh" true false None None] [] []
       None (Some 0) (SelectedElements.mk [] [] []) None [] (-1)%Z
       false false false None None)
    {[ 0 := Object3D.mk
              (MeshBody
                 (mkGeometry BufferGeometry None
                    (mkAttributes (Some positions) None None None))
                 OtherMaterial)
              origin origin unitScale true ]}
    1 0 [] 0.


(** [moveObjectsToGroup] returns at once: one of the objects is locked or in
    a locked group, or the target group is locked. *)
Definition moveRefused (state : SceneState.t) (objectIds : list string)
    (groupId : option string) : bool :=
  (0 <? length
          (List.filter
             (fun id =>
                match JS.find (hasId id) (SceneState.objects state) with
                | Some obj =>
                    SceneObject.locked obj
                    || inLockedGroup state (SceneObject.groupId obj)
                | None => false
                end)
             objectIds))%nat
  || inLockedGroup state groupId.

(** The groups [moveObjectsToGroup] stores. *)
Definition movedGroups (state : SceneState.t) (objectIds : list string)
    (groupId : option string) : list Group.t :=
  let updatedGroups :=
    List.map
      (fun group =>
         Group.withObjectIds
           (List.filter (fun id => negb (JS.includes id objectIds))
              (Group.objectIds group))
           group)
      (SceneState.groups state) in
  if JS.truthyStr groupId then
    List.map
      (fun group =>
         if groupHasId (str groupId) group
         then Group.withObjectIds (Group.objectIds group ++ objectIds)%list
                group
         else group)
      updatedGroups
  else updatedGroups.

(** The objects [moveObjectsToGroup] stores. *)
Definition movedObjects (state : SceneState.t) (objectIds : list string)
    (groupId : option string) : list SceneObject.t :=
  List.map
    (fun obj =>
       if JS.includes (SceneObject.id obj) objectIds
       then SceneObject.withGroupId groupId obj
       else obj)
    (SceneState.objects state).

(** The store [moveObjectsToGroup] leaves. *)
Definition movedStore (state : SceneState.t) (objectIds : list string)
    (groupId : option string) : SceneState.t :=
  if moveRefused state objectIds groupId then state
  else
    SceneState.setHasUnsavedChanges true
      (SceneState.setGroups (movedGroups state objectIds groupId)
         (SceneState.setObjects (movedObjects state objectIds groupId) state)).

(** The requests of the batch: one update for each object of the list that
    has a persisted id. *)
Definition batchRequests (state : SceneState.t) (objectIds : list string)
    (groupId : option string) : list Request :=
  flat_map
    (fun objectId =>
       match JS.find (hasId objectId) (SceneState.objects state) with
       | Some obj =>
           if JS.truthyStr (SceneObject.firestoreId obj)
           then [updateObject (str (SceneObject.firestoreId obj))
                   (PatchGroupId groupId)
                   (str (SceneState.currentUserId state))
                   (str (SceneState.currentProjectId state))]
           else []
       | None => []
       end)
    objectIds.

(** The requests [moveObjectsToGroup] sends. *)
Definition moveRequests (state : SceneState.t) (objectIds : list string)
    (groupId : option string) : list Request :=
  if moveRefused state objectIds groupId then []
  else if allTruthy [SceneState.currentProjectId state;
                     SceneState.currentUserId state]
  then batchRequests state objectIds groupId
  else [].

(** The gateway calls made between the worlds [w] and [w']. *)
Definition newCalls (w w' : World) : list GatewayEvent :=
  skipn (length (log w)) (log w').

(** Every gateway call of the action is made with the store still as the
    action found it: the local change, if any, comes after the
    write-back. *)
Definition writesBackFirst (m : M unit) : Prop :=
  forall w,
    Forall (fun call => storeAtCall call = store w)
      (newCalls w (after m w)).

(** Every gateway call of the action is made with the store already as the
    action leaves it (the flag [hasUnsavedChanges], set last, apart): the
    local change comes before the write-back. *)
Definition changesLocalFirst (m : M unit) : Prop :=
  forall w,
    Forall
      (fun call =>
         SceneState.setHasUnsavedChanges true (storeAtCall call)
         = store (after m w))
      (newCalls w (after m w)).

(** The store the action leaves is the same on every gateway: whether the
    calls resolve or reject changes nothing in it. *)
Definition unaffectedByReplies (m : Host -> M unit) : Prop :=
  forall (H1 H2 : Host) (w : World),
    store (after (m H1) w) = store (after (m H2) w).

(* ===================================================================== *)
(** ** Whole meshes through the codec *)
(* ===================================================================== *)

(** A mesh with the geometry [g] and the material [m]. *)
Definition meshOf (g : Geometry) (m : Material) (p r s : Vector3.t)
    (v : bool) : Object3D.t :=
  Object3D.mk (MeshBody g m) p r s v.

(** The material of a mesh, [None] for another kind of object. *)
Definition materialOf (o : Object3D.t) : option Material :=
  match Object3D.body o with
  | MeshBody _ m => Some m
  | OtherBody _ => None
  end.

Section Reload.
Context {L : ThreeLib}.

(** The object that comes back when [o], named [name], is written to a
    record and the record is loaded. *)
Definition reload (o : Object3D.t) (name : string)
    (id userId projectId : option string) : option Object3D.t :=
  firestoreToObject (objectToFirestore o name id userId projectId).

(** The material [firestoreToObject] gives a mesh whose record carries the
    default colour and opacity and no [materialParams]. *)
Definition defaultMaterial : StandardMaterial.t :=
  StandardMaterial.mk (hexOfStyle "#44aa88") 1 false defaultMetalness
    defaultRoughness.

(** The five arguments [firestoreToObject] rebuilds a torus with, from the
    [parameters] of the torus that was written. *)
Definition torusArguments (gp : Params) : float * float * float * float * float :=
  (JS.orNum (radius gp) 1%float,
   JS.orNum (tube gp) 0.4%float,
   JS.orNum (radialSegments gp) 8%float,
   JS.orNum (tubularSegments gp) 16%float,
   JS.orNum (arc gp) (3.141592653589793 * 2)%float).

(** The geometry a mesh comes back with, case by case: what
    [geometryOfRecord] builds from what [geometryToFirestore] wrote. *)
Definition reloadedGeometry (g : Geometry) (name : string) : Geometry :=
  let gp := JS.nullish (parameters g) noParams in
  if isCustomGeometry g name then
    if instanceOf (gclass g) TorusGeometry then
      let '(a, b, c, d, e) := torusArguments gp in
      newTorusGeometry a b c d e
    else deserializeGeometry (customRecord g)
  else
    match gclass g with
    | BoxGeometry =>
        newBoxGeometry (Some (JS.nullish (width gp) 1%float))
          (Some (JS.nullish (height gp) 1%float))
          (Some (JS.nullish (depth gp) 1%float))
    | SphereGeometry =>
        newSphereGeometry (Some (JS.nullish (radius gp) 0.5%float))
          (Some (JS.nullish (widthSegments gp) 32%float))
          (Some (JS.nullish (heightSegments gp) 16%float))
    | CylinderGeometry | ConeGeometry =>
        newCylinderGeometry (Some (JS.nullish (radiusTop gp) 0.5%float))
          (Some (JS.nullish (radiusBottom gp) 0.5%float))
          (Some (JS.nullish (height gp) 1%float))
          (Some (JS.nullish (radialSegments gp) 32%float))
    | _ => deserializeGeometry (customRecord g)
    end.

End Reload.


(* ===================================================================== *)
(** ** sceneStore.ts: duplicating, selecting, folding groups *)
(* ===================================================================== *)

(** [{ ...group, expanded: e }] *)
Definition withExpanded (e : bool) (g : Group.t) : Group.t :=
  Group.mk (Group.id g) (Group.name g) e (Group.visible g) (Group.locked g)
    (Group.objectIds g) (Group.firestoreId g).

(** [firestoreData.groupId = groupId] *)
Definition withRecordGroupId (groupId : option string) (d : FirestoreObject.t)
  : FirestoreObject.t :=
  FirestoreObject.mk (FirestoreObject.id d) (FirestoreObject.userId d)
    (FirestoreObject.projectId d) (FirestoreObject.name d)
    (FirestoreObject.type d) (FirestoreObject.position d)
    (FirestoreObject.rotation d) (FirestoreObject.scale d)
    (FirestoreObject.color d) (FirestoreObject.opacity d)
    (FirestoreObject.visible d) (FirestoreObject.locked d) groupId
    (FirestoreObject.geometryParams d) (FirestoreObject.materialParams d)
    (FirestoreObject.customGeometry d) (FirestoreObject.createdAt d)
    (FirestoreObject.updatedAt d).

(** [object.position.x += dx] *)
Definition shiftX (dx : float) (o : Object3D.t) : Object3D.t :=
  Object3D.mk (Object3D.body o)
    (Vector3.mk (Vector3.x (Object3D.position o) + dx)%float
       (Vector3.y (Object3D.position o)) (Vector3.z (Object3D.position o)))
    (Object3D.rotation o) (Object3D.scale o) (Object3D.visible o).

(** [obj.object === object] *)
Definition holds (object : nat) (obj : SceneObject.t) : bool :=
  Nat.eqb (SceneObject.object obj) object.

(** [canSelectObject(object)]: an object the store has no entry for can be
    selected; one it has an entry for, when the entry is not locked. *)
Definition canSelectObject (state : SceneState.t) (object : nat) : bool :=
  match JS.find (holds object) (SceneState.objects state) with
  | Some obj => negb (isObjectLocked state (SceneObject.id obj))
  | None => true
  end.

Section MoreActions.
Context {L : ThreeLib} {H : Host}.

Definition duplicateObject : M unit :=
  let* state := get in
  match SceneState.selectedObject state with
  | None => ret tt
  | Some selected =>
      match JS.find (holds selected) (SceneState.objects state) with
      | None => ret tt
      | Some selectedObj =>
          if isObjectLocked state (SceneObject.id selectedObj) then ret tt
          else
            let* clonedObject := cloneObject selected in
            let* _ := mutate clonedObject (shiftX 1) in
            let* id := randomUUID in
            let newObject :=
              SceneObject.mk id clonedObject
                (SceneObject.name selectedObj +:+ " Copy") true false
                (SceneObject.groupId selectedObj) None in
            let* _ :=
              set (fun state =>
                     let updatedGroups :=
                       if JS.truthyStr (SceneObject.groupId selectedObj) then
                         List.map
                           (fun group =>
                              if groupHasId
                                   (str (SceneObject.groupId selectedObj))
                                   group
                              then
                                Group.withObjectIds
                                  (Group.objectIds group
                                   ++ [SceneObject.id newObject])%list
                                  group
                              else group)
                           (SceneState.groups state)
                       else SceneState.groups state in
                     SceneState.setObjects
                       (SceneState.objects state ++ [newObject])%list
                       (SceneState.setGroups updatedGroups
                          (SceneState.setSelectedObject (Some clonedObject)
                             state))) in
            let* _ :=
              if allTruthy [SceneState.currentProjectId state;
                            SceneState.currentUserId state]
              then
                let* o := deref clonedObject in
                let firestoreData :=
                  withVisibleLocked true false
                    (objectToFirestore o (SceneObject.name newObject) None
                       (SceneState.currentUserId state)
                       (SceneState.currentProjectId state)) in
                let firestoreData :=
                  if JS.truthyStr (SceneObject.groupId newObject)
                  then withRecordGroupId (SceneObject.groupId newObject)
                         firestoreData
                  else firestoreData in
                let* saved :=
                  await (saveObject firestoreData
                           (str (SceneState.currentUserId state))
                           (str (SceneState.currentProjectId state))) in
                match saved with
                | resolved firestoreId =>
                    set (fun state =>
                           SceneState.setObjects
                             (List.map
                                (fun obj =>
                                   if hasId (SceneObject.id newObject) obj
                                   then SceneObject.withFirestoreId
                                          (Some firestoreId) obj
                                   else obj)
                                (SceneState.objects state))
                             state)
                | rejected => ret tt
                end
              else ret tt in
            saveToHistory
      end
  end.

Definition toggleGroupExpanded (groupId : string) : M unit :=
  set (fun state =>
         SceneState.setGroups
           (List.map
              (fun group =>
                 if groupHasId groupId group
                 then withExpanded (negb (Group.expanded group)) group
                 else group)
              (SceneState.groups state))
           state).

End MoreActions.

(** The object [cloneObject] allocates for [o]: a new mesh with the
    geometry, the material, the position, the rotation and the scale of [o]
    (and the flags of a new mesh), or a clone of the whole object. *)
Definition cloneOf (o : Object3D.t) : Object3D.t :=
  match Object3D.body o with
  | MeshBody g m =>
      Object3D.mk (MeshBody g m) (Object3D.position o) (Object3D.rotation o)
        (Object3D.scale o) true
  | OtherBody _ => o
  end.

(** The object a reference designates in a world. *)
Definition objectAt (w : World) (r : nat) : Object3D.t :=
  default blankObject (heap w !! r).


Section Duplicate.
Context {L : ThreeLib} {H : Host}.

(** The object [duplicateObject] makes of the object [r]: its clone, moved
    by one unit along x. *)
Definition copyOf (w : World) (r : nat) : Object3D.t :=
  shiftX 1 (cloneOf (objectAt w r)).

(** The entry [duplicateObject] adds for the selected entry [e]. *)
Definition copyEntry (w : World) (e : SceneObject.t) : SceneObject.t :=
  SceneObject.mk (uuid (uuidCount w)) (nextRef w)
    (SceneObject.name e +:+ " Copy") true false (SceneObject.groupId e) None.

(** The create request [duplicateObject] sends in a project. *)
Definition copyRequest (w : World) (r : nat) (e : SceneObject.t) : Request :=
  let data :=
    withVisibleLocked true false
      (objectToFirestore (copyOf w r) (SceneObject.name e +:+ " Copy") None
         (SceneState.currentUserId (store w))
         (SceneState.currentProjectId (store w))) in
  saveObject
    (if JS.truthyStr (SceneObject.groupId e)
     then withRecordGroupId (SceneObject.groupId e) data
     else data)
    (str (SceneState.currentUserId (store w)))
    (str (SceneState.currentProjectId (store w))).

(** The persisted id the copy ends with. *)
Definition copyPersistedId (w : World) (r : nat) (e : SceneObject.t)
  : option string :=
  if inProject (store w) then
    match gatewayReply (length (log w)) (copyRequest w r e) with
    | resolved firestoreId => Some firestoreId
    | rejected => None
    end
  else None.

(** The groups [duplicateObject] stores: the group of the selected entry
    lists the copy too. *)
Definition copyGroups (w : World) (e : SceneObject.t) : list Group.t :=
  if JS.truthyStr (SceneObject.groupId e) then
    List.map
      (fun group =>
         if groupHasId (str (SceneObject.groupId e)) group
         then Group.withObjectIds
                (Group.objectIds group ++ [uuid (uuidCount w)])%list group
         else group)
      (SceneState.groups (store w))
  else SceneState.groups (store w).

(** The store [duplicateObject] has when it sends its request: the copy is
    in the list, without a persisted id yet, and it is the selection. *)
Definition copyAdded (w : World) (e : SceneObject.t) : SceneState.t :=
  SceneState.setObjects
    (SceneState.objects (store w) ++ [copyEntry w e])%list
    (SceneState.setGroups (copyGroups w e)
       (SceneState.setSelectedObject (Some (nextRef w)) (store w))).

(** The world [duplicateObject] commits to the history: the copy is in the
    heap and in the store, with the persisted id the gateway gave it. *)
Definition duplicated (w : World) (r : nat) (e : SceneObject.t) : World :=
  mkWorld
    (SceneState.setObjects
       (SceneState.objects (store w)
        ++ [SceneObject.withFirestoreId (copyPersistedId w r e)
              (copyEntry w e)])%list
       (copyAdded w e))
    (<[nextRef w := copyOf w r]> (heap w)) (S (nextRef w)) (S (uuidCount w))
    (if inProject (store w)
     then (log w
           ++ [mkGatewayEvent (copyRequest w r e)
                 (gatewayReply (length (log w)) (copyRequest w r e))
                 (copyAdded w e)])%list
     else log w)
    (timers w).

End Duplicate.

(** The selection is the object [r], held by the entry [e] of the store,
    and the entry is not locked. *)
Definition selectedEntry (w : World) (r : nat) (e : SceneObject.t) : Prop :=
  SceneState.selectedObject (store w) = Some r
  /\ JS.find (holds r) (SceneState.objects (store w)) = Some e
  /\ isObjectLocked (store w) (SceneObject.id e) = false.

(** No entry and no group of the store knows the identifier that
    [randomUUID] draws next. *)
Definition unusedUuid {H : Host} (w : World) : Prop :=
  freshUuid w
  /\ forall group,
       In group (SceneState.groups (store w)) ->
       ~ In (uuid (uuidCount w)) (Group.objectIds group).

(** The scene of the group ["kitchen"] and its only member, the object
    ["chair"], which is selected. *)
Definition kitchenScene : World :=
  mkWorld
    (SceneState.setSelectedObject (Some 0)
       (sceneOf
          [SceneObject.mk "chair" 0 "Chair" true false (Some "kitchen")
             (Some "doc-chair")]
          [Group.mk "kitchen" "Kitchen" true true false ["chair"]
             (Some "doc-kitchen")]
          []))
    {[ 0 := unitBox ]} 1 0 [] 0.

(** The scene of the unit box, the box selected. *)
Definition selectedBoxScene : World :=
  setStore (SceneState.setSelectedObject (Some 0) (store boxScene)) boxScene.

(** A scene whose history holds three snapshots, of no, one and two
    objects, with the pointer on the first: two states have been undone. *)
Definition undoneScene : World :=
  let a := SceneObject.mk "a" 0 "A" true false None None in
  let b := SceneObject.mk "b" 1 "B" true false None None in
  mkWorld
    (SceneState.mk [] [] [] None None (SelectedElements.mk [] [] []) None
       [HistoryState.mk [] [] []; HistoryState.mk [a] [] [];
        HistoryState.mk [a; b] [] []]
       0%Z false true false None None)
    {[ 0 := unitBox; 1 := unitBox ]} 2 0 [] 0.

(** A scene with the object ["a"], named ["A"], and a history of two
    snapshots of it, the pointer on the second. *)
Definition committedScene : World :=
  let a := SceneObject.mk "a" 0 "A" true false None None in
  mkWorld
    (SceneState.mk [a] [] [] None None (SelectedElements.mk [] [] []) None
       [HistoryState.mk [] [] []; HistoryState.mk [SceneObject.withObject 1 a] [] []]
       1%Z true false false None None)
    {[ 0 := unitBox; 1 := unitBox ]} 2 0 [] 0.

(* ===================================================================== *)
(** ** sceneStore.ts: the rest of the store *)
(* ===================================================================== *)

(** The fields of the store that the selection, mode, camera, placement and
    edge-drag actions read and write, and the gateway calls on groups, which
    [Request] does not have.  (Still left out: the camera perspective, the
    scene settings, [isDraggingEdge], [lastSaved], [isLoading] and the
    subscription handles.) *)

Module TransformMode.
Inductive t := translate | rotate | scale.
End TransformMode.

Module EditMode.
Inductive t := vertex | edge.
End EditMode.

(** What the [geometry()] factory of a pending object returns: a geometry,
    to be wrapped in a mesh, or a whole [THREE.Group]. *)
Inductive Placeable :=
| placeableGeometry (g : Geometry)
| placeableGroup (o : Object3D.t).

Module PendingObject.
Record t := mk {
  geometry : Placeable;
  name : string;
  color : option string
}.
End PendingObject.

Module DraggedEdge.
Record t := mk {
  indices : list (nat * nat);
  positions : list Vector3.t;
  initialPositions : list Vector3.t;
  connectedVertices : list nat;
  midpoint : Vector3.t
}.
End DraggedEdge.

Module Rest.
Record t := mk {
  transformMode : option TransformMode.t;
  editMode : option EditMode.t;
  cameraZoom : float;
  persistentTransformMode : option TransformMode.t;
  persistentEditMode : option EditMode.t;
  draggedEdge : option DraggedEdge.t;
  placementMode : bool;
  pendingObject : option PendingObject.t
}.

Definition setTransformMode v (s : t) : t :=
  mk v (editMode s) (cameraZoom s) (persistentTransformMode s)
    (persistentEditMode s) (draggedEdge s) (placementMode s) (pendingObject s).
Definition setEditMode v (s : t) : t :=
  mk (transformMode s) v (cameraZoom s) (persistentTransformMode s)
    (persistentEditMode s) (draggedEdge s) (placementMode s) (pendingObject s).
Definition setCameraZoom v (s : t) : t :=
  mk (transformMode s) (editMode s) v (persistentTransformMode s)
    (persistentEditMode s) (draggedEdge s) (placementMode s) (pendingObject s).
Definition setPersistentTransformMode v (s : t) : t :=
  mk (transformMode s) (editMode s) (cameraZoom s) v
    (persistentEditMode s) (draggedEdge s) (placementMode s) (pendingObject s).
Definition setPersistentEditMode v (s : t) : t :=
  mk (transformMode s) (editMode s) (cameraZoom s) (persistentTransformMode s)
    v (draggedEdge s) (placementMode s) (pendingObject s).
Definition setDraggedEdge v (s : t) : t :=
  mk (transformMode s) (editMode s) (cameraZoom s) (persistentTransformMode s)
    (persistentEditMode s) v (placementMode s) (pendingObject s).
Definition setPlacementMode v (s : t) : t :=
  mk (transformMode s) (editMode s) (cameraZoom s) (persistentTransformMode s)
    (persistentEditMode s) (draggedEdge s) v (pendingObject s).
Definition setPendingObject v (s : t) : t :=
  mk (transformMode s) (editMode s) (cameraZoom s) (persistentTransformMode s)
    (persistentEditMode s) (draggedEdge s) (placementMode s) v.

(** The values the store is created with. *)
Definition initial : t := mk None None 1 None None None false None.
End Rest.

(** The group record the store sends to the gateway. *)
Module FirestoreGroup.
Record t := mk {
  name : string;
  expanded : bool;
  visible : bool;
  locked : bool;
  objectIds : list string
}.
End FirestoreGroup.

(** The partial records the store sends with [updateGroup], besides the
    member list that [Request] has. *)
Inductive GroupPatch :=
| PatchGroupVisible (visible : bool)
| PatchGroupLocked (locked : bool)
| PatchGroupName (name : string).

Inductive GroupRequest :=
| saveGroup (data : FirestoreGroup.t) (userId projectId : string)
| updateGroupField (id : string) (patch : GroupPatch)
    (userId projectId : string)
| deleteGroup (id : string) (projectId : string).

(** The outcome of the n-th of these calls. *)
Class GroupGateway := {
  groupReply : nat -> GroupRequest -> Response
}.

Record GroupEvent := mkGroupEvent {
  groupRequest : GroupRequest;
  groupResponse : Response;
  storeAtGroupCall : SceneState.t
}.

(** The store whole, in its environment. *)
Record Studio := mkStudio {
  world : World;
  rest : Rest.t;
  groupLog : list GroupEvent
}.

(** Actions on the whole store. *)
Definition MS (A : Type) : Type := Studio -> Res A * Studio.

Definition retS {A} (a : A) : MS A := fun st => (Ok a, st).

Definition bindS {A B} (m : MS A) (k : A -> MS B) : MS B :=
  fun st =>
    match m st with
    | (Ok a, st') => k a st'
    | (Throw, st') => (Throw, st')
    end.

Notation "'let+' x ':=' m 'in' k" := (bindS m (fun x => k))
  (at level 10, x name, m at level 100, k at level 200, only parsing)
  : action_scope.

(** An action of the scene, run in the whole store. *)
Definition lift {A} (m : M A) : MS A :=
  fun st =>
    let '(res, w') := m (world st) in
    (res, mkStudio w' (rest st) (groupLog st)).

(** [get()], for the fields of [Rest]. *)
Definition getRest : MS Rest.t := fun st => (Ok (rest st), st).

(** [set(...)], for the fields of [Rest]. *)
Definition setRest (f : Rest.t -> Rest.t) : MS unit :=
  fun st => (Ok tt, mkStudio (world st) (f (rest st)) (groupLog st)).

(** [await] of a gateway call on a group, inside [try]/[catch]. *)
Definition awaitGroup {G : GroupGateway} (req : GroupRequest) : MS Response :=
  fun st =>
    let resp := groupReply (length (groupLog st)) req in
    (Ok resp,
     mkStudio (world st) (rest st)
       (groupLog st ++ [mkGroupEvent req resp (store (world st))])%list).

(** The studio an action leaves, and how it ended. *)
Definition afterS {A} (m : MS A) (st : Studio) : Studio := snd (m st).
Definition outcomeS {A} (m : MS A) (st : Studio) : Res A := fst (m st).

(** [Math.min(a, b)] and [Math.max(a, b)]: NaN when an argument is NaN; of
    two zeros, the negative one is the smaller. *)
Definition mathMin (a b : float) : float :=
  match PrimFloat.compare a b with
  | FLt => a
  | FGt => b
  | FEq => match PrimFloat.classify a with FloatClass.NZero => a | _ => b end
  | FNotComparable => PrimFloat.nan
  end.

Definition mathMax (a b : float) : float :=
  match PrimFloat.compare b a with
  | FLt => a
  | FGt => b
  | FEq => match PrimFloat.classify a with FloatClass.PZero => a | _ => b end
  | FNotComparable => PrimFloat.nan
  end.

(** [geometry instanceof SphereGeometry || geometry instanceof
    CylinderGeometry || geometry instanceof ConeGeometry] *)
Definition roundGeometry (g : Geometry) : bool :=
  instanceOf (gclass g) SphereGeometry
  || instanceOf (gclass g) CylinderGeometry
  || instanceOf (gclass g) ConeGeometry.

(** [{ ...group, visible: v }], [{ ...group, locked: l }],
    [{ ...group, name: n }], [{ ...group, firestoreId: f }] *)
Definition withGroupVisible (v : bool) (g : Group.t) : Group.t :=
  Group.mk (Group.id g) (Group.name g) (Group.expanded g) v (Group.locked g)
    (Group.objectIds g) (Group.firestoreId g).
Definition withGroupLocked (l : bool) (g : Group.t) : Group.t :=
  Group.mk (Group.id g) (Group.name g) (Group.expanded g) (Group.visible g) l
    (Group.objectIds g) (Group.firestoreId g).
Definition withGroupName (n : string) (g : Group.t) : Group.t :=
  Group.mk (Group.id g) n (Group.expanded g) (Group.visible g) (Group.locked g)
    (Group.objectIds g) (Group.firestoreId g).
Definition withGroupFirestoreId (f : option string) (g : Group.t) : Group.t :=
  Group.mk (Group.id g) (Group.name g) (Group.expanded g) (Group.visible g)
    (Group.locked g) (Group.objectIds g) f.

(** [new Set(a)] followed by [add] of every element of [b], as the array
    [Array.from] gives: the elements in order of first insertion. *)
Fixpoint addAll (b : list nat) (acc : list nat) : list nat :=
  match b with
  | [] => acc
  | v :: b' =>
      addAll b' (if existsb (Nat.eqb v) acc then acc else (acc ++ [v])%list)
  end.

(** [findOverlappingVertices(targetIndex)] of [startEdgeDrag]: the target
    first, then every other index whose vertex is closer than 0.0001 to it. *)
Definition findOverlappingVertices (positions : list float)
    (targetIndex : nat) : list nat :=
  let targetPos := vertexAt positions targetIndex in
  targetIndex
  :: List.filter
       (fun i =>
          negb (Nat.eqb i targetIndex)
          && PrimFloat.ltb (distanceTo (vertexAt positions i) targetPos)
               0.0001%float)
       (vertexIndices positions).

(** [a.clone().sub(b)] and [a.add(b)] *)
Definition subVector (a b : Vector3.t) : Vector3.t :=
  Vector3.mk (Vector3.x a - Vector3.x b)%float
    (Vector3.y a - Vector3.y b)%float (Vector3.z a - Vector3.z b)%float.
Definition addVector (a b : Vector3.t) : Vector3.t :=
  Vector3.mk (Vector3.x a + Vector3.x b)%float
    (Vector3.y a + Vector3.y b)%float (Vector3.z a + Vector3.z b)%float.

Section StudioActions.
Context {L : ThreeLib} {H : Host} {G : GroupGateway}.

Definition setSelectedObject (object : option nat) : MS unit :=
  let+ state := lift get in
  let+ ui := getRest in
  match object with
  | Some r =>
      if negb (canSelectObject state r) then retS tt
      else
        let+ o := lift (deref r) in
        let newEditMode :=
          match Rest.persistentEditMode ui with
          | Some mode => Some mode
          | None =>
              match Object3D.body o with
              | MeshBody geometry _ =>
                  if roundGeometry geometry then Some EditMode.vertex
                  else Rest.editMode ui
              | OtherBody _ => Rest.editMode ui
              end
          end in
        let+ _ := lift (set (SceneState.setSelectedObject (Some r))) in
        setRest (fun s =>
                   Rest.setEditMode newEditMode
                     (Rest.setTransformMode (Rest.transformMode ui) s))
  | None =>
      let+ _ := lift (set (SceneState.setSelectedObject None)) in
      setRest (fun s => Rest.setEditMode None (Rest.setTransformMode None s))
  end.

Definition setTransformMode (mode : option TransformMode.t) : MS unit :=
  setRest (fun s =>
             Rest.setTransformMode mode
               (Rest.setPersistentTransformMode mode s)).

Definition setEditMode (mode : option EditMode.t) : MS unit :=
  let+ state := lift get in
  let+ refused :=
    match mode, SceneState.selectedObject state with
    | Some EditMode.edge, Some r =>
        let+ o := lift (deref r) in
        retS (match Object3D.body o with
              | MeshBody geometry _ => roundGeometry geometry
              | OtherBody _ => false
              end)
    | _, _ => retS false
    end in
  if refused then retS tt
  else
    setRest (fun s =>
               Rest.setEditMode mode (Rest.setPersistentEditMode mode s)).

Definition zoomIn : MS unit :=
  let+ ui := getRest in
  let+ _ := lift markUnsavedChanges in
  setRest (Rest.setCameraZoom (mathMin (Rest.cameraZoom ui * 1.2)%float 5)).

Definition zoomOut : MS unit :=
  let+ ui := getRest in
  let+ _ := lift markUnsavedChanges in
  setRest (Rest.setCameraZoom (mathMax (Rest.cameraZoom ui / 1.2)%float 0.1)).

Definition startObjectPlacement (objectDef : PendingObject.t) : MS unit :=
  let+ _ := lift (set (SceneState.setSelectedObject None)) in
  setRest (fun s =>
             Rest.setPlacementMode true
               (Rest.setPendingObject (Some objectDef)
                  (Rest.setTransformMode None (Rest.setEditMode None s)))).

(** The object [placeObjectAt] builds from the pending definition: the
    group itself, or a mesh of the geometry with a new
    [MeshStandardMaterial] of the pending colour; at the position given, and
    with the rotation given if there is one. *)
Definition placedObject (pending : PendingObject.t) (position : Vector3.t)
    (rotation : option Vector3.t) : Object3D.t :=
  let built :=
    match PendingObject.geometry pending with
    | placeableGroup group => group
    | placeableGeometry geometry =>
        Object3D.mk
          (MeshBody geometry
             (MeshStandardMaterial
                (StandardMaterial.mk
                   (hexOfStyle (JS.orStr (PendingObject.color pending)
                                  "#44aa88"))
                   1 false defaultMetalness defaultRoughness)))
          (Vector3.mk 0 0 0) (Vector3.mk 0 0 0) (Vector3.mk 1 1 1) true
    end in
  Object3D.mk (Object3D.body built) position
    (match rotation with
     | Some q => q
     | None => Object3D.rotation built
     end)
    (Object3D.scale built) (Object3D.visible built).

Definition placeObjectAt (position : Vector3.t) (rotation : option Vector3.t)
  : MS unit :=
  let+ ui := getRest in
  match Rest.pendingObject ui with
  | None => retS tt
  | Some pending =>
      let+ object := lift (alloc (placedObject pending position rotation)) in
      let+ _ := lift (addObject object (PendingObject.name pending)) in
      let+ _ := lift (set (SceneState.setSelectedObject (Some object))) in
      setRest (fun s =>
                 Rest.setPlacementMode false (Rest.setPendingObject None s))
  end.

Definition cancelObjectPlacement : MS unit :=
  setRest (fun s => Rest.setPlacementMode false (Rest.setPendingObject None s)).

(** [startEdgeDrag([v1, v2], positions, midpoint)] *)
Definition startEdgeDrag (v1 v2 : nat) (positions : list Vector3.t)
    (midpoint : Vector3.t) : MS unit :=
  let+ selected := lift selectedMesh in
  match selected with
  | None => retS tt
  | Some (_, geometry) =>
      match positionsOf geometry with
      | None => lift throw
      | Some positionAttribute =>
          let vertex1Overlapping :=
            findOverlappingVertices positionAttribute v1 in
          let vertex2Overlapping :=
            findOverlappingVertices positionAttribute v2 in
          let connectedVertices :=
            addAll vertex2Overlapping (addAll vertex1Overlapping []) in
          let edges :=
            flat_map
              (fun a => List.map (fun b => (a, b)) vertex2Overlapping)
              vertex1Overlapping in
          let+ _ :=
            lift
              (set (fun state =>
                      SceneState.setSelectedElements
                        (SelectedElements.mk
                           (SelectedElements.vertices
                              (SceneState.selectedElements state))
                           connectedVertices
                           (SelectedElements.faces
                              (SceneState.selectedElements state)))
                        state)) in
          setRest
            (Rest.setDraggedEdge
               (Some (DraggedEdge.mk edges positions positions
                        connectedVertices midpoint)))
      end
  end.

Definition updateEdgeDrag (position : Vector3.t) : MS unit :=
  let+ ui := getRest in
  match Rest.draggedEdge ui with
  | None => retS tt
  | Some draggedEdge =>
      let+ selected := lift selectedMesh in
      match selected with
      | None => retS tt
      | Some (r, geometry) =>
          match positionsOf geometry with
          | None => lift throw
          | Some positions =>
              let offset :=
                subVector position (DraggedEdge.midpoint draggedEdge) in
              let moved :=
                fold_left
                  (fun arr vertexIndex =>
                     setXYZ arr vertexIndex
                       (addVector (vertexAt arr vertexIndex) offset))
                  (DraggedEdge.connectedVertices draggedEdge) positions in
              let+ _ :=
                lift
                  (mutate r
                     (withGeometry
                        (computeVertexNormals
                           (withPositions moved geometry)))) in
              setRest
                (Rest.setDraggedEdge
                   (Some (DraggedEdge.mk
                            (DraggedEdge.indices draggedEdge)
                            (DraggedEdge.positions draggedEdge)
                            (DraggedEdge.initialPositions draggedEdge)
                            (DraggedEdge.connectedVertices draggedEdge)
                            position)))
          end
      end
  end.

Definition createGroup (name : string) (objectIds : list string) : MS unit :=
  let+ state0 := lift get in
  let currentProjectId := SceneState.currentProjectId state0 in
  let currentUserId := SceneState.currentUserId state0 in
  let+ id := lift randomUUID in
  let newGroup := Group.mk id name true true false objectIds None in
  let+ _ :=
    lift
      (set (fun state =>
              SceneState.setGroups
                (SceneState.groups state ++ [newGroup])%list
                (SceneState.setObjects
                   (List.map
                      (fun obj =>
                         if JS.includes (SceneObject.id obj) objectIds
                         then SceneObject.withGroupId (Some id) obj
                         else obj)
                      (SceneState.objects state))
                   state))) in
  let+ _ :=
    if allTruthy [currentProjectId; currentUserId] then
      let+ saved :=
        awaitGroup
          (saveGroup (FirestoreGroup.mk name true true false objectIds)
             (str currentUserId) (str currentProjectId)) in
      match saved with
      | resolved firestoreId =>
          lift
            (set (fun state =>
                    SceneState.setGroups
                      (List.map
                         (fun group =>
                            if groupHasId id group
                            then withGroupFirestoreId (Some firestoreId) group
                            else group)
                         (SceneState.groups state))
                      state))
      | rejected => retS tt
      end
    else retS tt in
  lift saveToHistory.

Definition removeGroup (groupId : string) : MS unit :=
  let+ state := lift get in
  match JS.find (groupHasId groupId) (SceneState.groups state) with
  | None => retS tt
  | Some groupToRemove =>
      if Group.locked groupToRemove then retS tt
      else
        let+ _ :=
          if allTruthy [Group.firestoreId groupToRemove;
                        SceneState.currentProjectId state]
          then
            let+ _ :=
              awaitGroup
                (deleteGroup (str (Group.firestoreId groupToRemove))
                   (str (SceneState.currentProjectId state))) in
            retS tt
          else retS tt in
        let updatedObjects :=
          List.map
            (fun obj =>
               if bool_decide (SceneObject.groupId obj = Some groupId)
               then SceneObject.withGroupId None obj
               else obj)
            (SceneState.objects state) in
        let+ _ :=
          lift
            (set (fun s =>
                    SceneState.setGroups
                      (List.filter
                         (fun group => negb (groupHasId groupId group))
                         (SceneState.groups state))
                      (SceneState.setObjects updatedObjects s))) in
        lift saveToHistory
  end.

(** [state.objects.find(obj => obj.object === state.selectedObject)] *)
Definition selectedEntryOf (state : SceneState.t) : option SceneObject.t :=
  JS.find
    (fun obj =>
       sameObject (SceneObject.object obj) (SceneState.selectedObject state))
    (SceneState.objects state).

Definition toggleGroupVisibility (groupId : string) : MS unit :=
  let+ state := lift get in
  match JS.find (groupHasId groupId) (SceneState.groups state) with
  | None => retS tt
  | Some group =>
      if Group.locked group then retS tt
      else
        let newVisibility := negb (Group.visible group) in
        let updatedGroups :=
          List.map
            (fun g =>
               if groupHasId groupId g then withGroupVisible newVisibility g
               else g)
            (SceneState.groups state) in
        let updatedObjects :=
          List.map
            (fun obj =>
               if JS.includes (SceneObject.id obj) (Group.objectIds group)
               then SceneObject.withVisible newVisibility obj
               else obj)
            (SceneState.objects state) in
        let newSelectedObject :=
          match selectedEntryOf state with
          | Some selectedObj =>
              if JS.includes (SceneObject.id selectedObj)
                   (Group.objectIds group)
                 && negb newVisibility
              then None
              else SceneState.selectedObject state
          | None => SceneState.selectedObject state
          end in
        let+ _ :=
          lift
            (set (fun s =>
                    SceneState.setGroups updatedGroups
                      (SceneState.setObjects updatedObjects
                         (SceneState.setSelectedObject newSelectedObject s)))) in
        let+ _ :=
          if allTruthy [Group.firestoreId group;
                        SceneState.currentProjectId state;
                        SceneState.currentUserId state]
          then
            let+ _ :=
              awaitGroup
                (updateGroupField (str (Group.firestoreId group))
                   (PatchGroupVisible newVisibility)
                   (str (SceneState.currentUserId state))
                   (str (SceneState.currentProjectId state))) in
            retS tt
          else retS tt in
        lift markUnsavedChanges
  end.

Definition toggleGroupLock (groupId : string) : MS unit :=
  let+ state := lift get in
  match JS.find (groupHasId groupId) (SceneState.groups state) with
  | None => retS tt
  | Some group =>
      let newLockState := negb (Group.locked group) in
      let updatedGroups :=
        List.map
          (fun g =>
             if groupHasId groupId g then withGroupLocked newLockState g
             else g)
          (SceneState.groups state) in
      let newSelectedObject :=
        match selectedEntryOf state with
        | Some selectedObj =>
            if JS.includes (SceneObject.id selectedObj)
                 (Group.objectIds group)
               && newLockState
            then None
            else SceneState.selectedObject state
        | None => SceneState.selectedObject state
        end in
      let+ _ :=
        lift
          (set (fun s =>
                  SceneState.setGroups updatedGroups
                    (SceneState.setSelectedObject newSelectedObject s))) in
      let+ _ :=
        if allTruthy [Group.firestoreId group;
                      SceneState.currentProjectId state;
                      SceneState.currentUserId state]
        then
          let+ _ :=
            awaitGroup
              (updateGroupField (str (Group.firestoreId group))
                 (PatchGroupLocked newLockState)
                 (str (SceneState.currentUserId state))
                 (str (SceneState.currentProjectId state))) in
          retS tt
        else retS tt in
      lift markUnsavedChanges
  end.

Definition updateGroupName (groupId : string) (name : string) : MS unit :=
  let+ state := lift get in
  let group := JS.find (groupHasId groupId) (SceneState.groups state) in
  if match group with
     | Some g => Group.locked g
     | None => false
     end
  then retS tt
  else
    let+ _ :=
      lift
        (set (SceneState.setGroups
                (List.map
                   (fun g =>
                      if groupHasId groupId g then withGroupName name g
                      else g)
                   (SceneState.groups state)))) in
    let+ _ :=
      match group with
      | Some g =>
          if allTruthy [Group.firestoreId g;
                        SceneState.currentProjectId state;
                        SceneState.currentUserId state]
          then
            let+ _ :=
              awaitGroup
                (updateGroupField (str (Group.firestoreId g))
                   (PatchGroupName name)
                   (str (SceneState.currentUserId state))
                   (str (SceneState.currentProjectId state))) in
            retS tt
          else retS tt
      | None => retS tt
      end in
    lift markUnsavedChanges.

End StudioActions.

(* ===================================================================== *)
(** ** Concrete studios, for running the model *)
(* ===================================================================== *)

(** A gateway on which every call on a group resolves. *)
Definition referenceGroups : GroupGateway := {|
  groupReply := fun n _ => resolved ("group-doc-" +:+ tally n)
|}.

(** The studio of a world, as the store is created. *)
Definition studioOf (w : World) : Studio := mkStudio w Rest.initial [].



(** A studio in placement mode: a sphere of the colour ['#ff0000'] is
    pending, in the empty scene. *)
Definition placingStudio : Studio :=
  mkStudio emptyScene
    (Rest.setPlacementMode true
       (Rest.setPendingObject
          (Some (PendingObject.mk
                   (placeableGeometry
                      (newSphereGeometry (L := referenceThree)
                         (Some 0.5%float) (Some 32%float) (Some 16%float)))
                   "Sphere" (Some "#ff0000")))
          Rest.initial))
    [].


(** The selection [toggleGroupVisibility] and [toggleGroupLock] leave: the
    selection is dropped when the selected entry is listed by the group and
    [drops] holds. *)
Definition selectionAfterGroupToggle (state : SceneState.t) (group : Group.t)
    (drops : bool) : option nat :=
  match selectedEntryOf state with
  | Some selectedObj =>
      if JS.includes (SceneObject.id selectedObj) (Group.objectIds group)
         && drops
      then None
      else SceneState.selectedObject state
  | None => SceneState.selectedObject state
  end.

(** The request a toggle or a rename of a group sends, when the group has
    a persisted id and the store is in a project. *)
Definition groupPatchRequests (state : SceneState.t) (group : Group.t)
    (patch : GroupPatch) : list GroupRequest :=
  if allTruthy [Group.firestoreId group; SceneState.currentProjectId state;
                SceneState.currentUserId state]
  then [updateGroupField (str (Group.firestoreId group)) patch
          (str (SceneState.currentUserId state))
          (str (SceneState.currentProjectId state))]
  else [].

(** The studio of the group ["kitchen"] and its member, the selected
    ["chair"]. *)
Definition kitchenStudio : Studio := studioOf kitchenScene.

(** The studio of the group ["den"], visible and unlocked, with two members:
    the lamp, hidden and locked, and the sofa; the rug is in no group. *)
Definition denStudio : Studio :=
  studioOf
    (mkWorld
       (sceneOf
          [SceneObject.mk "lamp" 0 "Lamp" false true (Some "den") None;
           SceneObject.mk "sofa" 1 "Sofa" true false (Some "den") None;
           SceneObject.mk "rug" 2 "Rug" true false None None]
          [Group.mk "den" "Den" true true false ["lamp"; "sofa"]
             (Some "doc-den")]
          [])
       {[ 0 := unitBox; 1 := unitBox; 2 := unitBox ]} 3 0 [] 0).

(** The groups and the objects [removeGroup] stores. *)
Definition ungrouped (groupId : string) (objects : list SceneObject.t)
  : list SceneObject.t :=
  List.map
    (fun obj =>
       if bool_decide (SceneObject.groupId obj = Some groupId)
       then SceneObject.withGroupId None obj
       else obj)
    objects.

(** The objects [createGroup] stores. *)
Definition grouped (groupId : string) (objectIds : list string)
    (objects : list SceneObject.t) : list SceneObject.t :=
  List.map
    (fun obj =>
       if JS.includes (SceneObject.id obj) objectIds
       then SceneObject.withGroupId (Some groupId) obj
       else obj)
    objects.

(** The identifier [randomUUID] draws next is not the id of a group of the
    store, and no entry names it as its group. *)
Definition unusedGroupId {H : Host} (w : World) : Prop :=
  (forall group, In group (SceneState.groups (store w)) ->
                 Group.id group <> uuid (uuidCount w))
  /\ (forall obj, In obj (SceneState.objects (store w)) ->
                  SceneObject.groupId obj <> Some (uuid (uuidCount w))).

Section GroupCreation.
Context {H : Host} {G : GroupGateway}.

(** The create request [createGroup] sends in a project. *)
Definition groupCreateRequest (st : Studio) (name : string)
    (objectIds : list string) : GroupRequest :=
  saveGroup (FirestoreGroup.mk name true true false objectIds)
    (str (SceneState.currentUserId (store (world st))))
    (str (SceneState.currentProjectId (store (world st)))).

(** The persisted id the new group ends with. *)
Definition groupPersistedId (st : Studio) (name : string)
    (objectIds : list string) : option string :=
  if inProject (store (world st)) then
    match groupReply (length (groupLog st))
            (groupCreateRequest st name objectIds) with
    | resolved firestoreId => Some firestoreId
    | rejected => None
    end
  else None.

(** The group [createGroup] adds. *)
Definition createdGroup (st : Studio) (name : string)
    (objectIds : list string) : Group.t :=
  Group.mk (uuid (uuidCount (world st))) name true true false objectIds
    (groupPersistedId st name objectIds).

End GroupCreation.

(** The connected set [startEdgeDrag] collects for the edge [v1]-[v2]. *)
Definition connectedTo (positions : list float) (v1 v2 : nat) : list nat :=
  addAll (findOverlappingVertices positions v2)
    (addAll (findOverlappingVertices positions v1) []).

(** The connected set of the edge drag in progress; empty when there is
    none. *)
Definition connectedOf (st : Studio) : list nat :=
  match Rest.draggedEdge (rest st) with
  | Some draggedEdge => DraggedEdge.connectedVertices draggedEdge
  | None => []
  end.

(** A square, with a second vertex on two of its corners. *)
Definition quadVertices : list float :=
  [0; 0; 0;  1; 0; 0;  1; 1; 0;  0; 1; 0;  1; 0; 0;  0; 0; 0]%float.

(* ===================================================================== *)
(** * Properties *)
(* ===================================================================== *)

(** ** Geometry codec *)

Lemma referenceThree_sized : NormalsSized referenceThree.
Proof. intros pos idx. apply List.length_map. Qed.

Section CodecFacts.
Context {L : ThreeLib}.

Lemma isCustomGeometry_plain g name p :
  plainName name = true ->
  parameters g = Some p ->
  gclass g <> BufferGeometry ->
  gclass g <> TorusGeometry ->
  isCustomGeometry g name = false.
Proof.
  unfold plainName, isCustomGeometry. intros Hn Hp Hb Ht.
  apply negb_true_iff in Hn. rewrite Hn, Hp.
  destruct (gclass g); try congruence; reflexivity.
Qed.

Ltac load_parametric Hty Hcg Hgp :=
  unfold roundTripParams, reserialize, firestoreToObject;
  rewrite Hty;
  replace (("Mesh" =? "Mesh")%string) with true by reflexivity;
  cbn [orb]; unfold objectToFirestore; cbn [Object3D.body];
  unfold geometryOfRecord; rewrite Hcg, Hgp.

(** Box, sphere and cylinder records come back with the parameter set they
    were loaded from. *)
Lemma parametric_round_trip (k : Kind) (P : Params) (data : FirestoreObject.t) :
  k <> cone ->
  ValidParams k P ->
  parametricRecord data P ->
  plainName (FirestoreObject.name data) = true ->
  roundTripParams data = Some P.
Proof.
  intros Hk HP (Hty & Hcg & Hgp) Hname.
  load_parametric Hty Hcg Hgp.
  destruct HP; try congruence; cbn;
    unfold geometryToFirestore;
    (erewrite isCustomGeometry_plain;
     [ | exact Hname | reflexivity | discriminate | discriminate ]);
    reflexivity.
Qed.

(** A cone record comes back as a cylinder record. *)
Lemma cone_round_trip (r h rs : float) (data : FirestoreObject.t) :
  parametricRecord data (coneParams r h rs) ->
  plainName (FirestoreObject.name data) = true ->
  roundTripParams data = Some (coneComesBackAs h rs).
Proof.
  intros (Hty & Hcg & Hgp) Hname.
  load_parametric Hty Hcg Hgp. cbn.
  unfold geometryToFirestore.
  erewrite isCustomGeometry_plain;
    [ | exact Hname | reflexivity | discriminate | discriminate ].
  reflexivity.
Qed.

(** Whatever three.js computes on its own, a cone record never comes back
    as itself: the radius is not written back. *)
Lemma cone_round_trip_differs (r h rs : float) (data : FirestoreObject.t) :
  parametricRecord data (coneParams r h rs) ->
  plainName (FirestoreObject.name data) = true ->
  roundTripParams data <> Some (coneParams r h rs).
Proof.
  intros Hrec Hname. rewrite (cone_round_trip r h rs data Hrec Hname).
  unfold coneComesBackAs, coneParams. intros [= ?].
Qed.

Lemma reload_custom g m p r s v name :
  isCustomGeometry g name = true ->
  instanceOf (gclass g) TorusGeometry = false ->
  reloadGeometry (Object3D.mk (MeshBody g m) p r s v) name
    = Some (deserializeGeometry (customRecord g)).
Proof.
  intros Hc Ht. unfold reloadGeometry, objectToFirestore.
  cbn [Object3D.body]. unfold geometryToFirestore. rewrite Hc, Ht.
  reflexivity.
Qed.

(** A torus is rebuilt from its parameters alone: the buffers of the
    serialized mesh are not read back. *)
Lemma reload_torus g m p r s v name :
  gclass g = TorusGeometry ->
  exists a b c d e,
    reloadGeometry (Object3D.mk (MeshBody g m) p r s v) name
      = Some (newTorusGeometry a b c d e).
Proof.
  intros Ht. unfold reloadGeometry, objectToFirestore.
  cbn [Object3D.body]. unfold geometryToFirestore.
  assert (Hc : isCustomGeometry g name = true).
  { unfold isCustomGeometry. rewrite Ht. cbn.
    now rewrite orb_true_r. }
  rewrite Hc, Ht. cbn. eauto 10.
Qed.

End CodecFacts.

(** C1 (code defect).  The round-trip law fails on cones: the persisted cone
    with radius 0.5, height 1 and 32 radial segments is loaded as a
    [ConeGeometry] and written back with the parameter set of a cylinder,
    [radiusTop = radiusBottom = 0.5], its [radius] gone. *)
Theorem C1_cone_round_trip_fails :
  roundTripParams (L := referenceThree) coneRecord
    = Some (cylinderParams 0.5 0.5 1 32)
  /\ roundTripParams (L := referenceThree) coneRecord
       <> Some (coneParams 0.5 1 32).
Proof.
  assert (H : roundTripParams (L := referenceThree) coneRecord
              = Some (cylinderParams 0.5 0.5 1 32)).
  { rewrite (cone_round_trip 0.5 1 32)%float.
    - reflexivity.
    - repeat split.
    - reflexivity. }
  split; [exact H | rewrite H; discriminate].
Qed.

(** C8 (as amended).  For a custom mesh that is not a torus, with vertex
    buffer V and index buffer I, loading the record written from the mesh
    gives back V and I exactly; and when the mesh supplied no normals and V is
    not empty, the loaded mesh has a non-empty normal buffer, as long as V. *)
Theorem C8_custom_round_trip (L : ThreeLib) (g : Geometry) (m : Material)
    (p r s : Vector3.t) (v : bool) (name : string) :
  NormalsSized L ->
  isCustomGeometry g name = true ->
  instanceOf (gclass g) TorusGeometry = false ->
  exists g',
    reloadGeometry (Object3D.mk (MeshBody g m) p r s v) name = Some g'
    /\ arrayOf (position (attributes g')) = arrayOf (position (attributes g))
    /\ arrayOf (index (attributes g')) = arrayOf (index (attributes g))
    /\ (arrayOf (normal (attributes g)) = [] ->
        arrayOf (position (attributes g)) <> [] ->
        arrayOf (normal (attributes g')) <> []
        /\ length (arrayOf (normal (attributes g')))
           = length (arrayOf (position (attributes g)))).
Proof.
  intros Hsz Hc Ht. eexists. split; [apply reload_custom; assumption|].
  unfold deserializeGeometry, customRecord, serializeGeometry.
  cbn [CustomGeometry.normals CustomGeometry.vertices CustomGeometry.indices
       CustomGeometry.uvs CustomGeometry.parameters].
  destruct g as [cls ps [pos nor uvs idx]]; cbn [attributes position normal uv index].
  assert (Hlen : forall a (vs : list float) i,
             vertexNormals (a :: vs) i <> []).
  { intros a vs i E. apply (f_equal (@length _)) in E.
    rewrite Hsz in E. discriminate. }
  destruct nor as [[|n nor]|], pos as [[|a pos]|], idx as [[|i idx]|];
    cbn; repeat split; try congruence; intros; try apply Hlen; try apply Hsz.
Qed.

Lemma C8_custom_round_trip_witness :
  exists g',
    reloadGeometry (L := referenceThree)
      (Object3D.mk (MeshBody triangle OtherMaterial)
         origin origin unitScale true) "Star" = Some g'
    /\ arrayOf (position (attributes g'))
       = arrayOf (position (attributes triangle))
    /\ arrayOf (index (attributes g')) = arrayOf (index (attributes triangle))
    /\ (arrayOf (normal (attributes triangle)) = [] ->
        arrayOf (position (attributes triangle)) <> [] ->
        arrayOf (normal (attributes g')) <> []
        /\ length (arrayOf (normal (attributes g')))
           = length (arrayOf (position (attributes triangle)))).
Proof.
  apply (C8_custom_round_trip referenceThree triangle).
  - exact referenceThree_sized.
  - reflexivity.
  - reflexivity.
Defined.

(** C8, counterexample to the claim as stated.  A custom mesh with an empty
    vertex buffer (n = 0) and no normals is loaded back without normals:
    [computeVertexNormals] has no position attribute to work from. *)
Lemma C8_empty_mesh_has_no_normals :
  isCustomGeometry newBufferGeometry "custom shape" = true
  /\ length (arrayOf (position (attributes newBufferGeometry))) = 3 * 0
  /\ arrayOf (normal (attributes newBufferGeometry)) = []
  /\ exists g',
       reloadGeometry (L := referenceThree) emptyCustomMesh "custom shape"
         = Some g'
       /\ arrayOf (normal (attributes g')) = [].
Proof.
  repeat split. eexists. split; reflexivity.
Qed.

(** ** The monad of actions *)

Ltac step_action :=
  unfold bind, ret, get, set, throw, markUnsavedChanges, deferSaveToHistory,
    await, randomUUID, deref, alloc, mutate, after, outcome in *;
  cbn [fst snd store heap nextRef uuidCount log timers setStore] in *.

Lemma find_map_same_id (id : string) (f : SceneObject.t -> SceneObject.t)
    (l : list SceneObject.t) :
  (forall o, SceneObject.id (f o) = SceneObject.id o) ->
  JS.find (hasId id) (List.map (fun o => if hasId id o then f o else o) l)
  = option_map f (JS.find (hasId id) l).
Proof.
  intros Hid. unfold JS.find. induction l as [|o l IH]; [reflexivity|].
  cbn [List.map List.find]. destruct (hasId id o) eqn:E.
  - unfold hasId in *. rewrite Hid, E. reflexivity.
  - rewrite E. exact IH.
Qed.

(** ** History engine *)

Section HistoryFacts.
Context {L : ThreeLib} {H : Host}.

Lemma cloneObject_store (r : nat) (w : World) :
  exists r' w',
    cloneObject r w = (Ok r', w') /\ store w' = store w.
Proof. unfold cloneObject. step_action. eauto. Qed.

Lemma clones_store (l : list SceneObject.t) (w : World) :
  exists l' w',
    mapM cloneEntry l w = (Ok l', w')
    /\ store w' = store w
    /\ Forall2 (fun o c => c = SceneObject.withObject (SceneObject.object c) o)
         l l'.
Proof.
  revert w. induction l as [|o l IH]; intros w.
  - exists [], w. repeat split. constructor.
  - cbn [mapM]. unfold bind at 1. unfold cloneEntry at 1. unfold bind at 1.
    destruct (cloneObject_store (SceneObject.object o) w) as (r' & w1 & E1 & S1).
    rewrite E1. unfold ret at 1.
    destruct (IH w1) as (l' & w2 & E2 & S2 & F2).
    unfold bind at 1. rewrite E2. unfold ret.
    eexists _, _. split; [reflexivity|]. split; [congruence|].
    constructor; [reflexivity | exact F2].
Qed.

(** A snapshot can always be taken, and taking it leaves the store as it
    is. *)
Lemma snapshot_ok (w : World) :
  exists s w',
    snapshot w = (Ok s, w') /\ store w' = store w
    /\ Forall2 (fun o c => c = SceneObject.withObject (SceneObject.object c) o)
         (SceneState.objects (store w)) (HistoryState.objects s)
    /\ HistoryState.groups s = SceneState.groups (store w)
    /\ HistoryState.lights s
       = List.map (Light.withObject None) (SceneState.lights (store w)).
Proof.
  destruct (clones_store (SceneState.objects (store w)) w)
    as (l' & w' & E & S & F).
  unfold snapshot, bind, get. rewrite E. unfold ret.
  eexists _, _. repeat split; [exact S | exact F].
Qed.

Lemma saveToHistory_spec (w : World) :
  exists s w1,
    snapshot w = (Ok s, w1) /\ store w1 = store w
    /\ saveToHistory w = (Ok tt, setStore (committed s (store w)) w1).
Proof.
  destruct (snapshot_ok w) as (s & w1 & E & S & _).
  exists s, w1. split; [exact E|]. split; [exact S|].
  unfold saveToHistory, bind, get. rewrite E.
  unfold markUnsavedChanges, set, setStore, committed, pushed.
  cbn [store]. rewrite S. reflexivity.
Qed.

End HistoryFacts.

(** ** Actions that leave the history alone *)

Ltac store_simpl :=
  cbn [fst snd store heap nextRef uuidCount log timers setStore
       SceneState.objects SceneState.groups SceneState.lights
       SceneState.selectedLight SceneState.selectedObject
       SceneState.selectedElements SceneState.draggedVertex
       SceneState.history SceneState.historyIndex SceneState.canUndo
       SceneState.canRedo SceneState.hasUnsavedChanges
       SceneState.currentProjectId SceneState.currentUserId
       SceneState.setObjects SceneState.setGroups SceneState.setLights
       SceneState.setSelectedLight SceneState.setSelectedObject
       SceneState.setSelectedElements SceneState.setDraggedVertex
       SceneState.setHistory SceneState.setHistoryIndex SceneState.setCanUndo
       SceneState.setCanRedo SceneState.setHasUnsavedChanges] in *.

Ltac run_action :=
  unfold bind, ret, get, set, throw, markUnsavedChanges, deferSaveToHistory,
    await, randomUUID, deref, alloc, mutate, after, outcome in *;
  store_simpl.

Ltac split_cases :=
  repeat match goal with
         | |- context [match ?x with _ => _ end] =>
             lazymatch x with
             | context [match _ with _ => _ end] => fail
             | _ => destruct x eqn:?; store_simpl
             end
         end.

Section KeepsHistory.
Context {L : ThreeLib} {H : Host}.

Lemma forEachM_store {A} (f : A -> M unit) (l : list A) :
  (forall a w, outcome (f a) w = Ok tt /\ store (after (f a) w) = store w) ->
  forall w,
    outcome (forEachM f l) w = Ok tt
    /\ store (after (forEachM f l) w) = store w.
Proof.
  intros Hf. induction l as [|a l IH]; intros w; [split; reflexivity|].
  cbn [forEachM]. unfold bind, after, outcome in *.
  destruct (Hf a w) as [Ho Hs]. destruct (f a w) as [[[]|] w1]; try discriminate.
  cbn [fst snd] in *. destruct (IH w1) as [Ho' Hs'].
  split; [exact Ho' | congruence].
Qed.

Lemma addObject_isEdit object name : isEdit (addObject object name).
Proof.
  split; intros w; unfold addObject; run_action; split_cases; auto.
Qed.

Lemma removeObject_isEdit id : isEdit (removeObject id).
Proof.
  split; intros w; unfold removeObject; run_action; split_cases; auto.
Qed.

Lemma toggleVisibility_isEdit id : isEdit (toggleVisibility id).
Proof.
  split; intros w; unfold toggleVisibility; run_action; split_cases; auto.
Qed.

Lemma toggleLock_isEdit id : isEdit (toggleLock id).
Proof.
  split; intros w; unfold toggleLock; run_action; split_cases; auto.
Qed.

Lemma updateObjectName_isEdit id name : isEdit (updateObjectName id name).
Proof.
  split; intros w; unfold updateObjectName; run_action; split_cases; auto.
Qed.

Lemma addObjectToGroup_isEdit objectId groupId :
  isEdit (addObjectToGroup objectId groupId).
Proof.
  split; intros w; unfold addObjectToGroup; run_action; split_cases; auto.
Qed.

Lemma removeObjectFromGroup_isEdit objectId :
  isEdit (removeObjectFromGroup objectId).
Proof.
  split; intros w; unfold removeObjectFromGroup; run_action; split_cases; auto.
Qed.

End KeepsHistory.
Section BatchAndDrag.
Context {L : ThreeLib} {H : Host}.

Lemma moveObjectsToGroup_isEdit objectIds groupId :
  isEdit (moveObjectsToGroup objectIds groupId).
Proof.
  assert (HF : forall (state : SceneState.t) (w : World),
             let f := (fun objectId =>
             match JS.find (hasId objectId) (SceneState.objects state) with
             | Some obj =>
                 if JS.truthyStr (SceneObject.firestoreId obj) then
                   let* _ :=
                     await (updateObject (str (SceneObject.firestoreId obj))
                              (PatchGroupId groupId)
                              (str (SceneState.currentUserId state))
                              (str (SceneState.currentProjectId state))) in
                   ret tt
                 else ret tt
             | None => ret tt
             end) in
             outcome (forEachM f objectIds) w = Ok tt
             /\ store (after (forEachM f objectIds) w) = store w).
  { intros state w f. apply forEachM_store. intros a w'. subst f.
    run_action. split_cases; auto. }
  assert (HM : forall w,
             outcome (moveObjectsToGroup objectIds groupId) w = Ok tt
             /\ SceneState.history
                  (store (after (moveObjectsToGroup objectIds groupId) w))
                = SceneState.history (store w)
             /\ SceneState.historyIndex
                  (store (after (moveObjectsToGroup objectIds groupId) w))
                = SceneState.historyIndex (store w)).
  { intros w. unfold outcome, after.
    destruct (moveObjectsToGroup objectIds groupId w) as [res w'] eqn:E.
    cbn [fst snd]. revert E. unfold moveObjectsToGroup.
    unfold bind at 1, get at 1. cbn beta iota.
    destruct (Nat.ltb _ _); [intros [= <- <-]; auto|].
    destruct (inLockedGroup _ _); [intros [= <- <-]; auto|].
    unfold bind at 1, set at 1. cbn beta iota. unfold bind at 1.
    destruct (allTruthy _).
    - match goal with |- context [forEachM ?f ?l ?w'] =>
        destruct (HF (store w) w') as [Ho Hs]; unfold outcome, after in Ho, Hs;
        destruct (forEachM f l w') as [[[]|] w2] end; try discriminate.
      cbn [fst snd] in Hs. run_action. intros [= <- <-]. store_simpl.
      rewrite Hs. store_simpl. auto.
    - run_action. intros [= <- <-]. auto. }
  split; intros w; apply HM.
Qed.

Lemma keepsHistory_intro {A} (m : M A) :
  (forall w res w',
      m w = (res, w') ->
      SceneState.history (store w') = SceneState.history (store w)
      /\ SceneState.historyIndex (store w')
         = SceneState.historyIndex (store w)) ->
  keepsHistory m.
Proof.
  intros Hm w. unfold after. destruct (m w) as [res w'] eqn:E.
  exact (Hm w res w' E).
Qed.

Lemma selectedMesh_store (w : World) :
  exists r, selectedMesh w = (Ok r, w).
Proof.
  unfold selectedMesh. run_action. split_cases; eauto.
Qed.

Lemma startVertexDrag_keepsHistory index position :
  keepsHistory (startVertexDrag index position).
Proof.
  apply keepsHistory_intro. intros w res w'.
  unfold startVertexDrag. unfold bind.
  destruct (selectedMesh_store w) as [r ->].
  run_action. split_cases; intros [= <- <-]; auto.
Qed.

Lemma updateVertexDrag_keepsHistory position :
  keepsHistory (updateVertexDrag position).
Proof.
  apply keepsHistory_intro. intros w res w'.
  unfold updateVertexDrag. unfold bind at 1, get at 1.
  cbn beta iota.
  destruct (SceneState.draggedVertex (store w));
    [|run_action; intros [= <- <-]; auto].
  unfold bind at 1.
  destruct (selectedMesh_store w) as [r ->].
  run_action. split_cases; intros [= <- <-]; auto.
Qed.

End BatchAndDrag.

(** ** The bound on the history stack *)

Lemma slice0_length {A} (l : list A) (e : Z) :
  length (JS.slice0 l e) <= length l.
Proof.
  unfold JS.slice0. destruct (e <? 0)%Z; rewrite List.length_firstn; lia.
Qed.

Lemma slice0_all {A} (l : list A) :
  JS.slice0 l (Z.of_nat (length l)) = l.
Proof.
  unfold JS.slice0. destruct (Z.ltb_spec (Z.of_nat (length l)) 0); [lia|].
  rewrite Nat2Z.id. apply List.firstn_all.
Qed.

Lemma pushed_bound (s : HistoryState.t) (state : SceneState.t) :
  length (SceneState.history state) <= 50 ->
  length (pushed s state) <= 50.
Proof.
  intros Hb. unfold pushed.
  pose proof (slice0_length (SceneState.history state)
                (SceneState.historyIndex state + 1)) as Hs.
  destruct (Nat.ltb_spec 50
              (length (JS.slice0 (SceneState.history state)
                         (SceneState.historyIndex state + 1) ++ [s]))) as [Hlt|Hge].
  - unfold JS.shift. rewrite List.length_tl.
    rewrite List.length_app in *. cbn [length] in *. lia.
  - exact Hge.
Qed.

(** With the pointer on the last snapshot, a commit appends; on a full
    stack it drops the oldest snapshot first. *)
Lemma pushed_at_top (s : HistoryState.t) (state : SceneState.t) :
  SceneState.historyIndex state
  = (Z.of_nat (length (SceneState.history state)) - 1)%Z ->
  length (SceneState.history state) <= 50 ->
  pushed s state
  = if (length (SceneState.history state) <? 50)%nat
    then (SceneState.history state ++ [s])%list
    else (tl (SceneState.history state) ++ [s])%list.
Proof.
  intros Hi Hb. unfold pushed. rewrite Hi.
  replace (Z.of_nat (length (SceneState.history state)) - 1 + 1)%Z
    with (Z.of_nat (length (SceneState.history state))) by lia.
  rewrite slice0_all, List.length_app. cbn [length].
  destruct (Nat.ltb_spec (length (SceneState.history state)) 50) as [Hlt|Hge].
  - destruct (Nat.ltb_spec 50 (length (SceneState.history state) + 1));
      [lia | reflexivity].
  - destruct (Nat.ltb_spec 50 (length (SceneState.history state) + 1));
      [|lia].
    unfold JS.shift. destruct (SceneState.history state); [cbn in *; lia|].
    reflexivity.
Qed.

Section Bound.
Context {L : ThreeLib} {H : Host}.

Lemma saveToHistory_ok (w : World) : outcome saveToHistory w = Ok tt.
Proof.
  destruct (saveToHistory_spec w) as (s & w1 & _ & _ & E).
  unfold outcome. rewrite E. reflexivity.
Qed.

Lemma saveToHistory_store (w : World) :
  exists s, store (after saveToHistory w) = committed s (store w).
Proof.
  destruct (saveToHistory_spec w) as (s & w1 & _ & _ & E).
  exists s. unfold after. rewrite E. reflexivity.
Qed.

Lemma saveToHistory_bound (w : World) :
  length (SceneState.history (store w)) <= 50 ->
  length (SceneState.history (store (after saveToHistory w))) <= 50.
Proof.
  intros Hb. destruct (saveToHistory_store w) as [s ->].
  unfold committed. store_simpl. apply pushed_bound, Hb.
Qed.

Lemma repeat_saveToHistory_bound (n : nat) (w : World) :
  length (SceneState.history (store w)) <= 50 ->
  length (SceneState.history (store (after (repeatM n saveToHistory) w))) <= 50.
Proof.
  revert w. induction n as [|n IH]; intros w Hb; [exact Hb|].
  cbn [repeatM]. unfold after, bind.
  pose proof (saveToHistory_ok w) as Ho.
  pose proof (saveToHistory_bound w Hb) as Hb'.
  unfold outcome, after in Ho, Hb'.
  destruct (saveToHistory w) as [[[]|] w1]; try discriminate.
  cbn [fst snd] in *. apply (IH w1 Hb').
Qed.

Lemma runTimers_bound (w : World) :
  length (SceneState.history (store w)) <= 50 ->
  length (SceneState.history (store (after runTimers w))) <= 50.
Proof.
  intros Hb. unfold runTimers, after.
  apply (repeat_saveToHistory_bound (timers w)
           (mkWorld (store w) (heap w) (nextRef w) (uuidCount w) (log w) 0)).
  exact Hb.
Qed.

(** [undo] and [redo] move the pointer and never touch the stack. *)
Lemma undo_history (w : World) :
  SceneState.history (store (after undo w)) = SceneState.history (store w).
Proof.
  unfold undo, restore. run_action. split_cases; reflexivity.
Qed.

Lemma redo_history (w : World) :
  SceneState.history (store (after redo w)) = SceneState.history (store w).
Proof.
  unfold redo, restore. run_action. split_cases; reflexivity.
Qed.

Lemma step_bound (w w' : World) :
  Step w w' ->
  length (SceneState.history (store w)) <= 50 ->
  length (SceneState.history (store w')) <= 50.
Proof.
  intros HS Hb.
  destruct HS as [object name w|id w|id w|id w|id name w|objectId groupId w
                 |objectId w|objectIds groupId w|idx pos w|pos w|w|w|w|w].
  - destruct (addObject_isEdit object name) as [_ K].
    destruct (K w) as [-> _]. exact Hb.
  - destruct (removeObject_isEdit id) as [_ K].
    destruct (K w) as [-> _]. exact Hb.
  - destruct (toggleVisibility_isEdit id) as [_ K].
    destruct (K w) as [-> _]. exact Hb.
  - destruct (toggleLock_isEdit id) as [_ K].
    destruct (K w) as [-> _]. exact Hb.
  - destruct (updateObjectName_isEdit id name) as [_ K].
    destruct (K w) as [-> _]. exact Hb.
  - destruct (addObjectToGroup_isEdit objectId groupId) as [_ K].
    destruct (K w) as [-> _]. exact Hb.
  - destruct (removeObjectFromGroup_isEdit objectId) as [_ K].
    destruct (K w) as [-> _]. exact Hb.
  - destruct (moveObjectsToGroup_isEdit objectIds groupId) as [_ K].
    destruct (K w) as [-> _]. exact Hb.
  - destruct (startVertexDrag_keepsHistory idx pos w) as [-> _].
    exact Hb.
  - destruct (updateVertexDrag_keepsHistory pos w) as [-> _]. exact Hb.
  - apply saveToHistory_bound, Hb.
  - apply runTimers_bound, Hb.
  - rewrite undo_history. exact Hb.
  - rewrite redo_history. exact Hb.
Qed.

(** The stack never holds more than 50 snapshots. *)
Lemma reachable_bound (w : World) :
  Reachable w -> length (SceneState.history (store w)) <= 50.
Proof.
  induction 1 as [w Hh _|w w' _ IH HS].
  - rewrite Hh. cbn. lia.
  - exact (step_bound w w' HS IH).
Qed.

End Bound.

(** ** Sequences of commits, and undo from the top *)

Section Commits.
Context {L : ThreeLib} {H : Host}.

Lemma commit_topped (e : M unit) (w : World) :
  isEdit e ->
  topped (store w) ->
  outcome (commit e) w = Ok tt
  /\ topped (store (after (commit e) w))
  /\ exists s,
       SceneState.history (store (after (commit e) w))
       = if (length (SceneState.history (store w)) <? 50)%nat
         then (SceneState.history (store w) ++ [s])%list
         else (tl (SceneState.history (store w)) ++ [s])%list.
Proof.
  intros [Hok Hkeep] [Hi Hb]. unfold commit, outcome, after, bind.
  pose proof (Hok w) as Ho. destruct (Hkeep w) as [Hh Hx].
  unfold outcome, after in Ho, Hh, Hx.
  destruct (e w) as [[[]|] w1]; try discriminate. cbn [fst snd] in *.
  destruct (saveToHistory_spec w1) as (s & w2 & _ & _ & E). rewrite E.
  cbn [fst snd]. unfold committed. store_simpl.
  assert (Hp : pushed s (store w1)
               = if (length (SceneState.history (store w)) <? 50)%nat
                 then (SceneState.history (store w) ++ [s])%list
                 else (tl (SceneState.history (store w)) ++ [s])%list).
  { rewrite <- Hh. apply pushed_at_top; rewrite ?Hh, ?Hx; assumption. }
  split; [reflexivity|]. split.
  - split; [reflexivity|]. apply pushed_bound. rewrite Hh. exact Hb.
  - exists s. exact Hp.
Qed.

Lemma commitAll_app (l1 l2 : list (M unit)) (w : World) :
  outcome (commitAll l1) w = Ok tt ->
  commitAll (l1 ++ l2) w = commitAll l2 (after (commitAll l1) w).
Proof.
  unfold commitAll. revert w. induction l1 as [|e l1 IH]; intros w Ho.
  - reflexivity.
  - cbn [app forEachM] in *. unfold bind, outcome, after in *.
    destruct (commit e w) as [[[]|] w1]; [|discriminate].
    cbn [fst snd] in *. apply IH. exact Ho.
Qed.

(** While the stack is not full, commits append to it. *)
Lemma commitAll_grows (edits : list (M unit)) (w : World) :
  Forall isEdit edits ->
  topped (store w) ->
  length (SceneState.history (store w)) + length edits <= 50 ->
  outcome (commitAll edits) w = Ok tt
  /\ topped (store (after (commitAll edits) w))
  /\ exists ss,
       SceneState.history (store (after (commitAll edits) w))
       = (SceneState.history (store w) ++ ss)%list
       /\ length ss = length edits.
Proof.
  unfold commitAll. intros HE. revert w.
  induction HE as [|e edits He HE IH]; intros w Ht Hlen.
  - split; [reflexivity|]. split; [exact Ht|]. exists [].
    split; [symmetry; apply List.app_nil_r | reflexivity].
  - cbn [forEachM length] in *.
    destruct (commit_topped e w He Ht) as (Ho & Ht1 & s & Hs).
    destruct (Nat.ltb_spec (length (SceneState.history (store w))) 50);
      [|lia].
    unfold bind, outcome, after in *.
    destruct (commit e w) as [[[]|] w1]; try discriminate.
    cbn [fst snd] in *.
    destruct (IH w1 Ht1) as (Ho2 & Ht2 & ss & Hss & Hl).
    { rewrite Hs, List.length_app. cbn [length]. lia. }
    split; [exact Ho2|]. split; [exact Ht2|].
    exists (s :: ss). split; [|cbn [length]; lia].
    rewrite Hss, Hs, <- List.app_assoc. reflexivity.
Qed.

Lemma undo_at_floor (w : World) :
  (SceneState.historyIndex (store w) <= 0)%Z ->
  undo w = (Ok tt, w).
Proof.
  intros Hi. unfold undo. run_action.
  destruct (Z.leb_spec (SceneState.historyIndex (store w)) 0); [|lia].
  reflexivity.
Qed.

Lemma redo_at_top (w : World) :
  (Z.of_nat (length (SceneState.history (store w))) - 1
   <= SceneState.historyIndex (store w))%Z ->
  redo w = (Ok tt, w).
Proof.
  intros Hi. unfold redo. run_action.
  destruct (Z.leb_spec
              (Z.of_nat (length (SceneState.history (store w))) - 1)
              (SceneState.historyIndex (store w))); [|lia].
  reflexivity.
Qed.

Lemma at_nth {A} (l : list A) (i : Z) :
  (0 <= i)%Z -> JS.at_ l i = nth_error l (Z.to_nat i).
Proof.
  intros Hi. unfold JS.at_. destruct (Z.ltb_spec i 0); [lia | reflexivity].
Qed.

Lemma undo_in_range (w : World) (h : HistoryState.t) :
  (0 < SceneState.historyIndex (store w))%Z ->
  nth_error (SceneState.history (store w))
    (Z.to_nat (SceneState.historyIndex (store w) - 1)) = Some h ->
  undo w
  = (Ok tt,
     setStore
       (restore h (SceneState.historyIndex (store w) - 1)%Z
          (0 <? SceneState.historyIndex (store w) - 1)%Z true (store w))
       w).
Proof.
  intros Hi Hn. unfold undo. run_action.
  destruct (Z.leb_spec (SceneState.historyIndex (store w)) 0); [lia|].
  rewrite at_nth by lia. rewrite Hn. reflexivity.
Qed.

Lemma redo_in_range (w : World) (h : HistoryState.t) :
  (SceneState.historyIndex (store w)
   < Z.of_nat (length (SceneState.history (store w))) - 1)%Z ->
  JS.at_ (SceneState.history (store w))
    (SceneState.historyIndex (store w) + 1)%Z = Some h ->
  redo w
  = (Ok tt,
     setStore
       (restore h (SceneState.historyIndex (store w) + 1)%Z true
          (SceneState.historyIndex (store w) + 1
           <? Z.of_nat (length (SceneState.history (store w))) - 1)%Z
          (store w))
       w).
Proof.
  intros Hi Hn. unfold redo. run_action.
  destruct (Z.leb_spec
              (Z.of_nat (length (SceneState.history (store w))) - 1)
              (SceneState.historyIndex (store w))); [lia|].
  rewrite Hn. reflexivity.
Qed.

(** From a pointer [i] inside the stack, [k <= i] undos step the pointer
    down to [i - k], and the objects are those of the snapshot it
    designates. *)
Lemma undoTimes_steps (k : nat) (w : World) :
  (Z.of_nat k <= SceneState.historyIndex (store w))%Z ->
  (SceneState.historyIndex (store w)
   < Z.of_nat (length (SceneState.history (store w))))%Z ->
  outcome (undoTimes k) w = Ok tt
  /\ SceneState.history (store (after (undoTimes k) w))
     = SceneState.history (store w)
  /\ SceneState.historyIndex (store (after (undoTimes k) w))
     = (SceneState.historyIndex (store w) - Z.of_nat k)%Z
  /\ (0 < k ->
      option_map HistoryState.objects
        (nth_error (SceneState.history (store w))
           (Z.to_nat (SceneState.historyIndex (store w) - Z.of_nat k)))
      = Some (SceneState.objects (store (after (undoTimes k) w)))).
Proof.
  unfold undoTimes. revert w. induction k as [|k IH]; intros w Hk Hlt.
  - cbn [repeatM]. unfold outcome, after, ret. cbn [fst snd].
    repeat split; [lia | lia].
  - cbn [repeatM].
    destruct (nth_error (SceneState.history (store w))
                (Z.to_nat (SceneState.historyIndex (store w) - 1)))
      as [h|] eqn:Hn.
    2:{ apply nth_error_None in Hn. lia. }
    pose proof (undo_in_range w h ltac:(lia) Hn) as Hu.
    unfold bind, outcome, after in *. rewrite Hu. cbn [fst snd].
    set (w1 := setStore _ w) in *.
    assert (Hh1 : SceneState.history (store w1)
                  = SceneState.history (store w)) by reflexivity.
    assert (Hi1 : SceneState.historyIndex (store w1)
                  = (SceneState.historyIndex (store w) - 1)%Z) by reflexivity.
    destruct (IH w1) as (Ho & Hh & Hi & Hobj).
    { rewrite Hi1. lia. }
    { rewrite Hi1, Hh1. lia. }
    split; [exact Ho|]. split; [congruence|]. split; [rewrite Hi, Hi1; lia|].
    intros _. destruct k as [|k'].
    + cbn [repeatM ret fst snd]. subst w1. unfold restore. store_simpl.
      replace (SceneState.historyIndex (store w) - Z.of_nat 1)%Z
        with (SceneState.historyIndex (store w) - 1)%Z by lia.
      rewrite Hn. reflexivity.
    + rewrite <- Hobj by lia. rewrite Hh1, Hi1. do 3 f_equal. lia.
Qed.

End Commits.

(** ** Persisted ids through the history *)

Section PersistedIds.
Context {L : ThreeLib} {H : Host}.

(** A snapshot keeps the identity of every entry: local id, name, flags,
    group and persisted id; only the [THREE.Object3D] is a clone. *)
Lemma snapshot_keeps_ids (w : World) (s : HistoryState.t) (w' : World) :
  snapshot w = (Ok s, w') ->
  List.map (fun o => (SceneObject.id o, SceneObject.firestoreId o))
    (HistoryState.objects s)
  = List.map (fun o => (SceneObject.id o, SceneObject.firestoreId o))
      (SceneState.objects (store w)).
Proof.
  intros E. destruct (snapshot_ok w) as (s0 & w0 & E0 & _ & F & _).
  rewrite E in E0. injection E0 as <- <-.
  induction F as [|o c l l' Hc F IH]; [reflexivity|].
  cbn [List.map]. rewrite IH, Hc. reflexivity.
Qed.

(** With the pointer on a snapshot that has one before it, [undo] followed
    by [redo] brings back the objects of the snapshot the pointer was on,
    persisted ids included. *)
Lemma undo_then_redo (w : World) (h : HistoryState.t) :
  (0 < SceneState.historyIndex (store w))%Z ->
  nth_error (SceneState.history (store w))
    (Z.to_nat (SceneState.historyIndex (store w))) = Some h ->
  outcome undo w = Ok tt
  /\ outcome redo (after undo w) = Ok tt
  /\ SceneState.objects (store (after redo (after undo w)))
     = HistoryState.objects h
  /\ SceneState.historyIndex (store (after redo (after undo w)))
     = SceneState.historyIndex (store w).
Proof.
  intros Hi Hn.
  assert (Hlt : (SceneState.historyIndex (store w)
                 < Z.of_nat (length (SceneState.history (store w))))%Z).
  { assert (Z.to_nat (SceneState.historyIndex (store w))
            < length (SceneState.history (store w))).
    { apply List.nth_error_Some. rewrite Hn. discriminate. }
    lia. }
  destruct (nth_error (SceneState.history (store w))
              (Z.to_nat (SceneState.historyIndex (store w) - 1)))
    as [h0|] eqn:Hn0.
  2:{ apply nth_error_None in Hn0. lia. }
  pose proof (undo_in_range w h0 Hi Hn0) as Hu.
  unfold outcome, after. rewrite Hu. cbn [fst snd].
  set (w1 := setStore _ w).
  assert (Hx : SceneState.historyIndex (store w1)
               = (SceneState.historyIndex (store w) - 1)%Z) by reflexivity.
  assert (Hh : SceneState.history (store w1) = SceneState.history (store w))
    by reflexivity.
  rewrite (redo_in_range w1 h).
  - cbn [fst snd]. split; [reflexivity|]. split; [reflexivity|].
    split; [reflexivity|]. unfold restore at 1. store_simpl.
    rewrite Hx. lia.
  - rewrite Hx, Hh. lia.
  - rewrite Hx, Hh, at_nth by lia. rewrite <- Hn. f_equal. lia.
Qed.

End PersistedIds.

(** C2.  The history stack never holds more than 50 snapshots, and the
    oldest goes first: after 51 committed edits from an empty history the
    stack has exactly 50 snapshots, the first one is gone and the others are
    kept in order; from there [undo] steps the pointer back one at a time, 49
    times, onto the earliest snapshot kept, and a 50th [undo] does
    nothing. *)
Theorem C2_history_stack_bounded {L : ThreeLib} {H : Host}
    (edits : list (M unit)) (w0 : World) :
  Forall isEdit edits ->
  length edits = 51 ->
  SceneState.history (store w0) = [] ->
  SceneState.historyIndex (store w0) = (-1)%Z ->
  let w1 := after (commitAll (firstn 1 edits)) w0 in
  let w50 := after (commitAll (firstn 50 edits)) w0 in
  let w51 := after (commitAll edits) w0 in
  let floor := after (undoTimes 49) w51 in
  (forall w, Reachable w -> length (SceneState.history (store w)) <= 50)
  /\ outcome (commitAll edits) w0 = Ok tt
  /\ length (SceneState.history (store w50)) = 50
  /\ length (SceneState.history (store w51)) = 50
  /\ (exists first kept last,
         SceneState.history (store w1) = [first]
         /\ SceneState.history (store w50) = first :: kept
         /\ SceneState.history (store w51) = (kept ++ [last])%list)
  /\ SceneState.historyIndex (store w51) = 49%Z
  /\ (forall k, k <= 49 ->
        outcome (undoTimes k) w51 = Ok tt
        /\ SceneState.historyIndex (store (after (undoTimes k) w51))
           = (49 - Z.of_nat k)%Z)
  /\ undo floor = (Ok tt, floor)
  /\ option_map HistoryState.objects (head (SceneState.history (store w51)))
     = Some (SceneState.objects (store floor)).
Proof.
  intros HE Hlen Hh0 Hi0 w1 w50 w51 floor.
  assert (Ht0 : topped (store w0)).
  { unfold topped. rewrite Hh0, Hi0. cbn. split; lia. }
  (* the first commit *)
  destruct edits as [|e1 rest]; [discriminate|]. cbn [length] in Hlen.
  inversion HE as [|? ? He1 HErest]; subst.
  assert (Hrest : rest = (firstn 49 rest ++ skipn 49 rest)%list)
    by (symmetry; apply List.firstn_skipn).
  destruct (skipn 49 rest) as [|e51 tail] eqn:Hsk.
  { apply (f_equal (@length _)) in Hsk. rewrite List.length_skipn in Hsk.
    cbn in Hsk. lia. }
  assert (tail = []).
  { apply (f_equal (@length _)) in Hsk. rewrite List.length_skipn in Hsk.
    cbn [length] in Hsk. destruct tail; [reflexivity | cbn in Hsk; lia]. }
  subst tail.
  assert (H49 : length (firstn 49 rest) = 49)
    by (rewrite List.length_firstn; lia).
  assert (HE49 : Forall isEdit (firstn 49 rest)).
  { apply Forall_take. exact HErest. }
  assert (He51 : isEdit e51).
  { apply (proj1 (List.Forall_forall isEdit rest) HErest). rewrite Hrest.
    apply List.in_or_app. right. left. reflexivity. }
  destruct (commitAll_grows [e1] w0) as (Ho1 & Ht1 & ss1 & Hs1 & Hl1).
  { constructor; [exact He1 | constructor]. }
  { exact Ht0. }
  { rewrite Hh0. cbn. lia. }
  rewrite Hh0 in Hs1. cbn [app] in Hs1.
  destruct ss1 as [|first [|? ?]]; try discriminate. clear Hl1.
  change (firstn 1 (e1 :: rest)) with [e1] in w1. fold w1 in Ho1, Ht1, Hs1.
  (* the next 49 *)
  assert (E50 : firstn 50 (e1 :: rest) = ([e1] ++ firstn 49 rest)%list)
    by reflexivity.
  assert (Hw50 : commitAll (firstn 50 (e1 :: rest)) w0
                 = commitAll (firstn 49 rest) w1).
  { rewrite E50. apply commitAll_app. exact Ho1. }
  destruct (commitAll_grows (firstn 49 rest) w1 HE49 Ht1)
    as (Ho50 & Ht50 & kept & Hs50 & Hl50).
  { rewrite Hs1, H49. cbn. lia. }
  unfold outcome, after in Ho50, Ht50, Hs50. rewrite <- Hw50 in Ho50, Ht50, Hs50.
  fold (after (commitAll (firstn 50 (e1 :: rest))) w0) in Ht50, Hs50.
  fold (outcome (commitAll (firstn 50 (e1 :: rest))) w0) in Ho50.
  fold w50 in Ht50, Hs50. rewrite Hs1 in Hs50. cbn [app] in Hs50.
  assert (Hl : length (SceneState.history (store w50)) = 50).
  { rewrite Hs50. cbn [length]. lia. }
  (* the 51st *)
  assert (E51 : e1 :: rest = (firstn 50 (e1 :: rest) ++ [e51])%list).
  { rewrite E50. cbn [app]. f_equal. exact Hrest. }
  assert (Hw51 : commitAll (e1 :: rest) w0 = commitAll [e51] w50).
  { rewrite E51 at 1. apply commitAll_app. exact Ho50. }
  destruct (commit_topped e51 w50 He51 Ht50) as (Ho51 & Ht51 & last & Hs51).
  rewrite Hl in Hs51. cbn [Nat.ltb Nat.leb] in Hs51.
  replace (50 <? 50)%nat with false in Hs51 by reflexivity.
  rewrite Hs50 in Hs51. cbn [tl] in Hs51.
  assert (Hc : commitAll [e51] w50
               = (outcome (commit e51) w50, after (commit e51) w50)).
  { unfold commitAll, outcome, after. cbn [forEachM]. unfold bind, ret.
    destruct (commit e51 w50) as [[[]|] w']; reflexivity. }
  assert (Hout : outcome (commitAll (e1 :: rest)) w0 = Ok tt).
  { unfold outcome. rewrite Hw51, Hc. exact Ho51. }
  assert (Hw : w51 = after (commit e51) w50).
  { unfold w51, after. rewrite Hw51, Hc. reflexivity. }
  rewrite <- Hw in Ht51, Hs51.
  assert (Hl51 : length (SceneState.history (store w51)) = 50).
  { rewrite Hs51, List.length_app. cbn [length]. lia. }
  destruct Ht51 as [Hi51 _]. rewrite Hl51 in Hi51.
  split; [exact (@reachable_bound L H)|].
  split; [exact Hout|]. split; [exact Hl|]. split; [exact Hl51|].
  split; [exists first, kept, last; auto|].
  split; [rewrite Hi51; lia|].
  split.
  - intros k Hk.
    destruct (undoTimes_steps k w51) as (Ho & _ & Hi & _).
    { rewrite Hi51. lia. }
    { rewrite Hi51, Hl51. lia. }
    split; [exact Ho|]. rewrite Hi, Hi51. lia.
  - destruct (undoTimes_steps 49 w51) as (_ & _ & Hi & Hobj).
    { rewrite Hi51. lia. }
    { rewrite Hi51, Hl51. lia. }
    fold floor in Hi, Hobj. split.
    + apply undo_at_floor. rewrite Hi, Hi51. lia.
    + rewrite <- Hobj by lia. rewrite Hi51.
      destruct (SceneState.history (store w51)); reflexivity.
Qed.

Lemma C2_history_stack_bounded_witness :
  length (repeat (toggleLock (H := referenceHost) "box") 51) = 51
  /\ SceneState.history (store boxScene) = []
  /\ length
       (SceneState.history
          (store
             (after
                (commitAll
                   (repeat (toggleLock (H := referenceHost) "box") 51))
                boxScene))) = 50
  /\ SceneState.historyIndex
       (store
          (after
             (commitAll
                (repeat (toggleLock (H := referenceHost) "box") 51))
             boxScene)) = 49%Z.
Proof.
  destruct (C2_history_stack_bounded (L := referenceThree) (H := referenceHost)
              (repeat (toggleLock (H := referenceHost) "box") 51) boxScene)
    as (_ & _ & _ & Hlen & _ & Hidx & _).
  - apply List.Forall_forall. intros e He.
    apply List.repeat_spec in He. subst e. apply toggleLock_isEdit.
  - reflexivity.
  - reflexivity.
  - reflexivity.
  - split; [reflexivity|]. split; [reflexivity|].
    split; [exact Hlen | exact Hidx].
Defined.

(** ** The lock cascade *)

Lemma inLockedGroup_true (state : SceneState.t) (obj : SceneObject.t) :
  inLockedGroup state (SceneObject.groupId obj) = true
  <-> memberOfLockedGroup state obj.
Proof.
  unfold inLockedGroup, memberOfLockedGroup, JS.truthyStr, str, JS.nullish.
  split.
  - destruct (SceneObject.groupId obj) as [gid|]; [|discriminate].
    destruct (String.eqb_spec gid ""); cbn [negb]; [discriminate|].
    destruct (JS.find _ _) as [group|] eqn:E; [|discriminate].
    intros Hl. exists gid, group. auto.
  - intros (gid & group & -> & Hne & Hf & Hl).
    destruct (String.eqb_spec gid ""); [contradiction|]. cbn [negb].
    rewrite Hf. exact Hl.
Qed.

(** [isObjectLocked] is the cascade: the object is locked, or it is a
    member of a locked group. *)
Lemma isObjectLocked_true (state : SceneState.t) (id : string) :
  isObjectLocked state id = true
  <-> exists obj,
        JS.find (hasId id) (SceneState.objects state) = Some obj
        /\ (SceneObject.locked obj = true \/ memberOfLockedGroup state obj).
Proof.
  unfold isObjectLocked. split.
  - destruct (JS.find _ _) as [obj|]; [|discriminate].
    destruct (SceneObject.locked obj) eqn:El.
    + intros _. exists obj. auto.
    + intros Hg. exists obj. split; [reflexivity|].
      right. apply inLockedGroup_true, Hg.
  - intros (obj & -> & [Hl|Hg]).
    + rewrite Hl. reflexivity.
    + destruct (SceneObject.locked obj); [reflexivity|].
      apply inLockedGroup_true, Hg.
Qed.

(** C4.  On an object that is locked, or that is a member of a locked
    group, rename, toggle-visibility and delete return without an error and
    leave the whole world as it was: the store, the heap, no gateway call,
    no commit scheduled. *)
Theorem C4_locked_object_is_frozen {H : Host} (w : World)
    (id name : string) (obj : SceneObject.t) :
  JS.find (hasId id) (SceneState.objects (store w)) = Some obj ->
  SceneObject.locked obj = true \/ memberOfLockedGroup (store w) obj ->
  updateObjectName id name w = (Ok tt, w)
  /\ toggleVisibility id w = (Ok tt, w)
  /\ removeObject id w = (Ok tt, w).
Proof.
  intros Hf Hlock.
  assert (Hc : SceneObject.locked obj = true
               \/ (SceneObject.locked obj = false
                   /\ inLockedGroup (store w) (SceneObject.groupId obj) = true)).
  { destruct (SceneObject.locked obj); [left; reflexivity|].
    destruct Hlock as [?|Hg]; [discriminate|].
    right. split; [reflexivity | apply inLockedGroup_true, Hg]. }
  unfold updateObjectName, toggleVisibility, removeObject, bind, get.
  rewrite Hf.
  destruct Hc as [-> | [-> ->]]; repeat split; reflexivity.
Qed.

Lemma C4_locked_object_is_frozen_witness :
  updateObjectName (H := referenceHost) "door" "Gate" lockedScene
    = (Ok tt, lockedScene)
  /\ toggleVisibility (H := referenceHost) "door" lockedScene
     = (Ok tt, lockedScene)
  /\ removeObject (H := referenceHost) "door" lockedScene
     = (Ok tt, lockedScene).
Proof.
  apply (C4_locked_object_is_frozen (H := referenceHost) lockedScene
           "door" "Gate"
           (SceneObject.mk "door" 0 "Door" true true (Some "walls")
              (Some "doc-door"))).
  - reflexivity.
  - left. reflexivity.
Defined.

(** C10.  [toggleLock] does not look at the object's own flag: on an object
    of the store that is not a member of a locked group it flips [locked],
    also from locked to unlocked; it returns without a change only for a
    member of a locked group. *)
Theorem C10_toggleLock_flips_unless_group_locked {H : Host} (w : World)
    (id : string) (obj : SceneObject.t) :
  JS.find (hasId id) (SceneState.objects (store w)) = Some obj ->
  (~ memberOfLockedGroup (store w) obj ->
   outcome (toggleLock id) w = Ok tt
   /\ JS.find (hasId id) (SceneState.objects (store (after (toggleLock id) w)))
      = Some (SceneObject.withLocked (negb (SceneObject.locked obj)) obj))
  /\ (memberOfLockedGroup (store w) obj -> toggleLock id w = (Ok tt, w)).
Proof.
  intros Hf. split.
  - intros Hn.
    assert (Hg : inLockedGroup (store w) (SceneObject.groupId obj) = false).
    { destruct (inLockedGroup _ _) eqn:E; [|reflexivity].
      apply inLockedGroup_true in E. contradiction. }
    unfold toggleLock. run_action. rewrite Hf, Hg.
    destruct (allTruthy _); run_action;
      rewrite ?(find_map_same_id id
                  (SceneObject.withLocked (negb (SceneObject.locked obj))))
        by reflexivity;
      rewrite ?Hf; split; reflexivity.
  - intros Hg. apply inLockedGroup_true in Hg.
    unfold toggleLock, bind, get. rewrite Hf, Hg. reflexivity.
Qed.

Lemma C10_toggleLock_flips_unless_group_locked_witness :
  outcome (toggleLock (H := referenceHost) "box") lockedBoxScene = Ok tt
  /\ JS.find (hasId "box")
       (SceneState.objects
          (store (after (toggleLock (H := referenceHost) "box") lockedBoxScene)))
     = Some (SceneObject.mk "box" 0 "Box" true false None (Some "doc-box")).
Proof.
  apply (proj1 (C10_toggleLock_flips_unless_group_locked
                  (H := referenceHost) lockedBoxScene "box"
                  (SceneObject.mk "box" 0 "Box" true true None
                     (Some "doc-box"))
                  eq_refl)).
  intros (gid & group & Hgid & _). discriminate.
Defined.

(** ** Group membership *)

Lemma includes_In (s : string) (l : list string) :
  JS.includes s l = true <-> In s l.
Proof.
  unfold JS.includes. rewrite List.existsb_exists. split.
  - intros (x & Hin & Heq). apply String.eqb_eq in Heq. subst. exact Hin.
  - intros Hin. exists s. split; [exact Hin | apply String.eqb_refl].
Qed.

Lemma bidirectionalb_spec (state : SceneState.t) :
  bidirectionalb state = true <-> bidirectional state.
Proof.
  unfold bidirectionalb, bidirectional. rewrite List.forallb_forall. split.
  - intros Hb obj group Ho Hg. specialize (Hb obj Ho).
    rewrite List.forallb_forall in Hb. specialize (Hb group Hg).
    apply Bool.eqb_prop in Hb. rewrite <- includes_In, <- Hb.
    apply iff_sym, bool_decide_eq_true.
  - intros Hb obj Ho. rewrite List.forallb_forall. intros group Hg.
    specialize (Hb obj group Ho Hg).
    destruct (JS.includes _ _) eqn:E.
    + apply includes_In, Hb in E. rewrite bool_decide_eq_true_2 by exact E.
      reflexivity.
    + rewrite bool_decide_eq_false_2; [reflexivity|].
      intros Hc. apply Hb, includes_In in Hc. congruence.
Qed.

(** C3 (code defect).  [addObjectToGroup] breaks the bidirectional
    membership when the object already belongs to another group: the chair
    of the kitchen, added to the hall, names the hall in [groupId] and is
    still listed by the kitchen.  [moveObjectsToGroup], on the same input,
    takes it out of the kitchen first. *)
Theorem C3_addObjectToGroup_leaves_old_membership :
  let w' := after (addObjectToGroup (H := referenceHost) "chair" "hall")
              twoGroups in
  let w'' := after (moveObjectsToGroup (H := referenceHost) ["chair"]
                      (Some "hall")) twoGroups in
  bidirectionalb (store twoGroups) = true
  /\ List.map SceneObject.groupId (SceneState.objects (store w'))
     = [Some "hall"]
  /\ List.map Group.objectIds (SceneState.groups (store w'))
     = [["chair"]; ["chair"]]
  /\ bidirectionalb (store w') = false
  /\ List.map Group.objectIds (SceneState.groups (store w''))
     = [[]; ["chair"]]
  /\ bidirectionalb (store w'') = true.
Proof.
  cbv zeta. repeat split; vm_compute; reflexivity.
Qed.

(** ** Creating an object *)

Section Create.
Context {H : Host}.

Lemma map_attach_fresh (id : string) (f : option string)
    (l : list SceneObject.t) :
  (forall obj, In obj l -> SceneObject.id obj <> id) ->
  List.map
    (fun obj =>
       if hasId id obj then SceneObject.withFirestoreId f obj else obj) l
  = l.
Proof.
  intros Hfresh. induction l as [|o l IH]; [reflexivity|].
  cbn [List.map]. rewrite IH by (intros; apply Hfresh; right; assumption).
  unfold hasId. destruct (String.eqb_spec (SceneObject.id o) id) as [E|_].
  - exfalso. apply (Hfresh o); [left; reflexivity | exact E].
  - reflexivity.
Qed.

(** What [addObject] does: the entry is appended at once; in a project the
    create request is sent next, and its answer, if the call resolves,
    becomes the persisted id of the entry; a commit is scheduled. *)
Lemma addObject_spec (object : nat) (name : string) (w : World) :
  freshUuid w ->
  let appended :=
    SceneState.setObjects
      (SceneState.objects (store w) ++ [newEntry w object name])%list
      (store w) in
  addObject object name w
  = (Ok tt,
     mkWorld
       (SceneState.setObjects
          (SceneState.objects (store w)
           ++ [SceneObject.withFirestoreId (persistedId w object name)
                 (newEntry w object name)])%list
          (store w))
       (heap w) (nextRef w) (S (uuidCount w))
       (if inProject (store w)
        then (log w
              ++ [mkGatewayEvent (createRequest w object name)
                    (gatewayReply (length (log w))
                       (createRequest w object name))
                    appended])%list
        else log w)
       (S (timers w))).
Proof.
  intros Hfresh appended. unfold addObject, persistedId, inProject.
  run_action. fold (createRequest w object name).
  destruct (allTruthy _); run_action; [|reflexivity].
  destruct (gatewayReply _ _) as [fid|]; run_action; [|reflexivity].
  rewrite List.map_app, map_attach_fresh by exact Hfresh.
  cbn [List.map]. unfold hasId, newEntry. cbn [SceneObject.id].
  rewrite String.eqb_refl. reflexivity.
Qed.

End Create.

(** C5 (as amended).  From an empty scene, creating the object A and
    committing gives a history of length 1 with the pointer at 0.  The empty
    scene itself was never committed, so a following [undo] changes nothing:
    the pointer stays at 0 and the object list still holds A.  A following
    [redo] changes nothing either: the list holds A, with the persisted id
    the create call gave it, if any. *)
Theorem C5_first_commit_cannot_be_undone {H : Host} (w0 : World)
    (object : nat) (name : string) :
  SceneState.objects (store w0) = [] ->
  SceneState.history (store w0) = [] ->
  SceneState.historyIndex (store w0) = (-1)%Z ->
  timers w0 = 0 ->
  let A :=
    SceneObject.withFirestoreId (persistedId w0 object name)
      (newEntry w0 object name) in
  let created := after (createAndCommit object name) w0 in
  let undone := after undo created in
  let redone := after redo undone in
  outcome (createAndCommit object name) w0 = Ok tt
  /\ SceneState.objects (store created) = [A]
  /\ length (SceneState.history (store created)) = 1
  /\ SceneState.historyIndex (store created) = 0%Z
  /\ outcome undo created = Ok tt
  /\ undone = created
  /\ outcome redo undone = Ok tt
  /\ redone = created.
Proof.
  intros Hobj Hh Hi Ht A. cbv zeta.
  assert (Hfresh : freshUuid w0).
  { intros obj Hin. rewrite Hobj in Hin. destruct Hin. }
  assert (Ec : exists s w2,
             createAndCommit object name w0
             = (Ok tt,
                setStore
                  (committed s (SceneState.setObjects [A] (store w0))) w2)).
  { pose proof (addObject_spec object name w0 Hfresh) as Ha. cbv zeta in Ha.
    rewrite Hobj, Ht in Ha. cbn [app] in Ha. fold A in Ha.
    unfold createAndCommit, bind. rewrite Ha.
    unfold runTimers. cbn [timers repeatM]. unfold bind, ret.
    match goal with
    | |- context [saveToHistory ?w] =>
        destruct (saveToHistory_spec w) as (s & w2 & _ & _ & Es)
    end.
    rewrite Es. exists s, w2. reflexivity. }
  destruct Ec as (s & w2 & Ec). unfold outcome at 1, after. rewrite Ec.
  cbn [fst snd].
  set (created := setStore _ w2).
  assert (Hp : pushed s (SceneState.setObjects [A] (store w0)) = [s]).
  { unfold pushed. store_simpl. rewrite Hh, Hi. reflexivity. }
  assert (Hc : store created
               = committed s (SceneState.setObjects [A] (store w0)))
    by reflexivity.
  assert (Hu : undo created = (Ok tt, created)).
  { apply undo_at_floor. rewrite Hc. unfold committed. store_simpl.
    rewrite Hp. cbn. lia. }
  assert (Hr : redo created = (Ok tt, created)).
  { apply redo_at_top. rewrite Hc. unfold committed. store_simpl.
    rewrite Hp. cbn. lia. }
  unfold outcome. rewrite Hu. cbn [fst snd]. rewrite Hr. cbn [fst snd].
  rewrite Hc. unfold committed. store_simpl. rewrite Hp.
  repeat split.
Qed.

Lemma C5_first_commit_cannot_be_undone_witness :
  SceneState.objects
    (store (after (createAndCommit (H := referenceHost) 0 "Box") emptyScene))
  = [SceneObject.mk "uuid-" 0 "Box" true false None (Some "doc-")]
  /\ after undo
       (after (createAndCommit (H := referenceHost) 0 "Box") emptyScene)
     = after (createAndCommit (H := referenceHost) 0 "Box") emptyScene.
Proof.
  destruct (C5_first_commit_cannot_be_undone (H := referenceHost)
              emptyScene 0 "Box" eq_refl eq_refl eq_refl eq_refl)
    as (_ & Hobj & _ & _ & _ & Hu & _).
  split; [exact Hobj | exact Hu].
Defined.

(** C5, counterexample to the claim as stated.  After "create the unit box,
    commit, undo" the object list is not empty: it still holds the box, and
    the history has its one snapshot with the pointer at 0. *)
Lemma C5_undo_after_first_commit_keeps_object :
  List.map SceneObject.name
    (SceneState.objects
       (store
          (after undo
             (after (createAndCommit (H := referenceHost) 0 "Box")
                emptyScene))))
  = ["Box"]
  /\ length
       (SceneState.history
          (store
             (after (createAndCommit (H := referenceHost) 0 "Box")
                emptyScene))) = 1
  /\ SceneState.historyIndex
       (store
          (after undo
             (after (createAndCommit (H := referenceHost) 0 "Box")
                emptyScene))) = 0%Z.
Proof.
  repeat split; vm_compute; reflexivity.
Qed.

(** ** Undo and redo *)

(** A light comes back from a snapshot with every field of the snapshot,
    and a handle rebuilt by [createLight] from its type, position and
    target. *)
Lemma relight_fields (l : Light.t) :
  Light.object (relight l)
  = Some (createLight (Light.type l) (Light.position l) (Light.target l))
  /\ Light.withObject None (relight l) = Light.withObject None l.
Proof. split; reflexivity. Qed.

(** The handle [createLight] builds shows nothing of the other fields of
    the light: its intensity is 1, its colour white, it casts shadows and
    is visible. *)
Lemma createLight_constants (type : LightType) (position target : list float) :
  let h := createLight type position target in
  LightHandle.kind h = type
  /\ LightHandle.position h = position
  /\ LightHandle.intensity h = 1%float
  /\ LightHandle.color h = "#ffffff"
  /\ LightHandle.castShadow h = true
  /\ LightHandle.visible h = true.
Proof. destruct type; repeat split. Qed.

(** C6 (as amended).  [undo] and [redo] do nothing when the pointer cannot
    move; otherwise they move it by exactly one and restore the snapshot it
    then designates: its objects and groups, and its lights with a live
    handle rebuilt by [createLight] from the type, the position and the
    target of the snapshot (the other fields of the light are restored on
    the light, and are not applied to the handle); the stack is untouched,
    and the object and light selections are cleared. *)
Theorem C6_undo_redo_restore (w : World) :
  let state := store w in
  let i := SceneState.historyIndex state in
  let n := Z.of_nat (length (SceneState.history state)) in
  ((i <= 0)%Z -> undo w = (Ok tt, w))
  /\ ((n - 1 <= i)%Z -> redo w = (Ok tt, w))
  /\ ((0 < i < n)%Z ->
      exists h,
        nth_error (SceneState.history state) (Z.to_nat (i - 1)) = Some h
        /\ outcome undo w = Ok tt
        /\ SceneState.historyIndex (store (after undo w)) = (i - 1)%Z
        /\ SceneState.history (store (after undo w))
           = SceneState.history state
        /\ SceneState.objects (store (after undo w)) = HistoryState.objects h
        /\ SceneState.groups (store (after undo w)) = HistoryState.groups h
        /\ SceneState.lights (store (after undo w))
           = List.map relight (HistoryState.lights h)
        /\ SceneState.selectedObject (store (after undo w)) = None
        /\ SceneState.selectedLight (store (after undo w)) = None)
  /\ ((-1 <= i < n - 1)%Z ->
      exists h,
        nth_error (SceneState.history state) (Z.to_nat (i + 1)) = Some h
        /\ outcome redo w = Ok tt
        /\ SceneState.historyIndex (store (after redo w)) = (i + 1)%Z
        /\ SceneState.history (store (after redo w))
           = SceneState.history state
        /\ SceneState.objects (store (after redo w)) = HistoryState.objects h
        /\ SceneState.groups (store (after redo w)) = HistoryState.groups h
        /\ SceneState.lights (store (after redo w))
           = List.map relight (HistoryState.lights h)
        /\ SceneState.selectedObject (store (after redo w)) = None
        /\ SceneState.selectedLight (store (after redo w)) = None).
Proof.
  cbv zeta. split; [apply undo_at_floor|]. split; [apply redo_at_top|]. split.
  - intros Hi.
    destruct (nth_error (SceneState.history (store w))
                (Z.to_nat (SceneState.historyIndex (store w) - 1)))
      as [h|] eqn:Hn.
    2:{ apply nth_error_None in Hn. lia. }
    exists h. split; [reflexivity|].
    unfold outcome, after. rewrite (undo_in_range w h) by (lia || exact Hn).
    repeat split.
  - intros Hi.
    destruct (nth_error (SceneState.history (store w))
                (Z.to_nat (SceneState.historyIndex (store w) + 1)))
      as [h|] eqn:Hn.
    2:{ apply nth_error_None in Hn. lia. }
    exists h. split; [reflexivity|].
    unfold outcome, after. rewrite (redo_in_range w h).
    + repeat split.
    + lia.
    + rewrite at_nth by lia. exact Hn.
Qed.

Lemma C6_undo_redo_restore_witness :
  exists h,
    nth_error (SceneState.history (store litScene)) (Z.to_nat (1 - 1)) = Some h
    /\ outcome undo litScene = Ok tt
    /\ SceneState.historyIndex (store (after undo litScene)) = (1 - 1)%Z
    /\ SceneState.history (store (after undo litScene))
       = SceneState.history (store litScene)
    /\ SceneState.objects (store (after undo litScene)) = HistoryState.objects h
    /\ SceneState.groups (store (after undo litScene)) = HistoryState.groups h
    /\ SceneState.lights (store (after undo litScene))
       = List.map relight (HistoryState.lights h)
    /\ SceneState.selectedObject (store (after undo litScene)) = None
    /\ SceneState.selectedLight (store (after undo litScene)) = None.
Proof.
  apply (proj1 (proj2 (proj2 (C6_undo_redo_restore litScene)))).
  cbn. lia.
Defined.

(** C6, counterexample to the claim as stated.  The snapshot holds a red
    spot light of intensity 5 that casts no shadow and is hidden; the handle
    [undo] rebuilds for it is white, of intensity 1, casts shadows and is
    visible: colour, intensity, [castShadow] and visibility of the snapshot
    are not used for the handle. *)
Lemma C6_handle_ignores_photometric_fields :
  List.map
    (fun l => (Light.intensity l, Light.color l, Light.castShadow l,
               Light.visible l))
    (SceneState.lights (store (after undo litScene)))
  = [(5%float, "#ff0000", false, false)]
  /\ List.map
       (fun l =>
          option_map
            (fun h => (LightHandle.intensity h, LightHandle.color h,
                       LightHandle.castShadow h, LightHandle.visible h))
            (Light.object l))
       (SceneState.lights (store (after undo litScene)))
     = [Some (1%float, "#ffffff", true, true)].
Proof. split; reflexivity. Qed.

(** ** Vertex drag *)

Lemma vertexIndices_triples (positions : list float) (n : nat) :
  length positions = 3 * n -> vertexIndices positions = seq 0 n.
Proof.
  intros Hl. unfold vertexIndices. rewrite Hl. f_equal.
  replace (3 * n + 2) with (2 + n * 3) by lia.
  rewrite Nat.div_add by lia. reflexivity.
Qed.


Lemma setXYZ_length (positions : list float) (j : nat) (p : Vector3.t) :
  length (setXYZ positions j p) = length positions.
Proof. unfold setXYZ. now rewrite !length_insert. Qed.


Lemma vertexAt_setXYZ_other (positions : list float) (i j : nat)
    (p : Vector3.t) :
  i <> j ->
  vertexAt (setXYZ positions j p) i = vertexAt positions i.
Proof.
  intros Hij. unfold vertexAt, setXYZ.
  rewrite !list_lookup_insert_ne by lia. reflexivity.
Qed.


Section Drag.
Context {L : ThreeLib}.

Lemma selectedMesh_editable (w : World) (r : nat) (geometry : Geometry) :
  editable w r geometry ->
  selectedMesh w = (Ok (Some (r, geometry)), w).
Proof.
  intros (Hsel & (m & p & q & s & v & Hheap) & Hlock).
  unfold selectedMesh. run_action. rewrite Hsel, Hheap.
  cbn [default Object3D.body]. rewrite Hlock. reflexivity.
Qed.



End Drag.




(** ** Local state and write-back *)

Lemma removeObject_spec {H : Host} (w : World) (id : string)
    (obj : SceneObject.t) :
  JS.find (hasId id) (SceneState.objects (store w)) = Some obj ->
  SceneObject.locked obj = false ->
  inLockedGroup (store w) (SceneObject.groupId obj) = false ->
  allTruthy [SceneObject.firestoreId obj;
             SceneState.currentProjectId (store w)] = true ->
  exists w' call,
    removeObject id w = (Ok tt, w')
    /\ log w' = (log w ++ [call])%list
    /\ request call
       = deleteObject (str (SceneObject.firestoreId obj))
           (str (SceneState.currentProjectId (store w)))
    /\ storeAtCall call = store w
    /\ SceneState.objects (store w')
       = List.filter (fun o => negb (hasId id o))
           (SceneState.objects (store w)).
Proof.
  intros Hf Hl Hg Hp. unfold removeObject. run_action.
  rewrite Hf, Hl, Hg, Hp. run_action.
  eexists _, _. split; [reflexivity|]. repeat split.
Qed.

(** The batch of [moveObjectsToGroup] sends every request of the batch,
    however the earlier ones ended, and leaves the store alone. *)
Lemma batch_spec {H : Host} (state : SceneState.t)
    (groupId : option string) (ids : list string) (w : World) :
  exists w',
    forEachM
      (fun objectId =>
         match JS.find (hasId objectId) (SceneState.objects state) with
         | Some obj =>
             if JS.truthyStr (SceneObject.firestoreId obj) then
               let* _ :=
                 await (updateObject (str (SceneObject.firestoreId obj))
                          (PatchGroupId groupId)
                          (str (SceneState.currentUserId state))
                          (str (SceneState.currentProjectId state))) in
               ret tt
             else ret tt
         | None => ret tt
         end)
      ids w = (Ok tt, w')
    /\ store w' = store w /\ heap w' = heap w /\ timers w' = timers w
    /\ List.map request (log w')
       = (List.map request (log w) ++ batchRequests state ids groupId)%list.
Proof.
  revert w. induction ids as [|a ids IH]; intros w.
  - exists w. cbn. rewrite List.app_nil_r. auto.
  - cbn [forEachM batchRequests flat_map]. unfold bind at 1.
    destruct (JS.find (hasId a) (SceneState.objects state)) as [obj|].
    + destruct (JS.truthyStr (SceneObject.firestoreId obj)).
      * run_action.
        match goal with
        | |- context [forEachM _ ids ?w0] =>
            destruct (IH w0) as (w' & E & Hs & Hh & Ht & Hr)
        end.
        exists w'. rewrite E. store_simpl.
        repeat split; try assumption.
        rewrite Hr, List.map_app, <- List.app_assoc. reflexivity.
      * run_action. destruct (IH w) as (w' & E & Hs & Hh & Ht & Hr).
        exists w'. rewrite E. auto.
    + run_action. destruct (IH w) as (w' & E & Hs & Hh & Ht & Hr).
      exists w'. rewrite E. auto.
Qed.

(** [moveObjectsToGroup], whole: the store it leaves and the requests it
    sends are functions of the store it starts from. *)
Lemma moveObjectsToGroup_spec {H : Host} (ids : list string)
    (groupId : option string) (w : World) :
  exists w',
    moveObjectsToGroup ids groupId w = (Ok tt, w')
    /\ store w' = movedStore (store w) ids groupId
    /\ heap w' = heap w /\ timers w' = timers w
    /\ List.map request (log w')
       = (List.map request (log w) ++ moveRequests (store w) ids groupId)%list.
Proof.
  unfold moveObjectsToGroup, movedStore, moveRequests, moveRefused.
  unfold bind at 1, get at 1. cbn beta iota.
  destruct (Nat.ltb _ _); cbn [orb].
  { exists w. rewrite List.app_nil_r. auto. }
  destruct (inLockedGroup _ _).
  { exists w. rewrite List.app_nil_r. auto. }
  unfold bind at 1, set at 1. cbn beta iota. unfold bind at 1.
  destruct (allTruthy _).
  - match goal with
    | |- context [forEachM _ ids ?w0] =>
        destruct (batch_spec (store w) groupId ids w0)
          as (w' & E & Hs & Hh & Ht & Hr)
    end.
    rewrite E. run_action. eexists. split; [reflexivity|].
    store_simpl. rewrite Hs. store_simpl.
    repeat split; assumption.
  - run_action. eexists. split; [reflexivity|]. store_simpl.
    rewrite List.app_nil_r. repeat split.
Qed.


(** ** Membership actions that keep the relation *)

Lemma filter_out_In (ids : list string) (l : list string) (s : string) :
  In s (List.filter (fun id => negb (JS.includes id ids)) l)
  <-> In s l /\ ~ In s ids.
Proof.
  rewrite List.filter_In, negb_true_iff. split; intros [Hl Hn]; split; auto.
  - intros Hin. apply includes_In in Hin. congruence.
  - destruct (JS.includes s ids) eqn:E; [|reflexivity].
    apply includes_In in E. contradiction.
Qed.

(** [moveObjectsToGroup] keeps the membership bidirectional: it takes the
    objects out of every group before it adds them to the target. *)
Lemma moveObjectsToGroup_bidirectional {H : Host} (ids : list string)
    (groupId : option string) (w : World) :
  bidirectional (store w) ->
  (forall group, In group (SceneState.groups (store w)) ->
                 Group.id group <> "") ->
  bidirectional (store (after (moveObjectsToGroup ids groupId) w)).
Proof.
  intros Hb Hne.
  destruct (moveObjectsToGroup_spec ids groupId w) as (w' & E & Hs & _).
  unfold after. rewrite E. cbn [snd]. rewrite Hs. unfold movedStore.
  destruct (moveRefused _ _ _); [exact Hb|].
  intros obj' group' Ho Hg. store_simpl.
  unfold movedObjects in Ho. apply List.in_map_iff in Ho.
  destruct Ho as (obj & <- & Ho).
  assert (Hg' : exists group,
             In group (SceneState.groups (store w))
             /\ Group.id group' = Group.id group
             /\ forall s,
                  In s (Group.objectIds group')
                  <-> (In s (Group.objectIds group) /\ ~ In s ids)
                      \/ (JS.truthyStr groupId = true
                          /\ groupId = Some (Group.id group) /\ In s ids)).
  { unfold movedGroups in Hg. destruct (JS.truthyStr groupId) eqn:Et.
    - apply List.in_map_iff in Hg. destruct Hg as (g1 & <- & Hg).
      apply List.in_map_iff in Hg. destruct Hg as (group & <- & Hg).
      exists group. split; [exact Hg|].
      unfold groupHasId. cbn [Group.id Group.withObjectIds].
      destruct (String.eqb_spec (Group.id group) (str groupId)) as [Eg|Eg];
        cbn [Group.id Group.objectIds Group.withObjectIds];
        (split; [reflexivity|]); intros s.
      + rewrite List.in_app_iff, filter_out_In.
        split; (intros [?|?]; [left; assumption|right]).
        * split; [reflexivity|]. split; [|assumption].
          destruct groupId as [g|]; [|discriminate]. cbn in Eg. congruence.
        * tauto.
      + rewrite filter_out_In. split; [auto|].
        intros [?|(_ & Hc & _)]; [assumption|].
        subst groupId. cbn in Eg. congruence.
    - apply List.in_map_iff in Hg. destruct Hg as (group & <- & Hg).
      exists group. split; [exact Hg|]. split; [reflexivity|].
      intros s. cbn [Group.objectIds Group.withObjectIds].
      rewrite filter_out_In. split; [auto|].
      intros [?|(Hc & _)]; [assumption | discriminate]. }
  destruct Hg' as (group & Hgin & Hid & Hmem).
  rewrite Hid, Hmem. specialize (Hb obj group Ho Hgin).
  destruct (JS.includes (SceneObject.id obj) ids) eqn:Ei.
  - apply includes_In in Ei. cbn [SceneObject.groupId SceneObject.withGroupId
                                   SceneObject.id].
    split.
    + intros Hgid. right. split; [|split; assumption].
      rewrite Hgid. unfold JS.truthyStr.
      destruct (String.eqb_spec (Group.id group) ""); [|reflexivity].
      exfalso. eapply Hne; eauto.
    + intros [[_ Hn]|(_ & Hgid & _)]; [contradiction | exact Hgid].
  - assert (Hn : ~ In (SceneObject.id obj) ids).
    { intros Hc. apply includes_In in Hc. congruence. }
    rewrite Hb. split; [intros Hin; left; split; assumption|].
    intros [[Hin _]|(_ & _ & Hc)]; [exact Hin | contradiction].
Qed.

(** [addObjectToGroup] keeps the membership bidirectional when the object
    is in no group yet. *)
Lemma addObjectToGroup_bidirectional {H : Host} (objectId groupId : string)
    (w : World) :
  bidirectional (store w) ->
  (forall obj, In obj (SceneState.objects (store w)) ->
               SceneObject.id obj = objectId ->
               SceneObject.groupId obj = None) ->
  bidirectional (store (after (addObjectToGroup objectId groupId) w)).
Proof.
  intros Hb Hnone.
  assert (Hs : store (after (addObjectToGroup objectId groupId) w) = store w
               \/ (SceneState.objects
                     (store (after (addObjectToGroup objectId groupId) w))
                   = List.map
                       (fun obj =>
                          if hasId objectId obj
                          then SceneObject.withGroupId (Some groupId) obj
                          else obj)
                       (SceneState.objects (store w))
                   /\ SceneState.groups
                        (store (after (addObjectToGroup objectId groupId) w))
                      = List.map
                          (fun group =>
                             if groupHasId groupId group
                             then Group.withObjectIds
                                    (Group.objectIds group ++ [objectId])%list
                                    group
                             else group)
                          (SceneState.groups (store w)))).
  { unfold addObjectToGroup. run_action. split_cases; auto. }
  destruct Hs as [->|[Eo Eg]]; [exact Hb|].
  intros obj' group'. rewrite Eo, Eg. intros Ho Hg.
  apply List.in_map_iff in Ho. destruct Ho as (obj & <- & Ho).
  apply List.in_map_iff in Hg. destruct Hg as (group & <- & Hg).
  specialize (Hb obj group Ho Hg). specialize (Hnone obj Ho).
  unfold hasId, groupHasId.
  destruct (String.eqb_spec (SceneObject.id obj) objectId) as [Eid|Eid];
    destruct (String.eqb_spec (Group.id group) groupId) as [Egid|Egid];
    cbn [SceneObject.groupId SceneObject.withGroupId SceneObject.id
         Group.id Group.objectIds Group.withObjectIds];
    rewrite ?List.in_app_iff; cbn [In].
  - split; [intros _; right; left; congruence | intros _; congruence].
  - rewrite <- Hb, (Hnone Eid). split; [congruence | discriminate].
  - rewrite Hb. split; [auto|]. intros [?|[?|[]]]; [assumption|congruence].
  - exact Hb.
Qed.

Lemma find_hasId (id : string) (l : list SceneObject.t) (obj : SceneObject.t) :
  JS.find (hasId id) l = Some obj -> In obj l /\ SceneObject.id obj = id.
Proof.
  intros Hf. apply List.find_some in Hf. destruct Hf as [Hin Hid].
  split; [exact Hin | apply String.eqb_eq, Hid].
Qed.

Lemma unique_by_id (l : list SceneObject.t) (a b : SceneObject.t) :
  List.NoDup (List.map SceneObject.id l) ->
  In a l -> In b l -> SceneObject.id a = SceneObject.id b -> a = b.
Proof.
  induction l as [|o l IH]; intros Hnd Ha Hb Hid; [destruct Ha|].
  cbn [List.map] in Hnd. inversion Hnd as [|? ? Hnotin Hnd']; subst.
  destruct Ha as [->|Ha], Hb as [->|Hb].
  - reflexivity.
  - exfalso. apply Hnotin. rewrite Hid. apply List.in_map, Hb.
  - exfalso. apply Hnotin. rewrite <- Hid. apply List.in_map, Ha.
  - apply IH; assumption.
Qed.

(** [removeObjectFromGroup] keeps the membership bidirectional, the
    identifiers of the objects being distinct. *)
Lemma removeObjectFromGroup_bidirectional {H : Host} (objectId : string)
    (w : World) :
  bidirectional (store w) ->
  List.NoDup (List.map SceneObject.id (SceneState.objects (store w))) ->
  bidirectional (store (after (removeObjectFromGroup objectId) w)).
Proof.
  intros Hb Hnd.
  destruct (JS.find (hasId objectId) (SceneState.objects (store w)))
    as [found|] eqn:Hf.
  2:{ unfold removeObjectFromGroup. run_action. rewrite Hf. exact Hb. }
  destruct (find_hasId _ _ _ Hf) as [Hfin Hfid].
  assert (Hs : store (after (removeObjectFromGroup objectId) w) = store w
               \/ (exists gid,
                      SceneObject.groupId found = Some gid
                      /\ SceneState.objects
                           (store (after (removeObjectFromGroup objectId) w))
                         = List.map
                             (fun o =>
                                if hasId objectId o
                                then SceneObject.withGroupId None o
                                else o)
                             (SceneState.objects (store w))
                      /\ SceneState.groups
                           (store (after (removeObjectFromGroup objectId) w))
                         = List.map
                             (fun group =>
                                if groupHasId gid group
                                then
                                  Group.withObjectIds
                                    (List.filter
                                       (fun id => negb (String.eqb id objectId))
                                       (Group.objectIds group))
                                    group
                                else group)
                             (SceneState.groups (store w)))).
  { unfold removeObjectFromGroup. run_action. rewrite Hf.
    destruct (SceneObject.groupId found) as [gid|] eqn:Eg;
      [|left; reflexivity].
    cbn [str JS.nullish]. split_cases; auto; right; exists gid; auto. }
  destruct Hs as [->|(gid & Egid & Eo & Eg)]; [exact Hb|].
  intros obj' group'. rewrite Eo, Eg. intros Ho Hg.
  apply List.in_map_iff in Ho. destruct Ho as (obj & <- & Ho).
  apply List.in_map_iff in Hg. destruct Hg as (group & <- & Hg).
  specialize (Hb obj group Ho Hg).
  assert (Hfilter : forall s l,
             In s (List.filter (fun id => negb (String.eqb id objectId)) l)
             <-> In s l /\ s <> objectId).
  { intros s l. rewrite List.filter_In, negb_true_iff.
    destruct (String.eqb_spec s objectId); split; intros [? ?]; split;
      congruence || assumption. }
  unfold hasId, groupHasId.
  destruct (String.eqb_spec (SceneObject.id obj) objectId) as [Eid|Eid];
    destruct (String.eqb_spec (Group.id group) gid) as [Egr|Egr];
    cbn [SceneObject.groupId SceneObject.withGroupId SceneObject.id
         Group.id Group.objectIds Group.withObjectIds];
    rewrite ?Hfilter.
  - split; [discriminate | intros [_ Hc]; congruence].
  - assert (obj = found)
      by (apply (unique_by_id _ _ _ Hnd Ho Hfin); congruence).
    subst obj. rewrite <- Hb, Egid.
    split; [discriminate | congruence].
  - rewrite Hb. tauto.
  - exact Hb.
Qed.

(** ** Order of the local change and the write-back *)

Lemma newCalls_none (w w' : World) :
  log w' = log w -> newCalls w w' = [].
Proof.
  intros E. unfold newCalls. rewrite E. apply List.skipn_all.
Qed.

Lemma newCalls_app (w w' : World) (calls : list GatewayEvent) :
  log w' = (log w ++ calls)%list -> newCalls w w' = calls.
Proof.
  intros E. unfold newCalls. rewrite E. apply drop_app_length.
Qed.

Ltac calls_made :=
  match goal with
  | |- Forall _ (newCalls ?w ?w') =>
      first
        [ rewrite (newCalls_none w w') by reflexivity; constructor
        | rewrite (newCalls_app w w' _ eq_refl);
          repeat (constructor; try reflexivity)
        | rewrite (newCalls_app w w' _ (eq_sym (List.app_assoc _ _ _)));
          repeat (constructor; try reflexivity) ]
  end.

Section Order.
Context {H : Host}.

Lemma toggleVisibility_writesBackFirst id :
  writesBackFirst (toggleVisibility id).
Proof.
  intros w. unfold toggleVisibility. run_action. split_cases; calls_made.
Qed.

Lemma toggleLock_writesBackFirst id : writesBackFirst (toggleLock id).
Proof.
  intros w. unfold toggleLock. run_action. split_cases; calls_made.
Qed.

Lemma updateObjectName_writesBackFirst id name :
  writesBackFirst (updateObjectName id name).
Proof.
  intros w. unfold updateObjectName. run_action. split_cases; calls_made.
Qed.

Lemma removeObject_writesBackFirst id : writesBackFirst (removeObject id).
Proof.
  intros w. unfold removeObject. run_action. split_cases; calls_made.
Qed.

Lemma addObjectToGroup_changesLocalFirst objectId groupId :
  changesLocalFirst (addObjectToGroup objectId groupId).
Proof.
  intros w. unfold addObjectToGroup. run_action. split_cases; calls_made.
Qed.

Lemma removeObjectFromGroup_changesLocalFirst objectId :
  changesLocalFirst (removeObjectFromGroup objectId).
Proof.
  intros w. unfold removeObjectFromGroup. run_action.
  split_cases; calls_made.
Qed.

End Order.

Section BatchOrder.
Context {H : Host}.

Lemma batch_calls (state : SceneState.t) (groupId : option string)
    (ids : list string) (w : World) :
  exists w' calls,
    forEachM
      (fun objectId =>
         match JS.find (hasId objectId) (SceneState.objects state) with
         | Some obj =>
             if JS.truthyStr (SceneObject.firestoreId obj) then
               let* _ :=
                 await (updateObject (str (SceneObject.firestoreId obj))
                          (PatchGroupId groupId)
                          (str (SceneState.currentUserId state))
                          (str (SceneState.currentProjectId state))) in
               ret tt
             else ret tt
         | None => ret tt
         end)
      ids w = (Ok tt, w')
    /\ store w' = store w
    /\ log w' = (log w ++ calls)%list
    /\ Forall (fun call => storeAtCall call = store w) calls.
Proof.
  revert w. induction ids as [|a ids IH]; intros w.
  - exists w, []. cbn. rewrite List.app_nil_r. auto.
  - cbn [forEachM]. unfold bind at 1.
    destruct (JS.find (hasId a) (SceneState.objects state)) as [obj|].
    + destruct (JS.truthyStr (SceneObject.firestoreId obj)).
      * run_action.
        match goal with
        | |- context [forEachM _ ids ?w0] =>
            destruct (IH w0) as (w' & calls & E & Hs & Hl & Hc)
        end.
        rewrite E. store_simpl. eexists w', (_ :: calls).
        split; [reflexivity|]. split; [exact Hs|].
        split; [rewrite Hl, <- List.app_assoc; reflexivity|].
        constructor; [reflexivity | exact Hc].
      * run_action. destruct (IH w) as (w' & calls & E & Hs & Hl & Hc).
        exists w', calls. rewrite E. auto.
    + run_action. destruct (IH w) as (w' & calls & E & Hs & Hl & Hc).
      exists w', calls. rewrite E. auto.
Qed.

Lemma moveObjectsToGroup_changesLocalFirst ids groupId :
  changesLocalFirst (moveObjectsToGroup ids groupId).
Proof.
  intros w. unfold after.
  destruct (moveObjectsToGroup ids groupId w) as [res w'] eqn:E.
  cbn [snd]. revert E. unfold moveObjectsToGroup.
  unfold bind at 1, get at 1. cbn beta iota.
  destruct (Nat.ltb _ _);
    [intros [= <- <-]; rewrite newCalls_none by reflexivity; constructor|].
  destruct (inLockedGroup _ _);
    [intros [= <- <-]; rewrite newCalls_none by reflexivity; constructor|].
  unfold bind at 1, set at 1. cbn beta iota. unfold bind at 1.
  destruct (allTruthy _).
  - match goal with
    | |- context [forEachM _ ids ?w0] =>
        destruct (batch_calls (store w) groupId ids w0)
          as (w1 & calls & Eb & Hs & Hl & Hc)
    end.
    rewrite Eb. run_action. intros [= <- <-]. store_simpl.
    rewrite (newCalls_app w _ calls) by exact Hl.
    rewrite Hs. store_simpl.
    eapply List.Forall_impl; [|exact Hc].
    intros call ->. reflexivity.
  - run_action. intros [= <- <-].
    rewrite newCalls_none by reflexivity. constructor.
Qed.

End BatchOrder.

(** ** No rollback *)

Lemma toggleVisibility_unaffected id :
  unaffectedByReplies (fun H => toggleVisibility (H := H) id).
Proof.
  intros H1 H2 w. unfold toggleVisibility. run_action.
  split_cases; reflexivity.
Qed.

Lemma toggleLock_unaffected id :
  unaffectedByReplies (fun H => toggleLock (H := H) id).
Proof.
  intros H1 H2 w. unfold toggleLock. run_action. split_cases; reflexivity.
Qed.

Lemma updateObjectName_unaffected id name :
  unaffectedByReplies (fun H => updateObjectName (H := H) id name).
Proof.
  intros H1 H2 w. unfold updateObjectName. run_action.
  split_cases; reflexivity.
Qed.

Lemma removeObject_unaffected id :
  unaffectedByReplies (fun H => removeObject (H := H) id).
Proof.
  intros H1 H2 w. unfold removeObject. run_action. split_cases; reflexivity.
Qed.

Lemma addObjectToGroup_unaffected objectId groupId :
  unaffectedByReplies (fun H => addObjectToGroup (H := H) objectId groupId).
Proof.
  intros H1 H2 w. unfold addObjectToGroup. run_action.
  split_cases; reflexivity.
Qed.

Lemma removeObjectFromGroup_unaffected objectId :
  unaffectedByReplies (fun H => removeObjectFromGroup (H := H) objectId).
Proof.
  intros H1 H2 w. unfold removeObjectFromGroup. run_action.
  split_cases; reflexivity.
Qed.

Lemma moveObjectsToGroup_unaffected ids groupId :
  unaffectedByReplies (fun H => moveObjectsToGroup (H := H) ids groupId).
Proof.
  intros H1 H2 w. unfold after.
  destruct (moveObjectsToGroup_spec (H := H1) ids groupId w)
    as (w1 & E1 & S1 & _).
  destruct (moveObjectsToGroup_spec (H := H2) ids groupId w)
    as (w2 & E2 & S2 & _).
  rewrite E1, E2. cbn [snd]. congruence.
Qed.

(** C9 (as amended).  Local state wins and is never rolled back, but the
    order of the local change and the write-back depends on the action.
    [addObject] appends the entry first and sends the create request next:
    the entry is in the store when the call is made, and it stays there when
    the call rejects, without a persisted id; when the call resolves, its
    answer becomes the persisted id.  [removeObject] sends the delete
    request first, with the object still in the store, and removes the
    object afterwards, whatever the outcome of the call.  In the batch of
    [moveObjectsToGroup] the store left and the requests sent are functions
    of the store the action started from: a rejected call changes neither
    the local result nor the calls made for the other objects.  More
    generally, rename, toggle-visibility, toggle-lock and delete make their
    call before the local change, the three group membership actions after
    it, and for all seven the store they leave is the same whether the calls
    resolve or reject. *)
Theorem C9_local_wins_without_rollback {H : Host} (w : World) :
  (forall object name,
      freshUuid w ->
      inProject (store w) = true ->
      exists w' call,
        addObject object name w = (Ok tt, w')
        /\ log w' = (log w ++ [call])%list
        /\ request call = createRequest w object name
        /\ In (newEntry w object name)
             (SceneState.objects (storeAtCall call))
        /\ SceneState.objects (store w')
           = (SceneState.objects (store w)
              ++ [SceneObject.withFirestoreId
                    match response call with
                    | resolved firestoreId => Some firestoreId
                    | rejected => None
                    end
                    (newEntry w object name)])%list)
  /\ (forall id obj,
         JS.find (hasId id) (SceneState.objects (store w)) = Some obj ->
         SceneObject.locked obj = false ->
         ~ memberOfLockedGroup (store w) obj ->
         allTruthy [SceneObject.firestoreId obj;
                    SceneState.currentProjectId (store w)] = true ->
         exists w' call,
           removeObject id w = (Ok tt, w')
           /\ log w' = (log w ++ [call])%list
           /\ request call
              = deleteObject (str (SceneObject.firestoreId obj))
                  (str (SceneState.currentProjectId (store w)))
           /\ storeAtCall call = store w
           /\ SceneState.objects (store w')
              = List.filter (fun o => negb (hasId id o))
                  (SceneState.objects (store w)))
  /\ (forall ids groupId,
         exists w',
           moveObjectsToGroup ids groupId w = (Ok tt, w')
           /\ store w' = movedStore (store w) ids groupId
           /\ List.map request (log w')
              = (List.map request (log w)
                 ++ moveRequests (store w) ids groupId)%list)
  /\ (forall id name objectId groupId ids target,
         writesBackFirst (removeObject id)
         /\ writesBackFirst (toggleVisibility id)
         /\ writesBackFirst (toggleLock id)
         /\ writesBackFirst (updateObjectName id name)
         /\ changesLocalFirst (addObjectToGroup objectId groupId)
         /\ changesLocalFirst (removeObjectFromGroup objectId)
         /\ changesLocalFirst (moveObjectsToGroup ids target))
  /\ (forall id name objectId groupId ids target,
         unaffectedByReplies (fun G => removeObject (H := G) id)
         /\ unaffectedByReplies (fun G => toggleVisibility (H := G) id)
         /\ unaffectedByReplies (fun G => toggleLock (H := G) id)
         /\ unaffectedByReplies (fun G => updateObjectName (H := G) id name)
         /\ unaffectedByReplies
              (fun G => addObjectToGroup (H := G) objectId groupId)
         /\ unaffectedByReplies
              (fun G => removeObjectFromGroup (H := G) objectId)
         /\ unaffectedByReplies
              (fun G => moveObjectsToGroup (H := G) ids target)).
Proof.
  split; [|split; [|split; [|split]]].
  - intros object name Hfresh Hin.
    pose proof (addObject_spec object name w Hfresh) as Ha. cbv zeta in Ha.
    rewrite Hin in Ha. eexists _, _. split; [exact Ha|].
    cbn [log store request response storeAtCall SceneState.objects
         SceneState.setObjects].
    split; [reflexivity|]. split; [reflexivity|].
    split; [apply List.in_or_app; right; left; reflexivity|].
    unfold persistedId. rewrite Hin. reflexivity.
  - intros id obj Hf Hl Hg Hp. apply removeObject_spec; try assumption.
    destruct (inLockedGroup _ _) eqn:E; [|reflexivity].
    apply inLockedGroup_true in E. contradiction.
  - intros ids groupId.
    destruct (moveObjectsToGroup_spec ids groupId w)
      as (w' & E & Hs & _ & _ & Hr).
    exists w'. auto.
  - intros id name objectId groupId ids target.
    repeat split.
    + apply removeObject_writesBackFirst.
    + apply toggleVisibility_writesBackFirst.
    + apply toggleLock_writesBackFirst.
    + apply updateObjectName_writesBackFirst.
    + apply addObjectToGroup_changesLocalFirst.
    + apply removeObjectFromGroup_changesLocalFirst.
    + apply moveObjectsToGroup_changesLocalFirst.
  - intros id name objectId groupId ids target.
    repeat split.
    + apply removeObject_unaffected.
    + apply toggleVisibility_unaffected.
    + apply toggleLock_unaffected.
    + apply updateObjectName_unaffected.
    + apply addObjectToGroup_unaffected.
    + apply removeObjectFromGroup_unaffected.
    + apply moveObjectsToGroup_unaffected.
Qed.

Lemma C9_local_wins_without_rollback_witness :
  exists w' call,
    addObject (H := failingHost) 0 "Box" emptyScene = (Ok tt, w')
    /\ log w' = (log emptyScene ++ [call])%list
    /\ request call = createRequest emptyScene 0 "Box"
    /\ In (newEntry (H := failingHost) emptyScene 0 "Box")
         (SceneState.objects (storeAtCall call))
    /\ SceneState.objects (store w')
       = (SceneState.objects (store emptyScene)
          ++ [SceneObject.withFirestoreId
                match response call with
                | resolved firestoreId => Some firestoreId
                | rejected => None
                end
                (newEntry (H := failingHost) emptyScene 0 "Box")])%list.
Proof.
  apply (proj1 (C9_local_wins_without_rollback (H := failingHost) emptyScene)).
  - intros obj [].
  - reflexivity.
Defined.

(** C9, counterexample to the claim as stated.  [removeObject] does not
    apply the local change before the write-back: when the delete request
    for the box is sent, the store still lists the box; the box leaves the
    store after the call, here a rejected one. *)
Lemma C9_removeObject_writes_back_first :
  List.map
    (fun call =>
       (request call, response call,
        List.map SceneObject.id (SceneState.objects (storeAtCall call))))
    (log (after (removeObject (H := failingHost) "box") boxScene))
  = [(deleteObject "doc-box" "project-1", rejected, ["box"])]
  /\ SceneState.objects
       (store (after (removeObject (H := failingHost) "box") boxScene))
     = [].
Proof. split; reflexivity. Qed.

(* ===================================================================== *)
(** * Further properties of the codec *)
(* ===================================================================== *)

Section ReloadFacts.
Context {L : ThreeLib}.

Lemma mesh_record_type g m p r s v name id uid pid :
  let data := objectToFirestore (meshOf g m p r s v) name id uid pid in
  FirestoreObject.type data = "Mesh" \/ FirestoreObject.type data = "CustomMesh".
Proof.
  cbv zeta. unfold objectToFirestore, meshOf. cbn [Object3D.body].
  unfold geometryToFirestore.
  destruct (isCustomGeometry g name); [right; reflexivity|].
  destruct (gclass g); cbn; auto.
Qed.

Lemma reload_mesh g m p r s v name id uid pid :
  let data := objectToFirestore (meshOf g m p r s v) name id uid pid in
  reload (meshOf g m p r s v) name id uid pid
  = Some (Object3D.mk
            (MeshBody (geometryOfRecord data)
               (MeshStandardMaterial (materialOfRecord data)))
            (FirestoreObject.position data) (FirestoreObject.rotation data)
            (FirestoreObject.scale data) (FirestoreObject.visible data)).
Proof.
  cbv zeta. unfold reload, firestoreToObject.
  destruct (mesh_record_type g m p r s v name id uid pid) as [-> | ->];
    reflexivity.
Qed.

End ReloadFacts.

(** X1.  A mesh always loads back from the record written for it; an object
    that is not a mesh (a [THREE.Group], say, whose [type] is neither
    ['Mesh'] nor ['CustomMesh']) never does: [firestoreToObject] answers
    [null] for its record. *)
Theorem X1_meshes_load_and_other_objects_do_not {L : ThreeLib}
    (o : Object3D.t) (name : string) (id userId projectId : option string) :
  (forall g m, Object3D.body o = MeshBody g m ->
     exists g' m',
       option_map Object3D.body (reload o name id userId projectId)
       = Some (MeshBody g' (MeshStandardMaterial m')))
  /\ (forall ty, Object3D.body o = OtherBody ty ->
        ty <> "Mesh" -> ty <> "CustomMesh" ->
        reload o name id userId projectId = None).
Proof.
  split.
  - intros g m Hb. destruct o as [b p r s v]. cbn in Hb. subst b.
    change (Object3D.mk (MeshBody g m) p r s v) with (meshOf g m p r s v).
    rewrite reload_mesh. cbn. eauto.
  - intros ty Hb Hm Hc. unfold reload, firestoreToObject, objectToFirestore.
    rewrite Hb. cbn. unfold Object3D.type. rewrite Hb.
    destruct (String.eqb_spec ty "Mesh"); [contradiction|].
    destruct (String.eqb_spec ty "CustomMesh"); [contradiction|].
    reflexivity.
Qed.

(** X2.  The record of a mesh has one of two shapes, decided by
    [isCustomGeometry]: a custom record (type ['CustomMesh'], the four
    buffers of the mesh in [customGeometry], no [geometryParams]), or a
    parametric record (type ['Mesh'], a [geometryParams], no
    [customGeometry]) of a box, a sphere, a cylinder or a cone.  It never
    carries both descriptions, and the fallback of the parametric branch is
    never taken. *)
Theorem X2_record_is_custom_or_parametric {L : ThreeLib}
    (g : Geometry) (m : Material) (p r s : Vector3.t) (v : bool)
    (name : string) (id userId projectId : option string) :
  let data := objectToFirestore (meshOf g m p r s v) name id userId projectId in
  if isCustomGeometry g name
  then FirestoreObject.type data = "CustomMesh"
       /\ FirestoreObject.geometryParams data = None
       /\ exists cg,
            FirestoreObject.customGeometry data = Some cg
            /\ CustomGeometry.vertices cg
               = Some (arrayOf (position (attributes g)))
            /\ CustomGeometry.indices cg = Some (arrayOf (index (attributes g)))
            /\ CustomGeometry.normals cg = Some (arrayOf (normal (attributes g)))
            /\ CustomGeometry.uvs cg = Some (arrayOf (uv (attributes g)))
            /\ CustomGeometry.type cg
               = if instanceOf (gclass g) TorusGeometry then "torus"
                 else "custom"
  else FirestoreObject.type data = "Mesh"
       /\ FirestoreObject.customGeometry data = None
       /\ is_Some (FirestoreObject.geometryParams data)
       /\ In (gclass g)
            [BoxGeometry; SphereGeometry; CylinderGeometry; ConeGeometry].
Proof.
  cbv zeta. unfold objectToFirestore, meshOf. cbn [Object3D.body].
  unfold geometryToFirestore.
  destruct (isCustomGeometry g name) eqn:Hc.
  - destruct (instanceOf (gclass g) TorusGeometry); cbn;
      (split; [reflexivity|]); (split; [reflexivity|]);
      eexists; (split; [reflexivity|]); cbn; repeat split.
  - unfold isCustomGeometry in Hc.
    apply orb_false_iff in Hc. destruct Hc as [_ Hc].
    apply negb_false_iff in Hc.
    destruct (parameters g); [|discriminate].
    destruct (gclass g); try discriminate; cbn;
      (split; [reflexivity|]); (split; [reflexivity|]);
      (split; [eexists; reflexivity|]); auto 6.
Qed.

(** X3.  The placement of a mesh survives the round trip: position,
    rotation, scale and the visibility flag of the loaded mesh are those of
    the mesh that was written. *)
Theorem X3_transform_survives {L : ThreeLib}
    (g : Geometry) (m : Material) (p r s : Vector3.t) (v : bool)
    (name : string) (id userId projectId : option string) :
  exists o',
    reload (meshOf g m p r s v) name id userId projectId = Some o'
    /\ Object3D.position o' = p
    /\ Object3D.rotation o' = r
    /\ Object3D.scale o' = s
    /\ Object3D.visible o' = v.
Proof.
  rewrite reload_mesh. eexists. split; [reflexivity|].
  unfold objectToFirestore, meshOf. cbn [Object3D.body].
  destruct (geometryToFirestore g name) as [[ty gp] cg].
  cbn. repeat split.
Qed.

(** X4.  A [MeshStandardMaterial] survives the round trip whole (colour,
    opacity, transparency, metalness, roughness), provided three.js reads the
    colour it printed back as the same colour.  A mesh with any other
    material comes back with a [MeshStandardMaterial] of the default colour
    ['#44aa88'], opaque, with the constructor's metalness and roughness. *)
Theorem X4_material_survives {L : ThreeLib}
    (g : Geometry) (sm : StandardMaterial.t) (p r s : Vector3.t) (v : bool)
    (name : string) (id userId projectId : option string) :
  hexOfStyle ("#" +:+ StandardMaterial.color sm) = StandardMaterial.color sm ->
  (exists o',
     reload (meshOf g (MeshStandardMaterial sm) p r s v) name id userId
       projectId = Some o'
     /\ materialOf o' = Some (MeshStandardMaterial sm))
  /\ (exists o',
        reload (meshOf g OtherMaterial p r s v) name id userId projectId
        = Some o'
        /\ materialOf o' = Some (MeshStandardMaterial defaultMaterial)).
Proof.
  intros Hhex. split; rewrite reload_mesh; (eexists; split; [reflexivity|]);
    unfold materialOf, materialOfRecord, objectToFirestore, meshOf;
    cbn [Object3D.body];
    destruct (geometryToFirestore g name) as [[ty gp] cg]; cbn.
  - rewrite Hhex. destruct sm; reflexivity.
  - reflexivity.
Qed.

Lemma X4_material_survives_witness :
  (exists o',
     reload (L := referenceThree)
       (meshOf triangle
          (MeshStandardMaterial (StandardMaterial.mk "ff0000" 0.5 true 0 1))
          origin origin unitScale true) "Roof" None None None = Some o'
     /\ materialOf o'
        = Some (MeshStandardMaterial
                  (StandardMaterial.mk "ff0000" 0.5 true 0 1)))
  /\ (exists o',
        reload (L := referenceThree)
          (meshOf triangle OtherMaterial origin origin unitScale true)
          "Roof" None None None = Some o'
        /\ materialOf o'
           = Some (MeshStandardMaterial (defaultMaterial (L := referenceThree)))).
Proof.
  apply (X4_material_survives (L := referenceThree) triangle
           (StandardMaterial.mk "ff0000" 0.5 true 0 1)).
  reflexivity.
Defined.

Section Idempotence.
Context {L : ThreeLib}.

Lemma orNum_idem (x : option float) (d : float) :
  JS.orNum (Some (JS.orNum x d)) d = JS.orNum x d.
Proof.
  unfold JS.orNum. destruct x as [v|].
  - destruct (JS.truthyNum v) eqn:E; [rewrite E; reflexivity|].
    destruct (JS.truthyNum d); reflexivity.
  - destruct (JS.truthyNum d); reflexivity.
Qed.

Lemma reloadGeometry_mesh g m p r s v name :
  reloadGeometry (meshOf g m p r s v) name
  = Some (geometryOfRecord
            (objectToFirestore (meshOf g m p r s v) name None None None)).
Proof.
  unfold reloadGeometry. fold (reload (meshOf g m p r s v) name None None None).
  rewrite reload_mesh. reflexivity.
Qed.

(** The geometry that comes back, case by case. *)
Lemma reloadGeometry_cases g m p r s v name :
  reloadGeometry (meshOf g m p r s v) name = Some (reloadedGeometry g name).
Proof.
  rewrite reloadGeometry_mesh. f_equal. unfold reloadedGeometry. cbv zeta.
  unfold objectToFirestore, meshOf. cbn [Object3D.body].
  unfold geometryToFirestore.
  destruct (isCustomGeometry g name).
  - destruct (instanceOf (gclass g) TorusGeometry); reflexivity.
  - destruct (gclass g); reflexivity.
Qed.

Lemma isCustomGeometry_class (g g' : Geometry) (name : string) :
  gclass g' = gclass g ->
  (parameters g = None <-> parameters g' = None) ->
  isCustomGeometry g' name = isCustomGeometry g name.
Proof.
  intros Hc Hp. unfold isCustomGeometry. rewrite Hc.
  destruct (parameters g), (parameters g'); try reflexivity.
  - destruct Hp as [_ Hp]. discriminate Hp. reflexivity.
  - destruct Hp as [Hp _]. discriminate Hp. reflexivity.
Qed.

End Idempotence.

Section IdempotenceCases.
Context {L : ThreeLib}.

Lemma deserializeGeometry_class (cg : CustomGeometry.t) :
  gclass (deserializeGeometry cg) = BufferGeometry.
Proof.
  unfold deserializeGeometry, computeVertexNormals, newBufferGeometry.
  cbn [attributes position gclass].
  destruct (nonEmpty (CustomGeometry.normals cg));
    [reflexivity|].
  destruct (nonEmpty (CustomGeometry.vertices cg)); reflexivity.
Qed.

Lemma isCustomGeometry_buffer (g : Geometry) (name : string) :
  gclass g = BufferGeometry -> isCustomGeometry g name = true.
Proof.
  intros Hc. unfold isCustomGeometry. rewrite Hc.
  destruct (parameters g); cbn; apply orb_true_r.
Qed.

Lemma nonEmpty_arrayOf {A} (a : option (list A)) :
  nonEmpty (Some (arrayOf (nonEmpty a))) = nonEmpty a.
Proof. destruct a as [[|x l]|]; reflexivity. Qed.

Lemma nonEmpty_Some_arrayOf {A} (a : option (list A)) :
  nonEmpty (Some (arrayOf a)) = nonEmpty a.
Proof. destruct a as [[|x l]|]; reflexivity. Qed.

(** Serializing a mesh that was loaded from a serialized mesh, and loading
    it again, changes nothing. *)
Lemma deserialize_serialize_idem (g : Geometry) :
  deserializeGeometry (customRecord (deserializeGeometry (customRecord g)))
  = deserializeGeometry (customRecord g).
Proof.
  destruct g as [cls ps [pos nor uvs idx]].
  destruct nor as [[|n nor]|], pos as [[|x pos]|], uvs as [[|u uvs]|],
    idx as [[|i idx]|];
    try reflexivity;
    unfold customRecord, serializeGeometry, deserializeGeometry,
      computeVertexNormals;
    cbn [attributes position normal uv index parameters gclass
         CustomGeometry.vertices CustomGeometry.normals CustomGeometry.uvs
         CustomGeometry.indices CustomGeometry.parameters JS.nullish
         newBufferGeometry arrayOf nonEmpty];
    match goal with
    | |- context [vertexNormals ?a ?b] =>
        destruct (vertexNormals a b) eqn:E; cbn [nonEmpty position attributes];
        rewrite ?E; reflexivity
    end.
Qed.

End IdempotenceCases.

Section IdempotenceProof.
Context {L : ThreeLib}.

Lemma nameIsCustom_false (g : Geometry) (name : string) :
  isCustomGeometry g name = false ->
  existsb (fun customName => JS.strIncludes customName (JS.toLowerCase name))
    customNames = false
  /\ In (gclass g)
       [BoxGeometry; SphereGeometry; CylinderGeometry; ConeGeometry].
Proof.
  unfold isCustomGeometry. intros Hc.
  apply orb_false_iff in Hc. destruct Hc as [Hc Hs].
  apply orb_false_iff in Hc. destruct Hc as [Hn _].
  split; [exact Hn|]. apply negb_false_iff in Hs.
  destruct (parameters g); [|discriminate].
  destruct (gclass g); try discriminate; cbn; auto 6.
Qed.

Lemma reloaded_torus (a b c d e : float) (name : string) :
  reloadedGeometry (newTorusGeometry a b c d e) name
  = newTorusGeometry (JS.orNum (Some a) 1) (JS.orNum (Some b) 0.4)
      (JS.orNum (Some c) 8) (JS.orNum (Some d) 16)
      (JS.orNum (Some e) (3.141592653589793 * 2)).
Proof.
  unfold reloadedGeometry.
  assert (Hcu : isCustomGeometry (newTorusGeometry a b c d e) name = true).
  { unfold isCustomGeometry, newTorusGeometry, build.
    cbn [gclass parameters]. cbn. apply orb_true_r. }
  rewrite Hcu. reflexivity.
Qed.

Lemma reloaded_buffer (g : Geometry) (name : string) :
  gclass g = BufferGeometry ->
  reloadedGeometry g name = deserializeGeometry (customRecord g).
Proof.
  intros Hb. unfold reloadedGeometry.
  rewrite (isCustomGeometry_buffer g name Hb), Hb. reflexivity.
Qed.

Lemma reloaded_plain (cls : GeometryClass) (ps : Params) (at_ : Attributes)
    (name : string) :
  existsb (fun customName => JS.strIncludes customName (JS.toLowerCase name))
    customNames = false ->
  In cls [BoxGeometry; SphereGeometry; CylinderGeometry] ->
  reloadedGeometry (mkGeometry cls (Some ps) at_) name
  = match cls with
    | BoxGeometry =>
        newBoxGeometry (Some (JS.nullish (width ps) 1%float))
          (Some (JS.nullish (height ps) 1%float))
          (Some (JS.nullish (depth ps) 1%float))
    | SphereGeometry =>
        newSphereGeometry (Some (JS.nullish (radius ps) 0.5%float))
          (Some (JS.nullish (widthSegments ps) 32%float))
          (Some (JS.nullish (heightSegments ps) 16%float))
    | _ =>
        newCylinderGeometry (Some (JS.nullish (radiusTop ps) 0.5%float))
          (Some (JS.nullish (radiusBottom ps) 0.5%float))
          (Some (JS.nullish (height ps) 1%float))
          (Some (JS.nullish (radialSegments ps) 32%float))
    end.
Proof.
  intros Hn Hin. unfold reloadedGeometry, isCustomGeometry. rewrite Hn.
  cbn [gclass parameters JS.nullish].
  destruct Hin as [<-|[<-|[<-|[]]]]; reflexivity.
Qed.

Lemma reloadedGeometry_idem (g : Geometry) (name : string) :
  reloadedGeometry (reloadedGeometry g name) name = reloadedGeometry g name.
Proof.
  unfold reloadedGeometry at 2 3. cbv zeta.
  destruct (isCustomGeometry g name) eqn:Hc.
  - destruct (instanceOf (gclass g) TorusGeometry) eqn:Ht.
    + unfold torusArguments. cbv beta iota.
      rewrite reloaded_torus, !orNum_idem. reflexivity.
    + rewrite reloaded_buffer by apply deserializeGeometry_class.
      apply deserialize_serialize_idem.
  - destruct (nameIsCustom_false g name Hc) as [Hn Hcls].
    destruct Hcls as [E|[E|[E|[E|[]]]]]; rewrite <- E;
      unfold newBoxGeometry, newSphereGeometry, newCylinderGeometry, build;
      rewrite reloaded_plain by (cbn; auto); reflexivity.
Qed.

End IdempotenceProof.

(** X5.  Persisting is stable after the first round trip: the geometry a
    mesh comes back with, written and loaded once more under the same name,
    comes back unchanged.  (The first round trip may change it: a cone
    becomes a cylinder, a custom primitive loses its class, missing normals
    are computed, a zero torus parameter becomes the default.) *)
Theorem X5_reload_is_idempotent {L : ThreeLib}
    (g : Geometry) (m : Material) (p r s : Vector3.t) (v : bool)
    (name : string) :
  exists g',
    reloadGeometry (meshOf g m p r s v) name = Some g'
    /\ forall m' p' r' s' v',
         reloadGeometry (meshOf g' m' p' r' s' v') name = Some g'.
Proof.
  exists (reloadedGeometry g name).
  split; [apply reloadGeometry_cases|]. intros.
  rewrite reloadGeometry_cases, reloadedGeometry_idem. reflexivity.
Qed.

(** X6.  A custom mesh that is not a torus comes back as a plain
    [BufferGeometry], whatever class it had: with the [parameters] object it
    carried, the texture coordinates it had, and the normals it had when it
    had some (they are read back, not recomputed).  Having no class any more,
    it is a custom mesh under every name from then on. *)
Theorem X6_custom_mesh_loses_its_class {L : ThreeLib}
    (g : Geometry) (m : Material) (p r s : Vector3.t) (v : bool)
    (name : string) :
  isCustomGeometry g name = true ->
  instanceOf (gclass g) TorusGeometry = false ->
  exists g',
    reloadGeometry (meshOf g m p r s v) name = Some g'
    /\ gclass g' = BufferGeometry
    /\ parameters g' = Some (JS.nullish (parameters g) noParams)
    /\ arrayOf (uv (attributes g')) = arrayOf (uv (attributes g))
    /\ (arrayOf (normal (attributes g)) <> [] ->
        arrayOf (normal (attributes g')) = arrayOf (normal (attributes g)))
    /\ forall name', isCustomGeometry g' name' = true.
Proof.
  intros Hc Ht. exists (deserializeGeometry (customRecord g)).
  split.
  { rewrite reloadGeometry_cases. unfold reloadedGeometry.
    rewrite Hc, Ht. reflexivity. }
  split; [apply deserializeGeometry_class|].
  split.
  { destruct g as [cls ps [pos nor uvs idx]].
    destruct nor as [[|n nor]|], pos as [[|x pos]|]; reflexivity. }
  split.
  { destruct g as [cls ps [pos nor uvs idx]].
    destruct nor as [[|n nor]|], pos as [[|x pos]|], uvs as [[|u uvs]|];
      reflexivity. }
  split.
  { destruct g as [cls ps [pos nor uvs idx]].
    destruct nor as [[|n nor]|]; cbn; intros Hn; congruence. }
  intros name'. apply isCustomGeometry_buffer, deserializeGeometry_class.
Qed.

Lemma X6_custom_mesh_loses_its_class_witness :
  exists g',
    reloadGeometry (L := referenceThree)
      (meshOf
         (newBoxGeometry (L := referenceThree) (Some 1%float) (Some 1%float)
            (Some 1%float))
         OtherMaterial origin origin unitScale true) "Custom box" = Some g'
    /\ gclass g' = BufferGeometry
    /\ isCustomGeometry g' "Box" = true.
Proof.
  destruct (X6_custom_mesh_loses_its_class (L := referenceThree)
              (newBoxGeometry (L := referenceThree) (Some 1%float)
                 (Some 1%float) (Some 1%float))
              OtherMaterial origin origin unitScale true "Custom box")
    as (g' & Hr & Hcls & _ & _ & _ & Hn).
  - reflexivity.
  - reflexivity.
  - exists g'. split; [exact Hr|]. split; [exact Hcls | apply Hn].
Defined.

Lemma reload_reads_parameters_only {L : ThreeLib}
    (g1 g2 : Geometry) (m1 m2 : Material) (p1 r1 s1 p2 r2 s2 : Vector3.t)
    (v1 v2 : bool) (name : string) :
  gclass g1 = gclass g2 ->
  parameters g1 = parameters g2 ->
  isCustomGeometry g1 name = false
  \/ instanceOf (gclass g1) TorusGeometry = true ->
  reloadGeometry (meshOf g1 m1 p1 r1 s1 v1) name
  = reloadGeometry (meshOf g2 m2 p2 r2 s2 v2) name.
Proof.
  intros Hcls Hps Hk. rewrite !reloadGeometry_cases. f_equal.
  assert (Hc : isCustomGeometry g2 name = isCustomGeometry g1 name).
  { apply isCustomGeometry_class; [congruence|]. rewrite Hps. tauto. }
  unfold reloadedGeometry. rewrite Hc, <- Hcls, <- Hps.
  destruct Hk as [Hk|Hk]; rewrite Hk.
  - destruct (nameIsCustom_false g1 name Hk) as [_ [E|[E|[E|[E|[]]]]]];
      rewrite <- E; reflexivity.
  - destruct (isCustomGeometry g1 name) eqn:Hc1; [reflexivity|].
    exfalso. unfold isCustomGeometry in Hc1. cbv zeta in Hc1.
    rewrite Hk, orb_true_r in Hc1. discriminate.
Qed.

(** X7.  For a torus, and for a box, sphere, cylinder or cone stored as a
    parametric mesh, only the class and the [parameters] of the geometry are
    persisted: two such meshes that differ in their buffers alone (one has
    had vertices moved) come back as the same geometry. *)
Theorem X7_only_parameters_of_primitives_are_persisted {L : ThreeLib}
    (g1 g2 : Geometry) (m1 m2 : Material) (p1 r1 s1 p2 r2 s2 : Vector3.t)
    (v1 v2 : bool) (name : string) :
  gclass g1 = gclass g2 ->
  parameters g1 = parameters g2 ->
  isCustomGeometry g1 name = false
  \/ instanceOf (gclass g1) TorusGeometry = true ->
  reloadGeometry (meshOf g1 m1 p1 r1 s1 v1) name
  = reloadGeometry (meshOf g2 m2 p2 r2 s2 v2) name.
Proof. apply reload_reads_parameters_only. Qed.

Lemma X7_only_parameters_of_primitives_are_persisted_witness :
  reloadGeometry (L := referenceThree)
    (meshOf
       (withPositions [9; 9; 9]%float
          (newBoxGeometry (L := referenceThree) (Some 1%float) (Some 1%float)
             (Some 1%float)))
       OtherMaterial origin origin unitScale true) "Box"
  = reloadGeometry (L := referenceThree) unitBox "Box".
Proof.
  apply (X7_only_parameters_of_primitives_are_persisted (L := referenceThree)).
  - reflexivity.
  - reflexivity.
  - left. reflexivity.
Defined.



(** X9.  A torus always comes back as a torus, whatever its name: it is
    rebuilt from its five parameters, and a parameter that is missing, zero
    or NaN is replaced by 1 (radius), 0.4 (tube), 8 (radial segments),
    16 (tubular segments) or 2 pi (arc).  A torus whose five parameters are
    non-zero numbers comes back with the same five. *)
Theorem X9_torus_round_trip {L : ThreeLib}
    (g : Geometry) (m : Material) (p r s : Vector3.t) (v : bool)
    (name : string) :
  gclass g = TorusGeometry ->
  let gp := JS.nullish (parameters g) noParams in
  let pick (x : option float) (d : float) :=
    match x with
    | Some n => if JS.truthyNum n then n else d
    | None => d
    end in
  reloadGeometry (meshOf g m p r s v) name
  = Some (newTorusGeometry (pick (radius gp) 1%float)
            (pick (tube gp) 0.4%float) (pick (radialSegments gp) 8%float)
            (pick (tubularSegments gp) 16%float)
            (pick (arc gp) (3.141592653589793 * 2)%float))
  /\ forall a b c d e,
       parameters g
       = Some (mkParams None None None (Some a) None None None None (Some c)
                 (Some b) (Some d) (Some e)) ->
       forallb JS.truthyNum [a; b; c; d; e] = true ->
       reloadGeometry (meshOf g m p r s v) name
       = Some (newTorusGeometry a b c d e).
Proof.
  intros Ht gp pick.
  assert (E : reloadGeometry (meshOf g m p r s v) name
              = Some (newTorusGeometry (pick (radius gp) 1%float)
                        (pick (tube gp) 0.4%float)
                        (pick (radialSegments gp) 8%float)
                        (pick (tubularSegments gp) 16%float)
                        (pick (arc gp) (3.141592653589793 * 2)%float))).
  { rewrite reloadGeometry_cases. unfold reloadedGeometry.
    assert (Hc : isCustomGeometry g name = true).
    { unfold isCustomGeometry. rewrite Ht. cbn. now rewrite orb_true_r. }
    rewrite Hc, Ht. reflexivity. }
  split; [exact E|].
  intros a b c d e Hp Hall. rewrite E. subst gp pick. rewrite Hp.
  cbn [JS.nullish radius tube radialSegments tubularSegments arc].
  cbn [forallb] in Hall.
  repeat (apply andb_prop in Hall; destruct Hall as [? Hall]).
  repeat match goal with H : JS.truthyNum _ = true |- _ => rewrite H; clear H end.
  reflexivity.
Qed.

Lemma X9_torus_round_trip_witness :
  reloadGeometry (L := referenceThree)
    (meshOf
       (newTorusGeometry (L := referenceThree) 2 0.5 12 48 3)
       OtherMaterial origin origin unitScale true) "Ring"
  = Some (newTorusGeometry (L := referenceThree) 2 0.5 12 48 3).
Proof.
  destruct (X9_torus_round_trip (L := referenceThree)
              (newTorusGeometry (L := referenceThree) 2 0.5 12 48 3)
              OtherMaterial origin origin unitScale true "Ring" eq_refl)
    as [H _].
  exact H.
Defined.

(* ===================================================================== *)
(** * Further properties of the store *)
(* ===================================================================== *)

(** ** Snapshots and the heap *)

Section SnapshotHeap.
Context {L : ThreeLib} {H : Host}.

Lemma cloneObject_spec (r : nat) (w : World) :
  cloneObject r w
  = (Ok (nextRef w),
     mkWorld (store w) (<[nextRef w := cloneOf (objectAt w r)]> (heap w))
       (S (nextRef w)) (uuidCount w) (log w) (timers w)).
Proof. reflexivity. Qed.


End SnapshotHeap.

Section SnapshotHeap2.
Context {L : ThreeLib} {H : Host}.



End SnapshotHeap2.




(** ** Duplicating the selection *)

Section DuplicateFacts.
Context {L : ThreeLib} {H : Host}.

(** [duplicateObject] on an unlocked selection: the copy is made, stored
    and sent, and the result is committed to the history. *)
Lemma duplicateObject_runs (w : World) (r : nat) (e : SceneObject.t) :
  selectedEntry w r e ->
  freshUuid w ->
  duplicateObject w = saveToHistory (duplicated w r e).
Proof.
  intros (Hsel & Hfind & Hlock) Hfresh.
  unfold duplicateObject. unfold bind at 1, get at 1. cbn beta iota.
  rewrite Hsel, Hfind, Hlock.
  unfold bind at 1. rewrite cloneObject_spec.
  unfold duplicated, copyAdded, copyPersistedId, inProject, copyRequest,
    copyGroups, copyEntry, copyOf, objectAt.
  run_action. rewrite lookup_insert_eq. cbn [from_option id].
  rewrite insert_insert_eq. cbn [SceneObject.id SceneObject.name
                                 SceneObject.groupId].
  destruct (allTruthy _); run_action; [|reflexivity].
  rewrite !lookup_insert_eq. cbn [from_option id].
  destruct (gatewayReply _ _) as [fid|]; run_action; [|reflexivity].
  rewrite List.map_app, map_attach_fresh by exact Hfresh.
  cbn [List.map]. unfold hasId. cbn [SceneObject.id].
  rewrite String.eqb_refl. reflexivity.
Qed.



End DuplicateFacts.



Lemma bidirectional_same (s1 s2 : SceneState.t) :
  SceneState.objects s1 = SceneState.objects s2 ->
  SceneState.groups s1 = SceneState.groups s2 ->
  bidirectional s2 -> bidirectional s1.
Proof.
  unfold bidirectional. intros -> ->. auto.
Qed.

Lemma truthyStr_Some (s : option string) :
  JS.truthyStr s = true -> exists v, s = Some v /\ v <> "" /\ str s = v.
Proof.
  destruct s as [v|]; [|discriminate]. cbn. intros Hv. exists v.
  split; [reflexivity|]. split; [|reflexivity].
  intros ->. discriminate.
Qed.

(** X12.  [duplicateObject] keeps the group membership bidirectional: the
    copy names the group of the original, and that group lists the copy. *)
Theorem X12_duplicateObject_keeps_membership {H : Host} (w : World) (r : nat)
    (e : SceneObject.t) :
  selectedEntry w r e ->
  unusedUuid w ->
  (forall group, In group (SceneState.groups (store w)) ->
                 Group.id group <> "") ->
  bidirectional (store w) ->
  bidirectional (store (after duplicateObject w)).
Proof.
  intros Hsel [Hfresh Hunused] Hne Hb.
  unfold after. rewrite (duplicateObject_runs w r e Hsel Hfresh).
  destruct (saveToHistory_spec (duplicated w r e)) as (s & w1 & _ & _ & E).
  rewrite E. cbn [snd store setStore].
  apply (bidirectional_same _ (store (duplicated w r e)));
    [reflexivity | reflexivity |].
  unfold duplicated, copyAdded. cbn [store]. store_simpl.
  intros obj' group' Ho Hg. store_simpl.
  apply List.in_app_iff in Ho.
  unfold copyGroups in Hg.
  destruct (JS.truthyStr (SceneObject.groupId e)) eqn:Ht.
  - destruct (truthyStr_Some _ Ht) as (gid & Egid & Hgid & Estr).
    rewrite Estr in Hg. apply List.in_map_iff in Hg.
    destruct Hg as (g & <- & Hg). unfold groupHasId.
    destruct Ho as [Ho|[<-|[]]].
    + pose proof (Hfresh obj' Ho) as Hid. specialize (Hb obj' g Ho Hg).
      destruct (String.eqb_spec (Group.id g) gid) as [Eg|Eg];
        cbn [Group.id Group.objectIds Group.withObjectIds]; [|exact Hb].
      rewrite Hb, List.in_app_iff. cbn [In]. split; [auto|].
      intros [?|[?|[]]]; [assumption | congruence].
    + cbn [SceneObject.groupId SceneObject.id SceneObject.withFirestoreId
           copyEntry]. rewrite Egid.
      destruct (String.eqb_spec (Group.id g) gid) as [Eg|Eg];
        cbn [Group.id Group.objectIds Group.withObjectIds].
      * rewrite Eg, List.in_app_iff. cbn [In]. split; auto.
      * split; [intros [= ?]; congruence|].
        intros Hin. exfalso. exact (Hunused g Hg Hin).
  - destruct Ho as [Ho|[<-|[]]]; [apply Hb; assumption|].
    cbn [SceneObject.groupId SceneObject.id SceneObject.withFirestoreId
         copyEntry].
    split.
    + intros Eg. exfalso. rewrite Eg in Ht. cbn in Ht.
      apply negb_false_iff, String.eqb_eq in Ht.
      exact (Hne group' Hg Ht).
    + intros Hin. exfalso. exact (Hunused group' Hg Hin).
Qed.

Lemma X12_duplicateObject_keeps_membership_witness :
  bidirectionalb (store kitchenScene) = true
  /\ bidirectional
       (store (after (duplicateObject (H := referenceHost)) kitchenScene)).
Proof.
  split; [reflexivity|].
  apply (X12_duplicateObject_keeps_membership (H := referenceHost)
           kitchenScene 0
           (SceneObject.mk "chair" 0 "Chair" true false (Some "kitchen")
              (Some "doc-chair"))).
  - repeat split.
  - split.
    + intros obj [<-|[]]. discriminate.
    + intros group [<-|[]] [E|[]]. discriminate.
  - intros group [<-|[]]. discriminate.
  - apply bidirectionalb_spec. reflexivity.
Defined.

(** ** Removing an object *)

Lemma removeObject_effect {H : Host} (w : World) (id : string) :
  removeObject id w = (Ok tt, w)
  \/ exists obj w',
       removeObject id w = (Ok tt, w')
       /\ JS.find (hasId id) (SceneState.objects (store w)) = Some obj
       /\ SceneObject.locked obj = false
       /\ inLockedGroup (store w) (SceneObject.groupId obj) = false
       /\ store w'
          = SceneState.setObjects
              (List.filter (fun o => negb (hasId id o))
                 (SceneState.objects (store w)))
              (SceneState.setGroups
                 (List.map
                    (fun group =>
                       Group.withObjectIds
                         (List.filter (fun objId => negb (String.eqb objId id))
                            (Group.objectIds group))
                         group)
                    (SceneState.groups (store w)))
                 (SceneState.setSelectedObject
                    (if sameObject (SceneObject.object obj)
                          (SceneState.selectedObject (store w))
                     then None
                     else SceneState.selectedObject (store w))
                    (store w)))
       /\ timers w' = S (timers w)
       /\ heap w' = heap w.
Proof.
  unfold removeObject. run_action.
  destruct (JS.find (hasId id) (SceneState.objects (store w))) as [obj|] eqn:Hf;
    [|left; reflexivity].
  destruct (SceneObject.locked obj) eqn:Hl; [left; reflexivity|].
  destruct (inLockedGroup (store w) (SceneObject.groupId obj)) eqn:Hg;
    [left; reflexivity|].
  right. exists obj.
  destruct (allTruthy _); run_action; eexists; (split; [reflexivity|]);
    repeat split; assumption.
Qed.

(** X13.  [removeObject] takes the object out of the scene for good: when
    the object is neither locked nor in a locked group, no entry with its
    identifier remains, no group lists it any more, the other entries and
    the groups are kept in order, the selection is cleared when it was this
    object (and kept otherwise), and one commit is scheduled.  In every
    case the membership stays bidirectional if it was. *)
Theorem X13_removeObject_unlinks_the_object {H : Host} (w : World)
    (id : string) :
  let w' := after (removeObject id) w in
  outcome (removeObject id) w = Ok tt
  /\ (bidirectional (store w) -> bidirectional (store w'))
  /\ (forall obj,
        JS.find (hasId id) (SceneState.objects (store w)) = Some obj ->
        SceneObject.locked obj = false ->
        inLockedGroup (store w) (SceneObject.groupId obj) = false ->
        SceneState.objects (store w')
        = List.filter (fun o => negb (hasId id o))
            (SceneState.objects (store w))
        /\ (forall o, In o (SceneState.objects (store w')) ->
                      SceneObject.id o <> id)
        /\ (forall g, In g (SceneState.groups (store w')) ->
                      ~ In id (Group.objectIds g))
        /\ List.map Group.id (SceneState.groups (store w'))
           = List.map Group.id (SceneState.groups (store w))
        /\ SceneState.selectedObject (store w')
           = (if sameObject (SceneObject.object obj)
                   (SceneState.selectedObject (store w))
              then None
              else SceneState.selectedObject (store w))
        /\ timers w' = S (timers w)).
Proof.
  cbv zeta. unfold outcome, after.
  destruct (removeObject_effect w id)
    as [E|(obj & w' & E & Hf & Hl & Hg & Hs & Ht & _)]; rewrite E;
    cbn [fst snd].
  - split; [reflexivity|]. split; [auto|].
    intros obj Hf Hl Hg. exfalso. revert E. unfold removeObject. run_action.
    rewrite Hf, Hl, Hg.
    destruct (allTruthy _); run_action; intros [= E];
      apply (f_equal timers) in E; cbn in E; lia.
  - split; [reflexivity|]. rewrite Hs, Ht. store_simpl. split.
    + intros Hb obj' group' Ho Hgr.
      apply List.filter_In in Ho. destruct Ho as [Ho Hid].
      apply List.in_map_iff in Hgr. destruct Hgr as (g & <- & Hgr).
      cbn [Group.id Group.objectIds Group.withObjectIds].
      rewrite (Hb obj' g Ho Hgr), List.filter_In.
      unfold hasId in Hid. split; [|tauto].
      intros Hin. split; [exact Hin | exact Hid].
    + intros obj0 Hf0 _ _. rewrite Hf in Hf0. injection Hf0 as <-.
      split; [reflexivity|]. split.
      { intros o Ho. apply List.filter_In in Ho. destruct Ho as [_ Hid].
        unfold hasId in Hid. apply negb_true_iff in Hid.
        apply String.eqb_neq. exact Hid. }
      split.
      { intros g Hgr Hin. apply List.in_map_iff in Hgr.
        destruct Hgr as (g0 & <- & _).
        cbn [Group.objectIds Group.withObjectIds] in Hin.
        apply List.filter_In in Hin. destruct Hin as [_ Hid].
        rewrite String.eqb_refl in Hid. discriminate. }
      split.
      { rewrite List.map_map. reflexivity. }
      split; reflexivity.
Qed.

Lemma X13_removeObject_unlinks_the_object_witness :
  let w' := after (removeObject (H := referenceHost) "chair") twoGroups in
  SceneState.objects (store w') = []
  /\ List.map Group.objectIds (SceneState.groups (store w')) = [[]; []]
  /\ timers w' = 1.
Proof.
  destruct (X13_removeObject_unlinks_the_object (H := referenceHost) twoGroups
              "chair") as (_ & _ & Hr).
  destruct (Hr (SceneObject.mk "chair" 0 "Chair" true false (Some "kitchen")
                  (Some "doc-chair")) eq_refl eq_refl eq_refl)
    as (Ho & _ & _ & _ & _ & Ht).
  cbv zeta. split; [rewrite Ho; reflexivity|]. split; [reflexivity|].
  rewrite Ht. reflexivity.
Defined.

(** ** The selection follows visibility and locks *)

(** X14.  Hiding or locking the selected object deselects it: after
    [toggleVisibility] the selection is cleared exactly when the object was
    visible and was the selection, after [toggleLock] exactly when it was
    unlocked and was the selection; showing or unlocking an object never
    changes the selection. *)
Theorem X14_hiding_or_locking_the_selection_clears_it {H : Host} (w : World)
    (id : string) (obj : SceneObject.t) :
  JS.find (hasId id) (SceneState.objects (store w)) = Some obj ->
  inLockedGroup (store w) (SceneObject.groupId obj) = false ->
  let selected := SceneState.selectedObject (store w) in
  (SceneObject.locked obj = false ->
   SceneState.selectedObject (store (after (toggleVisibility id) w))
   = if SceneObject.visible obj && sameObject (SceneObject.object obj) selected
     then None else selected)
  /\ SceneState.selectedObject (store (after (toggleLock id) w))
     = if negb (SceneObject.locked obj)
          && sameObject (SceneObject.object obj) selected
       then None else selected.
Proof.
  intros Hf Hg selected. subst selected. split.
  - intros Hl. unfold toggleVisibility. run_action. rewrite Hf, Hl, Hg.
    assert (E : JS.find (hasId id)
                  (List.map
                     (fun o =>
                        if hasId id o
                        then SceneObject.withVisible
                               (negb (SceneObject.visible obj)) o
                        else o)
                     (SceneState.objects (store w)))
                = Some (SceneObject.withVisible
                          (negb (SceneObject.visible obj)) obj)).
    { rewrite (find_map_same_id id
                 (SceneObject.withVisible (negb (SceneObject.visible obj))))
        by reflexivity.
      rewrite Hf. reflexivity. }
    destruct (allTruthy _); run_action; rewrite E;
      cbn [SceneObject.visible SceneObject.object SceneObject.withVisible];
      rewrite negb_involutive; reflexivity.
  - unfold toggleLock. run_action. rewrite Hf, Hg.
    assert (E : JS.find (hasId id)
                  (List.map
                     (fun o =>
                        if hasId id o
                        then SceneObject.withLocked
                               (negb (SceneObject.locked obj)) o
                        else o)
                     (SceneState.objects (store w)))
                = Some (SceneObject.withLocked
                          (negb (SceneObject.locked obj)) obj)).
    { rewrite (find_map_same_id id
                 (SceneObject.withLocked (negb (SceneObject.locked obj))))
        by reflexivity.
      rewrite Hf. reflexivity. }
    destruct (allTruthy _); run_action; rewrite E;
      cbn [SceneObject.locked SceneObject.object SceneObject.withLocked];
      reflexivity.
Qed.

Lemma X14_hiding_or_locking_the_selection_clears_it_witness :
  SceneState.selectedObject (store selectedBoxScene) = Some 0
  /\ SceneState.selectedObject
       (store (after (toggleVisibility (H := referenceHost) "box")
                 selectedBoxScene)) = None
  /\ SceneState.selectedObject
       (store (after (toggleLock (H := referenceHost) "box")
                 selectedBoxScene)) = None.
Proof.
  destruct (X14_hiding_or_locking_the_selection_clears_it (H := referenceHost)
              selectedBoxScene "box"
              (SceneObject.mk "box" 0 "Box" true false None (Some "doc-box"))
              eq_refl eq_refl) as [Hv Hl].
  split; [reflexivity|]. split; [exact (Hv eq_refl) | exact Hl].
Defined.

(** ** Commits below the top of the history *)

(** X15.  A commit made after some states have been undone discards the
    states that could be redone: with the pointer at [i], below the top of a
    stack of at most 50 snapshots, [saveToHistory] keeps the snapshots 0 to
    [i], puts the new one at [i + 1] and the pointer on it; nothing can be
    redone after that. *)
Theorem X15_commit_after_undo_drops_the_redo_states (w : World) :
  let state := store w in
  let i := SceneState.historyIndex state in
  let n := length (SceneState.history state) in
  (-1 <= i < Z.of_nat n - 1)%Z ->
  n <= 50 ->
  exists s w',
    saveToHistory w = (Ok tt, w')
    /\ SceneState.history (store w')
       = (firstn (Z.to_nat (i + 1)) (SceneState.history state) ++ [s])%list
    /\ length (SceneState.history (store w')) = Z.to_nat (i + 2)
    /\ SceneState.historyIndex (store w') = (i + 1)%Z
    /\ SceneState.canUndo (store w') = true
    /\ SceneState.canRedo (store w') = false
    /\ redo w' = (Ok tt, w').
Proof.
  cbv zeta. intros Hi Hn.
  destruct (saveToHistory_spec w) as (s & w1 & _ & _ & E).
  exists s, (setStore (committed s (store w)) w1). split; [exact E|].
  assert (Hp : pushed s (store w)
               = (firstn (Z.to_nat (SceneState.historyIndex (store w) + 1))
                    (SceneState.history (store w)) ++ [s])%list).
  { unfold pushed, JS.slice0.
    destruct (Z.ltb_spec (SceneState.historyIndex (store w) + 1) 0); [lia|].
    destruct (Nat.ltb_spec 50
                (length
                   (firstn (Z.to_nat (SceneState.historyIndex (store w) + 1))
                      (SceneState.history (store w)) ++ [s])%list))
      as [Hlt|_]; [|reflexivity].
    rewrite List.length_app, List.length_firstn in Hlt. cbn [length] in Hlt.
    lia. }
  assert (Hl : length (pushed s (store w))
               = Z.to_nat (SceneState.historyIndex (store w) + 2)).
  { rewrite Hp, List.length_app, List.length_firstn. cbn [length]. lia. }
  unfold committed. cbn [store setStore]. store_simpl.
  split; [exact Hp|]. split; [exact Hl|]. split; [rewrite Hl; lia|].
  split; [reflexivity|]. split; [reflexivity|].
  apply redo_at_top. cbn [store setStore]. store_simpl. lia.
Qed.

Lemma X15_commit_after_undo_drops_the_redo_states_witness :
  length (SceneState.history (store undoneScene)) = 3
  /\ exists s w',
       saveToHistory undoneScene = (Ok tt, w')
       /\ SceneState.history (store w') = [HistoryState.mk [] [] []; s]
       /\ SceneState.historyIndex (store w') = 1%Z
       /\ redo w' = (Ok tt, w').
Proof.
  split; [reflexivity|].
  destruct (X15_commit_after_undo_drops_the_redo_states undoneScene)
    as (s & w' & E & Hh & _ & Hi & _ & _ & Hr).
  - cbn. lia.
  - cbn. lia.
  - exists s, w'. repeat split; assumption.
Defined.

(** ** Edits that are not committed *)

(** X16.  [undo] followed by [redo] brings the scene to the snapshot the
    pointer is on, not to the scene as it was: whatever an action that does
    not commit has changed in between (a rename, a visibility or lock
    toggle, a change of group: none of them commits) is lost. *)
Theorem X16_undo_redo_loses_uncommitted_edits (e : M unit) (w : World)
    (h : HistoryState.t) :
  isEdit e ->
  (0 < SceneState.historyIndex (store w))%Z ->
  nth_error (SceneState.history (store w))
    (Z.to_nat (SceneState.historyIndex (store w))) = Some h ->
  let w' := after redo (after undo (after e w)) in
  outcome undo (after e w) = Ok tt
  /\ outcome redo (after undo (after e w)) = Ok tt
  /\ SceneState.objects (store w') = HistoryState.objects h
  /\ SceneState.groups (store w') = HistoryState.groups h
  /\ SceneState.lights (store w') = List.map relight (HistoryState.lights h)
  /\ SceneState.history (store w') = SceneState.history (store w)
  /\ SceneState.historyIndex (store w') = SceneState.historyIndex (store w).
Proof.
  intros [_ Hkeep] Hi Hn. cbv zeta.
  destruct (Hkeep w) as [Hh Hx]. set (w0 := after e w) in *.
  assert (Hi0 : (0 < SceneState.historyIndex (store w0))%Z) by (rewrite Hx; lia).
  assert (Hn0 : nth_error (SceneState.history (store w0))
                  (Z.to_nat (SceneState.historyIndex (store w0))) = Some h)
    by (rewrite Hh, Hx; exact Hn).
  rewrite <- Hh, <- Hx. clearbody w0. clear Hh Hx Hkeep Hi Hn w e.
  assert (Hlt : (SceneState.historyIndex (store w0)
                 < Z.of_nat (length (SceneState.history (store w0))))%Z).
  { assert (Z.to_nat (SceneState.historyIndex (store w0))
            < length (SceneState.history (store w0))).
    { apply List.nth_error_Some. rewrite Hn0. discriminate. }
    lia. }
  destruct (nth_error (SceneState.history (store w0))
              (Z.to_nat (SceneState.historyIndex (store w0) - 1)))
    as [h0|] eqn:Hp.
  2:{ apply nth_error_None in Hp. lia. }
  pose proof (undo_in_range w0 h0 Hi0 Hp) as Hu.
  unfold outcome, after. rewrite Hu. cbn [fst snd].
  set (w1 := setStore _ w0).
  assert (Hx : SceneState.historyIndex (store w1)
               = (SceneState.historyIndex (store w0) - 1)%Z) by reflexivity.
  assert (Hh : SceneState.history (store w1) = SceneState.history (store w0))
    by reflexivity.
  rewrite (redo_in_range w1 h).
  - cbn [fst snd]. unfold restore at 1. cbn [store setStore]. store_simpl.
    repeat split. unfold restore. store_simpl. rewrite Hx. lia.
  - rewrite Hx, Hh. lia.
  - rewrite Hx, Hh, at_nth by lia. rewrite <- Hn0. f_equal. lia.
Qed.

Lemma X16_undo_redo_loses_uncommitted_edits_witness :
  let renamed := after (updateObjectName (H := referenceHost) "a" "Z")
                   committedScene in
  List.map SceneObject.name (SceneState.objects (store renamed)) = ["Z"]
  /\ List.map SceneObject.name
       (SceneState.objects (store (after redo (after undo renamed)))) = ["A"].
Proof.
  cbv zeta. split; [reflexivity|].
  destruct (X16_undo_redo_loses_uncommitted_edits
              (updateObjectName (H := referenceHost) "a" "Z") committedScene
              (HistoryState.mk
                 [SceneObject.mk "a" 1 "A" true false None None] [] []))
    as (_ & _ & Ho & _).
  - apply updateObjectName_isEdit.
  - cbn. lia.
  - reflexivity.
  - rewrite Ho. reflexivity.
Defined.

(** ** Regrouping *)

(** X17.  The regrouping actions that unlink before they link keep the
    group membership bidirectional: [moveObjectsToGroup] for every list of
    objects and every target, [removeObjectFromGroup] for every object, and
    [addObjectToGroup] for an object that is in no group yet. *)
Theorem X17_regrouping_keeps_membership {H : Host} (w : World) :
  bidirectional (store w) ->
  (forall group, In group (SceneState.groups (store w)) ->
                 Group.id group <> "") ->
  List.NoDup (List.map SceneObject.id (SceneState.objects (store w))) ->
  (forall ids groupId,
      bidirectional (store (after (moveObjectsToGroup ids groupId) w)))
  /\ (forall objectId,
        bidirectional (store (after (removeObjectFromGroup objectId) w)))
  /\ (forall objectId groupId,
        (forall obj, In obj (SceneState.objects (store w)) ->
                     SceneObject.id obj = objectId ->
                     SceneObject.groupId obj = None) ->
        bidirectional (store (after (addObjectToGroup objectId groupId) w))).
Proof.
  intros Hb Hne Hnd. split; [|split].
  - intros ids groupId. apply moveObjectsToGroup_bidirectional; assumption.
  - intros objectId. apply removeObjectFromGroup_bidirectional; assumption.
  - intros objectId groupId Hnone.
    apply addObjectToGroup_bidirectional; assumption.
Qed.

Lemma X17_regrouping_keeps_membership_witness :
  bidirectional
    (store (after (moveObjectsToGroup (H := referenceHost) ["chair"]
                     (Some "hall")) twoGroups))
  /\ bidirectional
       (store (after (removeObjectFromGroup (H := referenceHost) "chair")
                 twoGroups)).
Proof.
  destruct (X17_regrouping_keeps_membership (H := referenceHost) twoGroups)
    as (Hm & Hr & _).
  - apply bidirectionalb_spec. reflexivity.
  - intros group [<-|[<-|[]]]; discriminate.
  - repeat constructor. intros [].
  - split; [apply Hm | apply Hr].
Defined.

(** ** Folding a group *)

Lemma toggle_expanded_twice (groupId : string) (l : list Group.t) :
  List.map
    (fun group =>
       if groupHasId groupId group
       then withExpanded (negb (Group.expanded group)) group
       else group)
    (List.map
       (fun group =>
          if groupHasId groupId group
          then withExpanded (negb (Group.expanded group)) group
          else group)
       l)
  = l.
Proof.
  induction l as [|g l IH]; [reflexivity|].
  cbn [List.map]. rewrite IH. f_equal.
  unfold groupHasId. destruct (String.eqb (Group.id g) groupId) eqn:E.
  - cbn [withExpanded Group.id]. rewrite E. destruct g as [i n e v k o f].
    cbn. rewrite negb_involutive. reflexivity.
  - rewrite E. reflexivity.
Qed.

(** X18.  Folding or unfolding a group is local view state: only the
    [expanded] flag of the group changes; the objects, the other fields of
    the groups, the history and the unsaved-changes flag are left alone and
    the gateway is not called; doing it twice restores the world. *)
Theorem X18_toggleGroupExpanded_is_a_local_involution (w : World)
    (groupId : string) :
  let w1 := after (toggleGroupExpanded groupId) w in
  outcome (toggleGroupExpanded groupId) w = Ok tt
  /\ after (toggleGroupExpanded groupId) w1 = w
  /\ List.map Group.expanded (SceneState.groups (store w1))
     = List.map
         (fun group =>
            if groupHasId groupId group then negb (Group.expanded group)
            else Group.expanded group)
         (SceneState.groups (store w))
  /\ List.map (withExpanded true) (SceneState.groups (store w1))
     = List.map (withExpanded true) (SceneState.groups (store w))
  /\ SceneState.setGroups (SceneState.groups (store w)) (store w1) = store w
  /\ log w1 = log w /\ heap w1 = heap w /\ timers w1 = timers w.
Proof.
  cbv zeta. unfold toggleGroupExpanded. run_action.
  split; [reflexivity|]. split.
  { rewrite toggle_expanded_twice. destruct w as [[] ? ? ? ? ?]. reflexivity. }
  split.
  { rewrite List.map_map. apply List.map_ext. intros g.
    destruct (groupHasId groupId g); reflexivity. }
  split.
  { rewrite !List.map_map. apply List.map_ext. intros g.
    destruct (groupHasId groupId g); reflexivity. }
  split; [destruct w as [[] ? ? ? ? ?]; reflexivity|].
  repeat split.
Qed.

(* ===================================================================== *)
(** * Properties of the rest of the store *)
(* ===================================================================== *)

Ltac run_studio :=
  unfold bindS, retS, lift, getRest, setRest, awaitGroup, afterS, outcomeS
    in *;
  run_action;
  cbn [world rest groupLog fst snd
       Rest.transformMode Rest.editMode Rest.cameraZoom
       Rest.persistentTransformMode Rest.persistentEditMode Rest.draggedEdge
       Rest.placementMode Rest.pendingObject
       Rest.setTransformMode Rest.setEditMode Rest.setCameraZoom
       Rest.setPersistentTransformMode Rest.setPersistentEditMode
       Rest.setDraggedEdge Rest.setPlacementMode Rest.setPendingObject] in *.

(** ** Selecting *)

(** X19.  A locked object cannot be selected: [setSelectedObject] on an
    object whose entry is locked, or is in a locked group, changes nothing.
    An object that can be selected becomes the selection, with the transform
    mode kept.  Deselecting clears the selection, the edit mode and the
    transform mode, and keeps the persistent modes.  Nothing else of the
    store changes in any case. *)
Theorem X19_locked_objects_cannot_be_selected (st : Studio) (r : nat) :
  let state := store (world st) in
  (canSelectObject state r = false ->
   setSelectedObject (Some r) st = (Ok tt, st))
  /\ (forall obj,
        JS.find (holds r) (SceneState.objects state) = Some obj ->
        canSelectObject state r
        = negb (isObjectLocked state (SceneObject.id obj)))
  /\ (canSelectObject state r = true ->
      let st' := afterS (setSelectedObject (Some r)) st in
      outcomeS (setSelectedObject (Some r)) st = Ok tt
      /\ store (world st')
         = SceneState.setSelectedObject (Some r) state
      /\ Rest.transformMode (rest st') = Rest.transformMode (rest st)
      /\ Rest.setEditMode None (rest st') = Rest.setEditMode None (rest st))
  /\ (let st' := afterS (setSelectedObject None) st in
      outcomeS (setSelectedObject None) st = Ok tt
      /\ store (world st') = SceneState.setSelectedObject None state
      /\ rest st'
         = Rest.setEditMode None (Rest.setTransformMode None (rest st))).
Proof.
  cbv zeta. split; [|split; [|split]].
  - intros Hc. unfold setSelectedObject. run_studio. rewrite Hc.
    destruct st; reflexivity.
  - intros obj Hf. unfold canSelectObject. rewrite Hf. reflexivity.
  - intros Hc. unfold setSelectedObject. run_studio. rewrite Hc.
    cbn [negb]. run_studio. repeat split.
  - unfold setSelectedObject. run_studio. repeat split.
Qed.



(** ** The camera zoom *)

Lemma flatten_cmp (x y : float) :
  match SpecFloat.SFcompare (FloatOps.Prim2SF x) (FloatOps.Prim2SF y) with
  | Some Eq => PrimFloat.compare x y = FEq /\ PrimFloat.leb x y = true
  | Some Lt => PrimFloat.compare x y = FLt /\ PrimFloat.leb x y = true
  | Some Gt => PrimFloat.compare x y = FGt
  | None => PrimFloat.compare x y = FNotComparable
  end.
Proof.
  rewrite FloatAxioms.compare_spec, FloatAxioms.leb_spec.
  unfold SpecFloat.SFleb.
  destruct (SpecFloat.SFcompare _ _) as [[| |]|]; cbn; auto.
Qed.

Lemma mathMin_bound (a b : float) :
  PrimFloat.leb b b = true ->
  PrimFloat.is_nan (mathMin a b) = true
  \/ PrimFloat.leb (mathMin a b) b = true.
Proof.
  intros Hb. unfold mathMin. pose proof (flatten_cmp a b) as Hc.
  destruct (SpecFloat.SFcompare _ _) as [[| |]|].
  - destruct Hc as [-> Hle]. destruct (PrimFloat.classify a); auto.
  - destruct Hc as [-> Hle]. auto.
  - rewrite Hc. auto.
  - rewrite Hc. left. reflexivity.
Qed.

Lemma mathMax_bound (a b : float) :
  PrimFloat.leb b b = true ->
  PrimFloat.is_nan (mathMax a b) = true
  \/ PrimFloat.leb b (mathMax a b) = true.
Proof.
  intros Hb. unfold mathMax. pose proof (flatten_cmp b a) as Hc.
  destruct (SpecFloat.SFcompare _ _) as [[| |]|].
  - destruct Hc as [-> Hle]. destruct (PrimFloat.classify a); auto.
  - destruct Hc as [-> Hle]. auto.
  - rewrite Hc. auto.
  - rewrite Hc. left. reflexivity.
Qed.

(** X21.  The zoom is clamped: whatever the zoom was, [zoomIn] never leaves
    it above 5 and [zoomOut] never leaves it below 0.1 (a zoom that is not a
    number stays one).  At the bounds the zoom stays where it is, and from
    the initial zoom 1 one [zoomIn] gives 1.2.  Both actions flag unsaved
    changes and touch nothing else. *)
Theorem X21_zoom_is_clamped (st : Studio) :
  let zin := Rest.cameraZoom (rest (afterS zoomIn st)) in
  let zout := Rest.cameraZoom (rest (afterS zoomOut st)) in
  (PrimFloat.is_nan zin = true \/ PrimFloat.leb zin 5 = true)
  /\ (PrimFloat.is_nan zout = true \/ PrimFloat.leb 0.1 zout = true)
  /\ (Rest.cameraZoom (rest st) = 5%float -> zin = 5%float)
  /\ (Rest.cameraZoom (rest st) = 0.1%float -> zout = 0.1%float)
  /\ (Rest.cameraZoom (rest st) = 1%float -> zin = 1.2%float)
  /\ afterS zoomIn st
     = mkStudio
         (setStore (SceneState.setHasUnsavedChanges true (store (world st)))
            (world st))
         (Rest.setCameraZoom zin (rest st)) (groupLog st)
  /\ afterS zoomOut st
     = mkStudio
         (setStore (SceneState.setHasUnsavedChanges true (store (world st)))
            (world st))
         (Rest.setCameraZoom zout (rest st)) (groupLog st).
Proof.
  cbv zeta. unfold zoomIn, zoomOut. run_studio.
  split; [apply mathMin_bound; reflexivity|].
  split; [apply mathMax_bound; reflexivity|].
  split; [intros ->; reflexivity|].
  split; [intros ->; reflexivity|].
  split; [intros ->; reflexivity|].
  split; reflexivity.
Qed.

(** ** Placing an object *)

(** X22.  [placeObjectAt] does nothing without a pending object.  With one,
    it builds the object (the pending group, or a mesh of the pending
    geometry with a new standard material of the pending colour,
    ['#44aa88'] by default), puts it at the position and rotation given, adds
    it to the scene under the pending name through [addObject], makes it
    the selection, and leaves the placement mode; the edit and transform
    modes are not touched. *)
Theorem X22_placeObjectAt_places_the_pending_object {L : ThreeLib} {H : Host}
    (st : Studio) (position : Vector3.t) (rotation : option Vector3.t) :
  let w := world st in
  (Rest.pendingObject (rest st) = None ->
   placeObjectAt position rotation st = (Ok tt, st))
  /\ (forall pending,
        Rest.pendingObject (rest st) = Some pending ->
        freshUuid w ->
        exists st' fid,
          placeObjectAt position rotation st = (Ok tt, st')
          /\ heap (world st') !! nextRef w
             = Some (placedObject pending position rotation)
          /\ Object3D.position (placedObject pending position rotation)
             = position
          /\ SceneState.objects (store (world st'))
             = (SceneState.objects (store w)
                ++ [SceneObject.mk (uuid (uuidCount w)) (nextRef w)
                      (PendingObject.name pending) true false None fid])%list
          /\ (inProject (store w) = false -> fid = None)
          /\ SceneState.selectedObject (store (world st'))
             = Some (nextRef w)
          /\ rest st'
             = Rest.setPlacementMode false
                 (Rest.setPendingObject None (rest st))
          /\ timers (world st') = S (timers w)
          /\ SceneState.history (store (world st'))
             = SceneState.history (store w)).
Proof.
  cbv zeta. split.
  - intros Hp. unfold placeObjectAt. run_studio. rewrite Hp.
    destruct st; reflexivity.
  - intros pending Hp Hfresh. unfold placeObjectAt.
    unfold bindS at 1, getRest at 1. cbn beta iota. rewrite Hp.
    unfold bindS at 1, lift at 1, alloc at 1. cbn beta iota zeta.
    cbn [world rest groupLog].
    set (w1 := mkWorld _ _ _ _ _ _).
    assert (Hf1 : freshUuid w1) by exact Hfresh.
    pose proof (addObject_spec (nextRef (world st))
                  (PendingObject.name pending) w1 Hf1) as Ha.
    cbv zeta in Ha.
    unfold bindS at 1, lift at 1. cbn [world rest groupLog]. rewrite Ha.
    run_studio.
    eexists _, (persistedId w1 (nextRef (world st))
                  (PendingObject.name pending)).
    split; [reflexivity|]. cbn [world rest groupLog]. store_simpl.
    split; [apply lookup_insert_eq|]. split; [reflexivity|].
    split; [reflexivity|].
    split.
    { intros Hin. unfold persistedId. subst w1. cbn [store].
      rewrite Hin. reflexivity. }
    repeat split.
Qed.

Lemma X22_placeObjectAt_places_the_pending_object_witness :
  exists st',
    placeObjectAt (L := referenceThree) (H := referenceHost)
      (Vector3.mk 1 2 3) None placingStudio = (Ok tt, st')
    /\ List.map
         (fun o => (SceneObject.id o, SceneObject.object o, SceneObject.name o))
         (SceneState.objects (store (world st')))
       = [("uuid-", 1, "Sphere")]
    /\ option_map Object3D.position (heap (world st') !! 1)
       = Some (Vector3.mk 1 2 3)
    /\ option_map materialOf (heap (world st') !! 1)
       = Some (Some (MeshStandardMaterial
                       (StandardMaterial.mk "ff0000" 1 false 0 1)))
    /\ SceneState.selectedObject (store (world st')) = Some 1
    /\ Rest.placementMode (rest st') = false
    /\ Rest.pendingObject (rest st') = None.
Proof.
  destruct (X22_placeObjectAt_places_the_pending_object (L := referenceThree)
              (H := referenceHost) placingStudio (Vector3.mk 1 2 3) None)
    as [_ Hplace].
  destruct (Hplace _ eq_refl) as (st' & fid & E & Hh & _ & Ho & _ & Hs & Hr & _).
  - intros obj [].
  - exists st'. split; [exact E|]. rewrite Ho, Hs, Hr.
    change 1 with (nextRef (world placingStudio)). rewrite Hh.
    repeat split.
Defined.

(** ** Groups: locks and visibility *)

Lemma find_map_group (id : string) (f : Group.t -> Group.t)
    (l : list Group.t) :
  (forall g, Group.id (f g) = Group.id g) ->
  JS.find (groupHasId id) (List.map (fun g => if groupHasId id g then f g else g) l)
  = option_map f (JS.find (groupHasId id) l).
Proof.
  intros Hid. unfold JS.find. induction l as [|g l IH]; [reflexivity|].
  cbn [List.map List.find]. destruct (groupHasId id g) eqn:E.
  - unfold groupHasId in *. rewrite Hid, E. reflexivity.
  - rewrite E. exact IH.
Qed.

Lemma toggleGroupLock_runs {G : GroupGateway} (st : Studio) (gid : string)
    (group : Group.t) :
  JS.find (groupHasId gid) (SceneState.groups (store (world st))) = Some group ->
  let state := store (world st) in
  let state1 :=
    SceneState.setGroups
      (List.map
         (fun g =>
            if groupHasId gid g
            then withGroupLocked (negb (Group.locked group)) g
            else g)
         (SceneState.groups state))
      (SceneState.setSelectedObject
         (selectionAfterGroupToggle state group (negb (Group.locked group)))
         state) in
  toggleGroupLock gid st
  = (Ok tt,
     mkStudio
       (setStore (SceneState.setHasUnsavedChanges true state1) (world st))
       (rest st)
       (groupLog st
        ++ List.map
             (fun req =>
                mkGroupEvent req (groupReply (length (groupLog st)) req) state1)
             (groupPatchRequests state group
                (PatchGroupLocked (negb (Group.locked group)))))%list).
Proof.
  intros Hf. cbv zeta. unfold toggleGroupLock, groupPatchRequests,
    selectionAfterGroupToggle.
  run_studio. rewrite Hf.
  destruct (allTruthy _); run_studio; cbn [List.map];
    rewrite ?List.app_nil_r; reflexivity.
Qed.

(** X23.  Locking a group locks its members without touching them:
    [toggleGroupLock] flips the lock of the group, whatever it was (a locked
    group can always be unlocked), and leaves the entries as they are; from
    then on every object that names the group is reported locked exactly
    when it is locked itself or the group now is, and while the group is
    locked the rename, the visibility toggle and the removal of a member do
    nothing.  The selection is dropped when the group becomes locked and
    lists the selected entry. *)
Theorem X23_locking_a_group_locks_its_members {H : Host} {G : GroupGateway}
    (st : Studio) (gid : string) (group : Group.t) :
  JS.find (groupHasId gid) (SceneState.groups (store (world st))) = Some group ->
  gid <> "" ->
  let state := store (world st) in
  let st' := afterS (toggleGroupLock gid) st in
  let state' := store (world st') in
  outcomeS (toggleGroupLock gid) st = Ok tt
  /\ SceneState.objects state' = SceneState.objects state
  /\ JS.find (groupHasId gid) (SceneState.groups state')
     = Some (withGroupLocked (negb (Group.locked group)) group)
  /\ SceneState.selectedObject state'
     = selectionAfterGroupToggle state group (negb (Group.locked group))
  /\ List.map groupRequest (groupLog st')
     = (List.map groupRequest (groupLog st)
        ++ groupPatchRequests state group
             (PatchGroupLocked (negb (Group.locked group))))%list
  /\ (forall id obj,
        JS.find (hasId id) (SceneState.objects state) = Some obj ->
        SceneObject.groupId obj = Some gid ->
        isObjectLocked state' id
        = SceneObject.locked obj || negb (Group.locked group))
  /\ (Group.locked group = false ->
      forall id obj name,
        JS.find (hasId id) (SceneState.objects state) = Some obj ->
        SceneObject.groupId obj = Some gid ->
        updateObjectName id name (world st') = (Ok tt, world st')
        /\ toggleVisibility id (world st') = (Ok tt, world st')
        /\ removeObject id (world st') = (Ok tt, world st')).
Proof.
  intros Hf Hgid. cbv zeta. unfold afterS, outcomeS.
  rewrite (toggleGroupLock_runs st gid group Hf). cbn [fst snd world groupLog].
  cbn [store setStore].
  set (state' := SceneState.setHasUnsavedChanges true _).
  assert (Hgroups : SceneState.groups state'
                    = List.map
                        (fun g =>
                           if groupHasId gid g
                           then withGroupLocked (negb (Group.locked group)) g
                           else g)
                        (SceneState.groups (store (world st))))
    by reflexivity.
  assert (Hobjects : SceneState.objects state'
                     = SceneState.objects (store (world st))) by reflexivity.
  assert (Hfind : JS.find (groupHasId gid) (SceneState.groups state')
                  = Some (withGroupLocked (negb (Group.locked group)) group)).
  { rewrite Hgroups.
    rewrite (find_map_group gid (withGroupLocked (negb (Group.locked group))))
      by reflexivity.
    rewrite Hf. reflexivity. }
  assert (Hin : forall obj,
             SceneObject.groupId obj = Some gid ->
             inLockedGroup state' (SceneObject.groupId obj)
             = negb (Group.locked group)).
  { intros obj Hg. unfold inLockedGroup. rewrite Hg. cbn [JS.truthyStr].
    destruct (String.eqb_spec gid "") as [|_]; [contradiction|].
    cbn [negb str JS.nullish]. rewrite Hfind. reflexivity. }
  split; [reflexivity|]. split; [exact Hobjects|]. split; [exact Hfind|].
  split; [reflexivity|].
  split.
  { rewrite List.map_app, List.map_map. cbn [groupRequest].
    rewrite List.map_id. reflexivity. }
  split.
  { intros id obj Ho Hg. unfold isObjectLocked. rewrite Hobjects, Ho.
    rewrite (Hin obj Hg). destruct (SceneObject.locked obj); reflexivity. }
  intros Hl id obj name Ho Hg. specialize (Hin obj Hg). rewrite Hl in Hin.
  cbn [negb] in Hin. rewrite <- Hobjects in Ho.
  clearbody state'.
  repeat split.
  - unfold updateObjectName. run_action. rewrite Ho.
    destruct (SceneObject.locked obj); [reflexivity|].
    rewrite Hin. reflexivity.
  - unfold toggleVisibility. run_action. rewrite Ho.
    destruct (SceneObject.locked obj); [reflexivity|].
    rewrite Hin. reflexivity.
  - unfold removeObject. run_action. rewrite Ho.
    destruct (SceneObject.locked obj); [reflexivity|].
    rewrite Hin. reflexivity.
Qed.

Lemma X23_locking_a_group_locks_its_members_witness :
  let st' := afterS (toggleGroupLock (G := referenceGroups) "kitchen")
               kitchenStudio in
  isObjectLocked (store (world kitchenStudio)) "chair" = false
  /\ isObjectLocked (store (world st')) "chair" = true
  /\ List.map SceneObject.locked (SceneState.objects (store (world st')))
     = [false]
  /\ SceneState.selectedObject (store (world st')) = None
  /\ removeObject (H := referenceHost) "chair" (world st')
     = (Ok tt, world st').
Proof.
  destruct (X23_locking_a_group_locks_its_members (H := referenceHost)
              (G := referenceGroups) kitchenStudio "kitchen"
              (Group.mk "kitchen" "Kitchen" true true false ["chair"]
                 (Some "doc-kitchen")) eq_refl)
    as (_ & Ho & _ & Hs & _ & Hl & Hfrozen).
  - discriminate.
  - cbv zeta. split; [reflexivity|].
    split; [rewrite (Hl "chair" _ eq_refl eq_refl); reflexivity|].
    split; [rewrite Ho; reflexivity|].
    split; [rewrite Hs; reflexivity|].
    apply (Hfrozen eq_refl "chair" _ "" eq_refl eq_refl).
Defined.

Lemma toggleGroupVisibility_runs {G : GroupGateway} (st : Studio)
    (gid : string) (group : Group.t) :
  JS.find (groupHasId gid) (SceneState.groups (store (world st))) = Some group ->
  Group.locked group = false ->
  let state := store (world st) in
  let state1 :=
    SceneState.setGroups
      (List.map
         (fun g =>
            if groupHasId gid g
            then withGroupVisible (negb (Group.visible group)) g
            else g)
         (SceneState.groups state))
      (SceneState.setObjects
         (List.map
            (fun obj =>
               if JS.includes (SceneObject.id obj) (Group.objectIds group)
               then SceneObject.withVisible (negb (Group.visible group)) obj
               else obj)
            (SceneState.objects state))
         (SceneState.setSelectedObject
            (selectionAfterGroupToggle state group
               (negb (negb (Group.visible group))))
            state)) in
  toggleGroupVisibility gid st
  = (Ok tt,
     mkStudio
       (setStore (SceneState.setHasUnsavedChanges true state1) (world st))
       (rest st)
       (groupLog st
        ++ List.map
             (fun req =>
                mkGroupEvent req (groupReply (length (groupLog st)) req) state1)
             (groupPatchRequests state group
                (PatchGroupVisible (negb (Group.visible group)))))%list).
Proof.
  intros Hf Hl. cbv zeta. unfold toggleGroupVisibility, groupPatchRequests,
    selectionAfterGroupToggle.
  run_studio. rewrite Hf, Hl.
  destruct (allTruthy _); run_studio; cbn [List.map];
    rewrite ?List.app_nil_r; reflexivity.
Qed.

(** X24.  The visibility of a group overrides that of its members.  On a
    locked group [toggleGroupVisibility] does nothing.  On an unlocked one
    it flips the flag of the group and gives every entry the group lists
    the new value, whatever its own flag was and whether or not the entry is
    locked; the other entries and every lock are left alone, and the
    selection is dropped when the group is hidden and lists the selected
    entry.  Toggling twice therefore does not bring back a member that was
    hidden on its own: every listed entry ends with the visibility the group
    started with. *)
Theorem X24_group_visibility_overrides_members {G : GroupGateway}
    (st : Studio) (gid : string) (group : Group.t) :
  JS.find (groupHasId gid) (SceneState.groups (store (world st))) = Some group ->
  let state := store (world st) in
  let st' := afterS (toggleGroupVisibility gid) st in
  let st'' := afterS (toggleGroupVisibility gid) st' in
  (Group.locked group = true -> toggleGroupVisibility gid st = (Ok tt, st))
  /\ (Group.locked group = false ->
      outcomeS (toggleGroupVisibility gid) st = Ok tt
      /\ JS.find (groupHasId gid) (SceneState.groups (store (world st')))
         = Some (withGroupVisible (negb (Group.visible group)) group)
      /\ List.map
           (fun obj => (SceneObject.id obj, SceneObject.visible obj))
           (SceneState.objects (store (world st')))
         = List.map
             (fun obj =>
                (SceneObject.id obj,
                 if JS.includes (SceneObject.id obj) (Group.objectIds group)
                 then negb (Group.visible group)
                 else SceneObject.visible obj))
             (SceneState.objects state)
      /\ List.map (SceneObject.withVisible true)
           (SceneState.objects (store (world st')))
         = List.map (SceneObject.withVisible true) (SceneState.objects state)
      /\ SceneState.selectedObject (store (world st'))
         = selectionAfterGroupToggle state group (Group.visible group)
      /\ List.map groupRequest (groupLog st')
         = (List.map groupRequest (groupLog st)
            ++ groupPatchRequests state group
                 (PatchGroupVisible (negb (Group.visible group))))%list
      /\ List.map
           (fun obj => (SceneObject.id obj, SceneObject.visible obj))
           (SceneState.objects (store (world st'')))
         = List.map
             (fun obj =>
                (SceneObject.id obj,
                 if JS.includes (SceneObject.id obj) (Group.objectIds group)
                 then Group.visible group
                 else SceneObject.visible obj))
             (SceneState.objects state)).
Proof.
  intros Hf. cbv zeta. split.
  - intros Hl. unfold toggleGroupVisibility. run_studio. rewrite Hf, Hl.
    destruct st; reflexivity.
  - intros Hl. unfold afterS, outcomeS.
    rewrite (toggleGroupVisibility_runs st gid group Hf Hl).
    cbn [fst snd].
    set (st1 := mkStudio _ _ _).
    assert (Hf1 : JS.find (groupHasId gid)
                    (SceneState.groups (store (world st1)))
                  = Some (withGroupVisible (negb (Group.visible group)) group)).
    { subst st1. cbn [world store setStore]. store_simpl.
      rewrite (find_map_group gid
                 (withGroupVisible (negb (Group.visible group))))
        by reflexivity.
      rewrite Hf. reflexivity. }
    rewrite (toggleGroupVisibility_runs st1 gid _ Hf1 Hl).
    subst st1. cbn [fst snd world groupLog store setStore]. store_simpl.
    cbn [Group.visible Group.objectIds withGroupVisible].
    split; [reflexivity|]. split; [exact Hf1|].
    split.
    { rewrite List.map_map. apply List.map_ext. intros obj.
      destruct (JS.includes _ _); reflexivity. }
    split.
    { rewrite List.map_map. apply List.map_ext. intros obj.
      destruct (JS.includes _ _); reflexivity. }
    split; [rewrite negb_involutive; reflexivity|].
    split.
    { rewrite List.map_app, List.map_map. cbn [groupRequest].
      rewrite List.map_id. reflexivity. }
    rewrite !List.map_map. apply List.map_ext. intros obj.
    destruct (JS.includes (SceneObject.id obj) (Group.objectIds group)) eqn:E;
      cbn [SceneObject.id SceneObject.visible SceneObject.withVisible];
      rewrite E; cbn [SceneObject.id SceneObject.visible
                      SceneObject.withVisible];
      rewrite ?negb_involutive; reflexivity.
Qed.

Lemma X24_group_visibility_overrides_members_witness :
  let st' := afterS (toggleGroupVisibility (G := referenceGroups) "den")
               denStudio in
  let st'' := afterS (toggleGroupVisibility (G := referenceGroups) "den") st' in
  List.map (fun obj => (SceneObject.id obj, SceneObject.visible obj))
    (SceneState.objects (store (world denStudio)))
  = [("lamp", false); ("sofa", true); ("rug", true)]
  /\ List.map (fun obj => (SceneObject.id obj, SceneObject.visible obj))
       (SceneState.objects (store (world st')))
     = [("lamp", false); ("sofa", false); ("rug", true)]
  /\ List.map (fun obj => (SceneObject.id obj, SceneObject.visible obj))
       (SceneState.objects (store (world st'')))
     = [("lamp", true); ("sofa", true); ("rug", true)].
Proof.
  destruct (X24_group_visibility_overrides_members (G := referenceGroups)
              denStudio "den"
              (Group.mk "den" "Den" true true false ["lamp"; "sofa"]
                 (Some "doc-den")) eq_refl) as [_ Hrun].
  destruct (Hrun eq_refl) as (_ & _ & H1 & _ & _ & _ & H2).
  cbv zeta. split; [reflexivity|].
  split; [rewrite H1; reflexivity | rewrite H2; reflexivity].
Defined.

(** ** Groups: creation and removal *)

Lemma removeGroup_runs {G : GroupGateway} (st : Studio) (gid : string)
    (group : Group.t) :
  JS.find (groupHasId gid) (SceneState.groups (store (world st))) = Some group ->
  Group.locked group = false ->
  let state := store (world st) in
  let calls :=
    if allTruthy [Group.firestoreId group; SceneState.currentProjectId state]
    then [deleteGroup (str (Group.firestoreId group))
            (str (SceneState.currentProjectId state))]
    else [] in
  removeGroup gid st
  = lift saveToHistory
      (mkStudio
         (setStore
            (SceneState.setGroups
               (List.filter (fun g => negb (groupHasId gid g))
                  (SceneState.groups state))
               (SceneState.setObjects
                  (ungrouped gid (SceneState.objects state)) state))
            (world st))
         (rest st)
         (groupLog st
          ++ List.map
               (fun req =>
                  mkGroupEvent req (groupReply (length (groupLog st)) req)
                    state)
               calls)%list).
Proof.
  intros Hf Hl. cbv zeta. unfold removeGroup, ungrouped.
  unfold bindS at 1, lift at 1, get at 1. cbn beta iota zeta.
  cbn [world rest groupLog]. rewrite Hf, Hl.
  unfold bindS at 1.
  destruct (allTruthy _).
  - unfold bindS at 1, awaitGroup, retS. cbn beta iota zeta.
    unfold bindS at 1, lift at 1, set at 1. cbn beta iota zeta.
    cbn [world rest groupLog List.map]. reflexivity.
  - unfold retS at 1. cbn beta iota zeta.
    unfold bindS at 1, lift at 1, set at 1. cbn beta iota zeta.
    cbn [world rest groupLog List.map]. rewrite List.app_nil_r.
    destruct st; reflexivity.
Qed.

(** X25.  [removeGroup] dissolves a group without touching its members
    otherwise.  It does nothing when no group has the identifier or when the
    group is locked.  Otherwise every group with the identifier is gone, the
    entries that named it are in no group any more and keep everything else,
    the membership stays bidirectional if it was, a delete request is sent
    for a persisted group, and the result is committed to the history at
    once. *)
Theorem X25_removeGroup_ungroups_the_members {G : GroupGateway} (st : Studio)
    (gid : string) :
  let state := store (world st) in
  let found := JS.find (groupHasId gid) (SceneState.groups state) in
  let st' := afterS (removeGroup gid) st in
  let state' := store (world st') in
  (found = None \/ option_map Group.locked found = Some true ->
   removeGroup gid st = (Ok tt, st))
  /\ (forall group,
        found = Some group ->
        Group.locked group = false ->
        outcomeS (removeGroup gid) st = Ok tt
        /\ SceneState.groups state'
           = List.filter (fun g => negb (groupHasId gid g))
               (SceneState.groups state)
        /\ SceneState.objects state'
           = ungrouped gid (SceneState.objects state)
        /\ (forall g, In g (SceneState.groups state') -> Group.id g <> gid)
        /\ (forall obj, In obj (SceneState.objects state') ->
                        SceneObject.groupId obj <> Some gid)
        /\ List.map (SceneObject.withGroupId None) (SceneState.objects state')
           = List.map (SceneObject.withGroupId None)
               (SceneState.objects state)
        /\ (bidirectional state -> bidirectional state')
        /\ (exists s, SceneState.history state' = pushed s state)
        /\ List.map groupRequest (groupLog st')
           = (List.map groupRequest (groupLog st)
              ++ if allTruthy [Group.firestoreId group;
                               SceneState.currentProjectId state]
                 then [deleteGroup (str (Group.firestoreId group))
                         (str (SceneState.currentProjectId state))]
                 else [])%list).
Proof.
  cbv zeta. split.
  - intros Hnone. unfold removeGroup. run_studio.
    destruct (JS.find (groupHasId gid) (SceneState.groups (store (world st))))
      as [group|]; [|destruct st; reflexivity].
    destruct Hnone as [Hnone|Hlocked]; [discriminate|].
    cbn in Hlocked. injection Hlocked as ->. destruct st; reflexivity.
  - intros group Hf Hl. unfold afterS, outcomeS.
    rewrite (removeGroup_runs st gid group Hf Hl). unfold lift.
    cbn [world rest groupLog].
    match goal with
    | |- context [saveToHistory ?w0] =>
        destruct (saveToHistory_spec w0) as (s & w1 & _ & _ & E)
    end.
    rewrite E. cbn [fst snd world groupLog store setStore].
    unfold committed. store_simpl.
    split; [reflexivity|]. split; [reflexivity|]. split; [reflexivity|].
    split.
    { intros g Hg. apply List.filter_In in Hg. destruct Hg as [_ Hg].
      unfold groupHasId in Hg. apply negb_true_iff in Hg.
      apply String.eqb_neq. exact Hg. }
    split.
    { intros obj Ho. unfold ungrouped in Ho. apply List.in_map_iff in Ho.
      destruct Ho as (o & <- & _).
      destruct (bool_decide (SceneObject.groupId o = Some gid)) eqn:E';
        [discriminate|].
      apply bool_decide_eq_false in E'. exact E'. }
    split.
    { unfold ungrouped. rewrite List.map_map. apply List.map_ext. intros o.
      destruct (bool_decide _); reflexivity. }
    split.
    { intros Hb obj' g' Ho Hg. store_simpl.
      apply List.filter_In in Hg. destruct Hg as [Hg Hne].
      unfold groupHasId in Hne. apply negb_true_iff in Hne.
      apply String.eqb_neq in Hne.
      unfold ungrouped in Ho. apply List.in_map_iff in Ho.
      destruct Ho as (o & <- & Ho). specialize (Hb o g' Ho Hg).
      destruct (bool_decide (SceneObject.groupId o = Some gid)) eqn:E';
        [|exact Hb].
      apply bool_decide_eq_true in E'.
      cbn [SceneObject.groupId SceneObject.id SceneObject.withGroupId].
      rewrite <- Hb, E'. split; [discriminate|]. intros [= ?]. congruence. }
    split; [exists s; reflexivity|].
    rewrite List.map_app, List.map_map. cbn [groupRequest].
    rewrite List.map_id. reflexivity.
Qed.

Lemma X25_removeGroup_ungroups_the_members_witness :
  let st' := afterS (removeGroup (G := referenceGroups) "den") denStudio in
  SceneState.groups (store (world st')) = []
  /\ List.map SceneObject.groupId (SceneState.objects (store (world st')))
     = [None; None; None]
  /\ List.map groupRequest (groupLog st') = [deleteGroup "doc-den" "project-1"]
  /\ length (SceneState.history (store (world st'))) = 1.
Proof.
  destruct (X25_removeGroup_ungroups_the_members (G := referenceGroups)
              denStudio "den") as [_ Hrun].
  destruct (Hrun (Group.mk "den" "Den" true true false ["lamp"; "sofa"]
                    (Some "doc-den")) eq_refl eq_refl)
    as (_ & Hg & Ho & _ & _ & _ & _ & (s & Hh) & Hc).
  cbv zeta. rewrite Hg, Ho, Hc, Hh. repeat split.
Defined.

Lemma map_attach_group_fresh (id : string) (f : option string)
    (l : list Group.t) :
  (forall g, In g l -> Group.id g <> id) ->
  List.map (fun g => if groupHasId id g then withGroupFirestoreId f g else g) l
  = l.
Proof.
  intros Hfresh. induction l as [|g l IH]; [reflexivity|].
  cbn [List.map]. rewrite IH by (intros; apply Hfresh; right; assumption).
  unfold groupHasId. destruct (String.eqb_spec (Group.id g) id) as [E|_].
  - exfalso. apply (Hfresh g); [left; reflexivity | exact E].
  - reflexivity.
Qed.

Lemma createGroup_runs {H : Host} {G : GroupGateway} (st : Studio)
    (name : string) (objectIds : list string) :
  (forall g, In g (SceneState.groups (store (world st))) ->
             Group.id g <> uuid (uuidCount (world st))) ->
  let w := world st in
  let state := store w in
  let newId := uuid (uuidCount w) in
  let added :=
    SceneState.setGroups
      (SceneState.groups state
       ++ [Group.mk newId name true true false objectIds None])%list
      (SceneState.setObjects (grouped newId objectIds (SceneState.objects state))
         state) in
  createGroup name objectIds st
  = lift saveToHistory
      (mkStudio
         (mkWorld
            (SceneState.setGroups
               (SceneState.groups state ++ [createdGroup st name objectIds])%list
               added)
            (heap w) (nextRef w) (S (uuidCount w)) (log w) (timers w))
         (rest st)
         (if inProject state
          then (groupLog st
                ++ [mkGroupEvent (groupCreateRequest st name objectIds)
                      (groupReply (length (groupLog st))
                         (groupCreateRequest st name objectIds))
                      added])%list
          else groupLog st)).
Proof.
  intros Hfresh. cbv zeta.
  unfold createGroup, createdGroup, groupPersistedId, groupCreateRequest,
    inProject, grouped.
  unfold bindS at 1, lift at 1, get at 1. cbn beta iota zeta.
  cbn [world rest groupLog].
  unfold bindS at 1, lift at 1, randomUUID at 1. cbn beta iota zeta.
  cbn [world rest groupLog store uuidCount].
  unfold bindS at 1, lift at 1, set at 1. cbn beta iota zeta.
  cbn [world rest groupLog store setStore].
  unfold bindS at 1.
  destruct (allTruthy _).
  - unfold bindS at 1, awaitGroup at 1. cbn beta iota zeta.
    cbn [world rest groupLog store].
    destruct (groupReply _ _) as [fid|].
    + unfold lift at 1, set at 1. cbn beta iota zeta.
      cbn [world rest groupLog store setStore]. store_simpl.
      rewrite List.map_app, map_attach_group_fresh by exact Hfresh.
      cbn [List.map]. unfold groupHasId. cbn [Group.id].
      rewrite String.eqb_refl. reflexivity.
    + unfold retS at 1. reflexivity.
  - unfold retS at 1. reflexivity.
Qed.

(** X26.  [createGroup] appends a group that is expanded, visible and
    unlocked, with the members given, and makes every entry it lists name
    the new group, locked or not, leaving the rest of the entry as it is; in
    a project one create request is sent and its answer becomes the
    persisted id of the group; the result is committed to the history at
    once.  When the listed entries were in no group, the membership stays
    bidirectional. *)
Theorem X26_createGroup_groups_the_listed_objects {H : Host}
    {G : GroupGateway} (st : Studio) (name : string)
    (objectIds : list string) :
  unusedGroupId (world st) ->
  let state := store (world st) in
  let newId := uuid (uuidCount (world st)) in
  let st' := afterS (createGroup name objectIds) st in
  let state' := store (world st') in
  outcomeS (createGroup name objectIds) st = Ok tt
  /\ SceneState.groups state'
     = (SceneState.groups state ++ [createdGroup st name objectIds])%list
  /\ SceneState.objects state'
     = grouped newId objectIds (SceneState.objects state)
  /\ (forall obj, In obj (SceneState.objects state') ->
                  SceneObject.groupId obj = Some newId
                  <-> In (SceneObject.id obj) objectIds)
  /\ List.map (SceneObject.withGroupId None) (SceneState.objects state')
     = List.map (SceneObject.withGroupId None) (SceneState.objects state)
  /\ List.map groupRequest (groupLog st')
     = (List.map groupRequest (groupLog st)
        ++ if inProject state then [groupCreateRequest st name objectIds]
           else [])%list
  /\ (exists s, SceneState.history state' = pushed s state)
  /\ (bidirectional state ->
      (forall obj, In obj (SceneState.objects state) ->
                   In (SceneObject.id obj) objectIds ->
                   SceneObject.groupId obj = None) ->
      bidirectional state').
Proof.
  intros [Hfresh Hunnamed]. cbv zeta. unfold afterS, outcomeS.
  rewrite (createGroup_runs st name objectIds Hfresh). unfold lift.
  cbn [world rest groupLog].
  match goal with
  | |- context [saveToHistory ?w0] =>
      destruct (saveToHistory_spec w0) as (s & w1 & _ & _ & E)
  end.
  rewrite E. cbn [fst snd world groupLog store setStore].
  unfold committed. store_simpl.
  assert (Hnamed : forall obj,
             In obj (grouped (uuid (uuidCount (world st))) objectIds
                       (SceneState.objects (store (world st)))) ->
             SceneObject.groupId obj = Some (uuid (uuidCount (world st)))
             <-> In (SceneObject.id obj) objectIds).
  { intros obj Ho. unfold grouped in Ho. apply List.in_map_iff in Ho.
    destruct Ho as (o & <- & Ho).
    destruct (JS.includes (SceneObject.id o) objectIds) eqn:Ei.
    - cbn [SceneObject.groupId SceneObject.id SceneObject.withGroupId].
      apply includes_In in Ei. tauto.
    - split; [intros Hg; exfalso; exact (Hunnamed o Ho Hg)|].
      intros Hin. apply includes_In in Hin. congruence. }
  split; [reflexivity|]. split; [reflexivity|]. split; [reflexivity|].
  split; [exact Hnamed|].
  split.
  { unfold grouped. rewrite List.map_map. apply List.map_ext. intros o.
    destruct (JS.includes _ _); reflexivity. }
  split.
  { destruct (inProject (store (world st))); [|symmetry; apply List.app_nil_r].
    rewrite List.map_app. reflexivity. }
  split; [exists s; reflexivity|].
  intros Hb Hnone obj' g' Ho Hg. store_simpl.
  apply List.in_app_iff in Hg. destruct Hg as [Hg|[<-|[]]].
  - pose proof Ho as Ho'. unfold grouped in Ho'.
    apply List.in_map_iff in Ho'. destruct Ho' as (o & <- & Hin).
    specialize (Hb o g' Hin Hg).
    destruct (JS.includes (SceneObject.id o) objectIds) eqn:Ei; [|exact Hb].
    cbn [SceneObject.groupId SceneObject.id SceneObject.withGroupId].
    apply includes_In in Ei. rewrite <- Hb, (Hnone o Hin Ei).
    split; [|discriminate]. intros [= Eg]. exfalso.
    exact (Hfresh g' Hg (eq_sym Eg)).
  - cbn [createdGroup Group.id Group.objectIds]. apply Hnamed. exact Ho.
Qed.

Lemma X26_createGroup_groups_the_listed_objects_witness :
  let st' := afterS (createGroup (H := referenceHost) (G := referenceGroups)
                       "Corner" ["rug"]) denStudio in
  List.map (fun g => (Group.id g, Group.objectIds g, Group.firestoreId g))
    (SceneState.groups (store (world st')))
  = [("den", ["lamp"; "sofa"], Some "doc-den");
     ("uuid-", ["rug"], Some "group-doc-")]
  /\ List.map SceneObject.groupId (SceneState.objects (store (world st')))
     = [Some "den"; Some "den"; Some "uuid-"]
  /\ bidirectional (store (world st')).
Proof.
  destruct (X26_createGroup_groups_the_listed_objects (H := referenceHost)
              (G := referenceGroups) denStudio "Corner" ["rug"])
    as (_ & Hg & Ho & _ & _ & _ & _ & Hb).
  - split.
    + intros group [<-|[]]. discriminate.
    + intros obj [<-|[<-|[<-|[]]]]; discriminate.
  - cbv zeta. split; [rewrite Hg; reflexivity|].
    split; [rewrite Ho; reflexivity|].
    apply Hb.
    + apply bidirectionalb_spec. reflexivity.
    + intros obj [<-|[<-|[<-|[]]]] [E|[]]; try discriminate. reflexivity.
Defined.

(** ** Dragging an edge *)

Lemma existsb_eqb_In (v : nat) (l : list nat) :
  existsb (Nat.eqb v) l = true <-> In v l.
Proof.
  rewrite List.existsb_exists. split.
  - intros (x & Hx & E). apply Nat.eqb_eq in E. now subst.
  - intros Hv. exists v. split; [exact Hv | apply Nat.eqb_refl].
Qed.

Lemma addAll_spec (b acc : list nat) :
  List.NoDup acc ->
  List.NoDup (addAll b acc)
  /\ forall i, In i (addAll b acc) <-> In i acc \/ In i b.
Proof.
  revert acc. induction b as [|v b IH]; intros acc Hacc.
  - cbn. split; [exact Hacc | tauto].
  - cbn [addAll]. destruct (existsb (Nat.eqb v) acc) eqn:E.
    + apply existsb_eqb_In in E. destruct (IH acc Hacc) as [Hn Hi].
      split; [exact Hn|]. intros i. rewrite Hi. cbn [In].
      split; [tauto|]. intros [Ha|[<-|Hb]]; tauto.
    + assert (Hv : ~ In v acc).
      { intros Hv. apply existsb_eqb_In in Hv. congruence. }
      assert (Hacc' : List.NoDup (acc ++ [v])).
      { apply List.NoDup_app.
        - exact Hacc.
        - constructor; [intros []|constructor].
        - intros x Hx [<-|[]]. exact (Hv Hx). }
      destruct (IH _ Hacc') as [Hn Hi]. split; [exact Hn|].
      intros i. rewrite Hi, List.in_app_iff. cbn [In]. tauto.
Qed.

Lemma findOverlappingVertices_spec (positions : list float) (n t i : nat) :
  length positions = 3 * n ->
  t < n ->
  In i (findOverlappingVertices positions t)
  <-> i = t \/ (i < n /\ welded positions i t = true).
Proof.
  intros Hl Ht. unfold findOverlappingVertices, welded. cbn [In].
  rewrite List.filter_In, (vertexIndices_triples positions n Hl),
    List.in_seq, Bool.andb_true_iff, Bool.negb_true_iff, Nat.eqb_neq.
  split.
  - intros [->|(Hi & _ & Hd)]; [left; reflexivity | right; split; [lia|exact Hd]].
  - intros [->|(Hi & Hd)]; [left; reflexivity|].
    destruct (Nat.eq_dec i t) as [->|Hne]; [left; reflexivity|].
    right. split; [lia|]. split; assumption.
Qed.

Lemma connectedTo_spec (positions : list float) (n v1 v2 : nat) :
  length positions = 3 * n ->
  v1 < n -> v2 < n ->
  List.NoDup (connectedTo positions v1 v2)
  /\ forall i,
       In i (connectedTo positions v1 v2)
       <-> i = v1 \/ i = v2
           \/ (i < n /\ (welded positions i v1 = true
                         \/ welded positions i v2 = true)).
Proof.
  intros Hl H1 H2. unfold connectedTo.
  destruct (addAll_spec (findOverlappingVertices positions v1) []
              (List.NoDup_nil _)) as [Hn1 Hi1].
  destruct (addAll_spec (findOverlappingVertices positions v2) _ Hn1)
    as [Hn2 Hi2].
  split; [exact Hn2|]. intros i.
  rewrite Hi2, Hi1, (findOverlappingVertices_spec positions n v1 i Hl H1),
    (findOverlappingVertices_spec positions n v2 i Hl H2).
  cbn [In]. tauto.
Qed.

Lemma translated_vertices (indices : list nat) (offset : Vector3.t)
    (positions : list float) :
  let moved :=
    fold_left
      (fun arr vertexIndex =>
         setXYZ arr vertexIndex (addVector (vertexAt arr vertexIndex) offset))
      indices positions in
  length moved = length positions
  /\ forall i, ~ In i indices -> vertexAt moved i = vertexAt positions i.
Proof.
  cbv zeta. revert positions.
  induction indices as [|j indices IH]; intros positions.
  - split; reflexivity.
  - cbn [fold_left]. destruct (IH (setXYZ positions j
                                    (addVector (vertexAt positions j) offset)))
      as [Hlen Hframe].
    split; [now rewrite Hlen, setXYZ_length|].
    intros i Hi. rewrite Hframe by (intros Hin; apply Hi; right; exact Hin).
    apply vertexAt_setXYZ_other. intros ->. apply Hi. left. reflexivity.
Qed.

Section EdgeDrag.
Context {L : ThreeLib} {H : Host} {G : GroupGateway}.

Lemma startEdgeDrag_runs (st : Studio) (r : nat) (geometry : Geometry)
    (positions : list float) (v1 v2 : nat) (ps : list Vector3.t)
    (midpoint : Vector3.t) :
  editable (world st) r geometry ->
  positionsOf geometry = Some positions ->
  let connected := connectedTo positions v1 v2 in
  startEdgeDrag v1 v2 ps midpoint st
  = (Ok tt,
     mkStudio
       (setStore
          (SceneState.setSelectedElements
             (SelectedElements.mk
                (SelectedElements.vertices
                   (SceneState.selectedElements (store (world st))))
                connected
                (SelectedElements.faces
                   (SceneState.selectedElements (store (world st)))))
             (store (world st)))
          (world st))
       (Rest.setDraggedEdge
          (Some (DraggedEdge.mk
                   (flat_map
                      (fun a =>
                         List.map (fun b => (a, b))
                           (findOverlappingVertices positions v2))
                      (findOverlappingVertices positions v1))
                   ps ps connected midpoint))
          (rest st))
       (groupLog st)).
Proof.
  intros He Hp. cbv zeta. unfold startEdgeDrag, connectedTo.
  unfold bindS at 1, lift at 1.
  rewrite (selectedMesh_editable (world st) r geometry He). rewrite Hp.
  run_studio. reflexivity.
Qed.

Lemma updateEdgeDrag_runs (st : Studio) (r : nat) (geometry : Geometry)
    (positions : list float) (draggedEdge : DraggedEdge.t)
    (position : Vector3.t) :
  editable (world st) r geometry ->
  positionsOf geometry = Some positions ->
  Rest.draggedEdge (rest st) = Some draggedEdge ->
  let w := world st in
  let moved :=
    fold_left
      (fun arr vertexIndex =>
         setXYZ arr vertexIndex
           (addVector (vertexAt arr vertexIndex)
              (subVector position (DraggedEdge.midpoint draggedEdge))))
      (DraggedEdge.connectedVertices draggedEdge) positions in
  updateEdgeDrag position st
  = (Ok tt,
     mkStudio
       (mkWorld (store w)
          (<[r := withGeometry
                    (computeVertexNormals (withPositions moved geometry))
                    (default blankObject (heap w !! r))]> (heap w))
          (nextRef w) (uuidCount w) (log w) (timers w))
       (Rest.setDraggedEdge
          (Some (DraggedEdge.mk (DraggedEdge.indices draggedEdge)
                   (DraggedEdge.positions draggedEdge)
                   (DraggedEdge.initialPositions draggedEdge)
                   (DraggedEdge.connectedVertices draggedEdge) position))
          (rest st))
       (groupLog st)).
Proof.
  intros He Hp Hd. cbv zeta. unfold updateEdgeDrag.
  unfold bindS at 1, getRest at 1. cbn beta iota. rewrite Hd.
  unfold bindS at 1, lift at 1.
  rewrite (selectedMesh_editable (world st) r geometry He). rewrite Hp.
  run_studio. reflexivity.
Qed.

Lemma positionsIn_written (w : World) (r : nat) (geometry : Geometry)
    (moved : list float) (hp : gmap nat Object3D.t) (n u : nat)
    (s : SceneState.t) (l : list GatewayEvent) (t : nat) :
  (exists material p q s v,
      heap w !! r = Some (Object3D.mk (MeshBody geometry material) p q s v)) ->
  positionsIn
    (mkWorld s
       (<[r := withGeometry
                 (computeVertexNormals (withPositions moved geometry))
                 (default blankObject (heap w !! r))]> hp) n u l t) r
  = Some moved.
Proof.
  intros (m & a & b & c & v & Hheap).
  unfold positionsIn. store_simpl. rewrite lookup_insert_eq, Hheap.
  cbn [default]. unfold withGeometry, computeVertexNormals, withPositions.
  cbn. reflexivity.
Qed.

End EdgeDrag.

(** X27.  On an editable mesh of n vertices, [startEdgeDrag] on the edge
    between the vertices v1 and v2 collects as connected set the two
    vertices and every vertex closer than 0.0001 to one of them, each index
    once, and makes it the edge selection.  [updateEdgeDrag] then writes the
    connected vertices only: the position buffer keeps its length and every
    other vertex stays where it was; the position given becomes the midpoint
    of the drag, and the connected set is kept.  Neither action commits to
    the history or sends a request. *)
Theorem X27_edge_drag_moves_connected_vertices_only {L : ThreeLib}
    (st : Studio) (r : nat)
    (geometry : Geometry) (positions : list float) (n v1 v2 : nat)
    (ps : list Vector3.t) (midpoint position : Vector3.t) :
  editable (world st) r geometry ->
  positionsOf geometry = Some positions ->
  length positions = 3 * n ->
  v1 < n -> v2 < n ->
  let st1 := afterS (startEdgeDrag v1 v2 ps midpoint) st in
  let st2 := afterS (updateEdgeDrag position) st1 in
  outcomeS (startEdgeDrag v1 v2 ps midpoint) st = Ok tt
  /\ outcomeS (updateEdgeDrag position) st1 = Ok tt
  /\ List.NoDup (connectedOf st1)
  /\ (forall i,
        In i (connectedOf st1)
        <-> i = v1 \/ i = v2
            \/ (i < n /\ (welded positions i v1 = true
                          \/ welded positions i v2 = true)))
  /\ SelectedElements.edges (SceneState.selectedElements (store (world st1)))
     = connectedOf st1
  /\ (exists moved,
        positionsIn (world st2) r = Some moved
        /\ length moved = length positions
        /\ forall i, ~ In i (connectedOf st1) ->
                     vertexAt moved i = vertexAt positions i)
  /\ option_map DraggedEdge.midpoint (Rest.draggedEdge (rest st2))
     = Some position
  /\ connectedOf st2 = connectedOf st1
  /\ SceneState.history (store (world st2))
     = SceneState.history (store (world st))
  /\ log (world st2) = log (world st)
  /\ groupLog st2 = groupLog st.
Proof.
  intros He Hp Hl H1 H2. cbv zeta. unfold afterS, outcomeS.
  rewrite (startEdgeDrag_runs st r geometry positions v1 v2 ps midpoint He Hp).
  cbn [fst snd].
  match goal with
  | |- context [updateEdgeDrag position ?s] => set (st1 := s)
  end.
  assert (He1 : editable (world st1) r geometry).
  { destruct He as (Hsel & Hheap & Hlock). repeat split; assumption. }
  pose proof (updateEdgeDrag_runs st1 r geometry positions
                (DraggedEdge.mk
                   (flat_map
                      (fun a =>
                         List.map (fun b => (a, b))
                           (findOverlappingVertices positions v2))
                      (findOverlappingVertices positions v1))
                   ps ps (connectedTo positions v1 v2) midpoint)
                position He1 Hp eq_refl) as Hupd.
  cbv zeta in Hupd. rewrite Hupd. cbn [fst snd].
  cbn [DraggedEdge.connectedVertices DraggedEdge.midpoint
       DraggedEdge.indices DraggedEdge.positions DraggedEdge.initialPositions].
  destruct (connectedTo_spec positions n v1 v2 Hl H1 H2) as [Hnd Hin].
  destruct (translated_vertices (connectedTo positions v1 v2)
              (subVector position midpoint) positions) as [Hlen Hframe].
  unfold connectedOf, st1.
  cbn [world rest groupLog Rest.draggedEdge Rest.setDraggedEdge
       DraggedEdge.connectedVertices DraggedEdge.midpoint option_map].
  store_simpl. cbn [SelectedElements.edges].
  split; [reflexivity|]. split; [reflexivity|]. split; [exact Hnd|].
  split; [exact Hin|]. split; [reflexivity|].
  split.
  { eexists. split.
    - apply positionsIn_written. destruct He as (_ & Hheap & _). exact Hheap.
    - split; [exact Hlen | exact Hframe]. }
  repeat split.
Qed.

Lemma X27_edge_drag_moves_connected_vertices_only_witness :
  let st1 :=
    afterS (startEdgeDrag 0 1
              [Vector3.mk 0 0 0; Vector3.mk 1 0 0] (Vector3.mk 0.5 0 0))
      (studioOf (meshScene quadVertices)) in
  let st2 :=
    afterS (updateEdgeDrag (L := referenceThree) (Vector3.mk 0.5 0 2)) st1 in
  connectedOf st1 = [0; 5; 1; 4]
  /\ exists moved,
       positionsIn (world st2) 0 = Some moved
       /\ vertexAt moved 2 = Vector3.mk 1 1 0
       /\ vertexAt moved 3 = Vector3.mk 0 1 0.
Proof.
  destruct (X27_edge_drag_moves_connected_vertices_only (L := referenceThree)
              (studioOf (meshScene quadVertices)) 0
              (mkGeometry BufferGeometry None
                 (mkAttributes (Some quadVertices) None None None))
              quadVertices 6 0 1
              [Vector3.mk 0 0 0; Vector3.mk 1 0 0] (Vector3.mk 0.5 0 0)
              (Vector3.mk 0.5 0 2))
    as (_ & _ & _ & _ & _ & (moved & Hp & _ & Hframe) & _).
  - repeat split. exists OtherMaterial, origin, origin, unitScale, true.
    reflexivity.
  - reflexivity.
  - reflexivity.
  - lia.
  - lia.
  - cbv zeta. split; [reflexivity|]. exists moved. split; [exact Hp|].
    split.
    + rewrite Hframe; [reflexivity|].
      intros [E|[E|[E|[E|[]]]]]; discriminate.
    + rewrite Hframe; [reflexivity|].
      intros [E|[E|[E|[E|[]]]]]; discriminate.
Defined.

(** ** Renaming a group *)

Lemma updateGroupName_runs {G : GroupGateway} (st : Studio) (gid : string)
    (name : string) (group : Group.t) :
  JS.find (groupHasId gid) (SceneState.groups (store (world st))) = Some group ->
  Group.locked group = false ->
  let state := store (world st) in
  let state1 :=
    SceneState.setGroups
      (List.map
         (fun g => if groupHasId gid g then withGroupName name g else g)
         (SceneState.groups state))
      state in
  updateGroupName gid name st
  = (Ok tt,
     mkStudio
       (setStore (SceneState.setHasUnsavedChanges true state1) (world st))
       (rest st)
       (groupLog st
        ++ List.map
             (fun req =>
                mkGroupEvent req (groupReply (length (groupLog st)) req) state1)
             (groupPatchRequests state group (PatchGroupName name)))%list).
Proof.
  intros Hf Hl. cbv zeta. unfold updateGroupName, groupPatchRequests.
  run_studio. rewrite Hf, Hl.
  destruct (allTruthy _); run_studio; cbn [List.map];
    rewrite ?List.app_nil_r; reflexivity.
Qed.

Lemma renamed_groups (gid name : string) (l : list Group.t) :
  let l' :=
    List.map (fun g => if groupHasId gid g then withGroupName name g else g) l
  in
  List.map (withGroupName "") l' = List.map (withGroupName "") l
  /\ (forall g, In g l' -> Group.id g = gid -> Group.name g = name)
  /\ (forall g, In g l -> Group.id g <> gid -> In g l').
Proof.
  cbv zeta. split; [|split].
  - rewrite List.map_map. apply List.map_ext. intros g.
    destruct (groupHasId gid g); reflexivity.
  - intros g Hg Hid. apply List.in_map_iff in Hg.
    destruct Hg as (g0 & <- & _). revert Hid.
    destruct (groupHasId gid g0) eqn:E; [reflexivity|].
    intros Hid. unfold groupHasId in E. rewrite Hid, String.eqb_refl in E.
    discriminate.
  - intros g Hg Hid. apply List.in_map_iff. exists g. split; [|exact Hg].
    unfold groupHasId. destruct (String.eqb_spec (Group.id g) gid);
      [contradiction | reflexivity].
Qed.

(** X28.  A locked group cannot be renamed: [updateGroupName] on it changes
    nothing and sends nothing.  On an unlocked group it changes the name of
    the groups with that id and nothing else of any group, leaves the
    objects, the selection and the history as they are (a rename is not
    committed), marks the store as unsaved, and sends one name update when
    the group has a persisted id and the store is in a project. *)
Theorem X28_locked_group_cannot_be_renamed {G : GroupGateway} (st : Studio)
    (gid : string) (name : string) (group : Group.t) :
  JS.find (groupHasId gid) (SceneState.groups (store (world st))) = Some group ->
  let state := store (world st) in
  let st' := afterS (updateGroupName gid name) st in
  let state' := store (world st') in
  (Group.locked group = true -> updateGroupName gid name st = (Ok tt, st))
  /\ (Group.locked group = false ->
      outcomeS (updateGroupName gid name) st = Ok tt
      /\ JS.find (groupHasId gid) (SceneState.groups state')
         = Some (withGroupName name group)
      /\ List.map (withGroupName "") (SceneState.groups state')
         = List.map (withGroupName "") (SceneState.groups state)
      /\ (forall g, In g (SceneState.groups state') -> Group.id g = gid ->
                    Group.name g = name)
      /\ (forall g, In g (SceneState.groups state) -> Group.id g <> gid ->
                    In g (SceneState.groups state'))
      /\ SceneState.objects state' = SceneState.objects state
      /\ SceneState.selectedObject state' = SceneState.selectedObject state
      /\ SceneState.history state' = SceneState.history state
      /\ SceneState.historyIndex state' = SceneState.historyIndex state
      /\ SceneState.hasUnsavedChanges state' = true
      /\ List.map groupRequest (groupLog st')
         = (List.map groupRequest (groupLog st)
            ++ groupPatchRequests state group (PatchGroupName name))%list).
Proof.
  intros Hf. cbv zeta. split.
  - intros Hl. unfold updateGroupName. run_studio. rewrite Hf, Hl.
    destruct st; reflexivity.
  - intros Hl. unfold afterS, outcomeS.
    rewrite (updateGroupName_runs st gid name group Hf Hl).
    cbn [fst snd world groupLog store setStore]. store_simpl.
    destruct (renamed_groups gid name (SceneState.groups (store (world st))))
      as (Hsame & Hname & Hother).
    split; [reflexivity|].
    split.
    { rewrite (find_map_group gid (withGroupName name)) by reflexivity.
      rewrite Hf. reflexivity. }
    split; [exact Hsame|]. split; [exact Hname|]. split; [exact Hother|].
    split; [reflexivity|]. split; [reflexivity|]. split; [reflexivity|].
    split; [reflexivity|]. split; [reflexivity|].
    rewrite List.map_app, List.map_map. cbn [groupRequest].
    rewrite List.map_id. reflexivity.
Qed.

Lemma X28_locked_group_cannot_be_renamed_witness :
  let st' := afterS (updateGroupName (G := referenceGroups) "den" "Lounge")
               denStudio in
  let locked := afterS (toggleGroupLock (G := referenceGroups) "den") st' in
  List.map Group.name (SceneState.groups (store (world st'))) = ["Lounge"]
  /\ List.map groupRequest (groupLog st')
     = [updateGroupField "doc-den" (PatchGroupName "Lounge") "teacher"
          "project-1"]
  /\ updateGroupName (G := referenceGroups) "den" "Attic" locked
     = (Ok tt, locked).
Proof.
  cbv zeta. split; [|split].
  - destruct (X28_locked_group_cannot_be_renamed (G := referenceGroups)
                denStudio "den" "Lounge"
                (Group.mk "den" "Den" true true false ["lamp"; "sofa"]
                   (Some "doc-den")) eq_refl) as [_ Hr].
    destruct (Hr eq_refl) as (_ & _ & _ & Hn & _).
    reflexivity.
  - reflexivity.
  - refine (proj1 (X28_locked_group_cannot_be_renamed (G := referenceGroups)
                     (afterS (toggleGroupLock (G := referenceGroups) "den")
                        (afterS (updateGroupName (G := referenceGroups)
                                   "den" "Lounge") denStudio))
                     "den" "Attic"
                     (Group.mk "den" "Lounge" true true true ["lamp"; "sofa"]
                        (Some "doc-den")) eq_refl) eq_refl).
Defined.

(** ** Leaving the placement mode *)

(** X29.  [startObjectPlacement] enters the placement mode with the
    definition given and clears the selection, the transform mode and the
    edit mode; the objects, the groups and the history are not touched.
    [cancelObjectPlacement] leaves the placement mode and forgets the
    pending object, but gives back neither the selection nor the two modes;
    after it [placeObjectAt] does nothing. *)
Theorem X29_cancelled_placement_keeps_the_selection_cleared {L : ThreeLib}
    {H : Host} (st : Studio) (objectDef : PendingObject.t)
    (position : Vector3.t) (rotation : option Vector3.t) :
  let st1 := afterS (startObjectPlacement objectDef) st in
  let st2 := afterS cancelObjectPlacement st1 in
  outcomeS (startObjectPlacement objectDef) st = Ok tt
  /\ Rest.placementMode (rest st1) = true
  /\ Rest.pendingObject (rest st1) = Some objectDef
  /\ world st1
     = setStore (SceneState.setSelectedObject None (store (world st)))
         (world st)
  /\ outcomeS cancelObjectPlacement st1 = Ok tt
  /\ world st2 = world st1
  /\ rest st2
     = Rest.setTransformMode None
         (Rest.setEditMode None
            (Rest.setPlacementMode false
               (Rest.setPendingObject None (rest st))))
  /\ groupLog st2 = groupLog st
  /\ placeObjectAt position rotation st2 = (Ok tt, st2).
Proof.
  cbv zeta. unfold startObjectPlacement, cancelObjectPlacement, placeObjectAt.
  run_studio. repeat split.
Qed.
